(** * asteroids-webgl: the renderer of [src/lib/render.ts]

    A shallow embedding of the [Render] class and of its four helper
    functions ([compile], [link], [attribute], [uniform]).

    - A JavaScript [number] is an IEEE 754 binary64 value: Rocq's
      primitive [float], whose operations are exactly the binary64 ones.
      [Math.cos] and [Math.sin] are implementation-approximated in
      ECMAScript, so they are parameters of the development.
    - The WebGL context and the 2D context are recording stubs: every
      method call is appended to a log, and the few pieces of GL object
      state the code inspects (shader and program tables, statuses) are
      kept next to the log.  What the driver decides (whether a source
      compiles, which names have locations) is a parameter.
    - A method is a function from the state of the page to an outcome and
      a new state.  An exception keeps the state reached when it was
      thrown, as in JavaScript.  Loops over numbers carry fuel; running out
      of it is a third outcome. *)

From Stdlib Require Import ZArith QArith List Floats Lia Bool.
From stdpp Require Import base option strings gmap pretty.
Import ListNotations.

Local Open Scope string_scope.
Local Open Scope Z_scope.
Set Warnings "-inexact-float".

(** ** Numbers *)

(** [Math.PI], the binary64 value nearest to pi. *)
Definition Math_PI : float := 0x1.921fb54442d18p+1%float.

(** The number whose value is the integer [z] (DOM sizes, array lengths);
    exact below 2^53 in magnitude. *)
Definition number_of_int (z : Z) : float :=
  if z <? 0 then (- PrimFloat.of_uint63 (Uint63.of_Z (- z)))%float
  else PrimFloat.of_uint63 (Uint63.of_Z z).

(** [new Float32Array(value)]: the typed array built from [value]; its
    elements are those of [value] rounded to binary32 by the runtime. *)
Inductive Float32Array : Type :=
  new_Float32Array (value : list float).

(** The [number | number[]] argument of [uniform]. *)
Inductive uniform_value : Type :=
| Num (x : float)
| Arr (xs : list float).

(** ** Outcomes and the method monad *)

Inductive outcome (A : Type) : Type :=
| Ok (a : A)
| Throw (message : string)
| OutOfFuel.
Arguments Ok {A} a.
Arguments Throw {A} message.
Arguments OutOfFuel {A}.

Definition M (S A : Type) : Type := S -> outcome A * S.

Definition ret {S A} (a : A) : M S A := fun s => (Ok a, s).

Definition bind {S A B} (m : M S A) (k : A -> M S B) : M S B :=
  fun s =>
    match m s with
    | (Ok a, s') => k a s'
    | (Throw e, s') => (Throw e, s')
    | (OutOfFuel, s') => (OutOfFuel, s')
    end.

Definition throw {S A} (message : string) : M S A := fun s => (Throw message, s).
Definition gets {S A} (f : S -> A) : M S A := fun s => (Ok (f s), s).
Definition modify {S} (f : S -> S) : M S unit := fun s => (Ok tt, f s).

Declare Scope js_scope.
Delimit Scope js_scope with js.
Notation "x <- m ;; k" := (bind m (fun x => k))
  (at level 100, m at next level, right associativity) : js_scope.
Notation "m ;; k" := (bind m (fun _ => k))
  (at level 100, right associativity) : js_scope.
Local Open Scope js_scope.

(** [for (let r = r0; test(r); r = next(r)) body(r)]; the test may read
    the state. *)
Fixpoint for_number {S} (fuel : nat) (test : float -> S -> bool)
    (next : float -> float) (body : float -> M S unit) (r : float) : M S unit :=
  match fuel with
  | O => fun s => (OutOfFuel, s)
  | Datatypes.S fuel' =>
      continue <- gets (test r);;
      if continue : bool then (body r ;; for_number fuel' test next body (next r))
      else ret tt
  end.

(** [array.forEach(f)] *)
Fixpoint forEach {S A} (f : A -> M S unit) (xs : list A) : M S unit :=
  match xs with
  | [] => ret tt
  | x :: xs' => f x ;; forEach f xs'
  end.

(** ** The WebGL context: constants, calls, objects *)

Module GL.
Definition VERTEX_SHADER : Z := 0x8B31.
Definition FRAGMENT_SHADER : Z := 0x8B30.
Definition COMPILE_STATUS : Z := 0x8B81.
Definition LINK_STATUS : Z := 0x8B82.
Definition ARRAY_BUFFER : Z := 0x8892.
Definition STATIC_DRAW : Z := 0x88E4.
Definition FLOAT : Z := 0x1406.
Definition LINE_STRIP : Z := 0x0003.
Definition COLOR_BUFFER_BIT : Z := 0x4000.
End GL.

(** One entry of the log per method call on the context, arguments as
    passed.  Object names (shaders, programs, buffers, uniform locations)
    are natural numbers. *)
Inductive gl_call : Type :=
| CreateShader (type : Z)
| ShaderSource (shader : N) (source : string)
| CompileShader (shader : N)
| GetShaderParameter (shader : N) (pname : Z)
| GetShaderInfoLog (shader : N)
| DeleteShader (shader : N)
| CreateProgram
| AttachShader (program shader : N)
| LinkProgram (program : N)
| GetProgramParameter (program : N) (pname : Z)
| GetProgramInfoLog (program : N)
| DeleteProgram (program : N)
| UseProgram (program : N)
| ClearColor (r g b a : float)
| Clear (mask : Z)
| Viewport (x y width height : Z)
| CreateBuffer
| GetAttribLocation (program : N) (name : string)
| BindBuffer (target : Z) (buffer : N)
| BufferData (target : Z) (data : Float32Array) (usage : Z)
| EnableVertexAttribArray (index : Z)
| VertexAttribPointer (index size type : Z) (normalized : bool) (stride offset : Z)
| GetUniformLocation (program : N) (name : string)
| Uniform1f (location : N) (x : float)
| Uniform2fv (location : N) (v : Float32Array)
| Uniform4fv (location : N) (v : Float32Array)
| UniformMatrix3fv (location : N) (transpose : bool) (v : Float32Array)
| DrawArrays (mode first count : Z).

Record shader_obj : Type := {
  sh_type : Z;
  sh_source : string;
  sh_status : bool
}.

Record program_obj : Type := {
  pr_attached : list N;
  pr_status : bool
}.

(** What the implementation decides. *)
Record Driver : Type := {
  compile_status : Z -> string -> bool;
  shader_info_log : Z -> string -> string;
  link_status : list shader_obj -> bool;
  program_info_log : list shader_obj -> string;
  (** [None]: no active attribute (uniform) of that name in the program. *)
  attrib_location : N -> string -> option N;
  uniform_location : N -> string -> option N
}.

Record gl_state : Type := {
  gl_next : N;
  gl_shaders : gmap N shader_obj;
  gl_programs : gmap N program_obj;
  gl_buffers : gset N;
  gl_viewport : Z * Z * Z * Z;
  gl_log : list gl_call
}.

Definition gl_empty : gl_state :=
  {| gl_next := 1%N; gl_shaders := ∅; gl_programs := ∅; gl_buffers := ∅;
     gl_viewport := (0, 0, 300, 150); gl_log := [] |}.

Definition gl_record (c : gl_call) (g : gl_state) : gl_state :=
  {| gl_next := gl_next g; gl_shaders := gl_shaders g;
     gl_programs := gl_programs g; gl_buffers := gl_buffers g;
     gl_viewport := gl_viewport g; gl_log := gl_log g ++ [c] |}.

Definition gl_fresh (g : gl_state) : gl_state :=
  {| gl_next := N.succ (gl_next g); gl_shaders := gl_shaders g;
     gl_programs := gl_programs g; gl_buffers := gl_buffers g;
     gl_viewport := gl_viewport g; gl_log := gl_log g |}.

Definition gl_with_shaders (f : gmap N shader_obj -> gmap N shader_obj)
    (g : gl_state) : gl_state :=
  {| gl_next := gl_next g; gl_shaders := f (gl_shaders g);
     gl_programs := gl_programs g; gl_buffers := gl_buffers g;
     gl_viewport := gl_viewport g; gl_log := gl_log g |}.

Definition gl_with_programs (f : gmap N program_obj -> gmap N program_obj)
    (g : gl_state) : gl_state :=
  {| gl_next := gl_next g; gl_shaders := gl_shaders g;
     gl_programs := f (gl_programs g); gl_buffers := gl_buffers g;
     gl_viewport := gl_viewport g; gl_log := gl_log g |}.

Definition gl_with_buffers (f : gset N -> gset N) (g : gl_state) : gl_state :=
  {| gl_next := gl_next g; gl_shaders := gl_shaders g;
     gl_programs := gl_programs g; gl_buffers := f (gl_buffers g);
     gl_viewport := gl_viewport g; gl_log := gl_log g |}.

Definition gl_with_viewport (v : Z * Z * Z * Z) (g : gl_state) : gl_state :=
  {| gl_next := gl_next g; gl_shaders := gl_shaders g;
     gl_programs := gl_programs g; gl_buffers := gl_buffers g;
     gl_viewport := v; gl_log := gl_log g |}.

(** ** The page: what the renderer reads and writes

    The two canvases of the document, the two contexts, and the fields of
    the [Render] instance.  [width]/[height] are the canvases' pixel-buffer
    attributes; the client (layout) sizes of the body and of the canvases
    are read through the browser. *)

Inductive c2d_call : Type :=
| ClearRect (x y w h : float)
| Save
| SetFont (font : string)
| MeasureText (text : string)
| SetFillStyle (style : string)
| Translate (x y : float)
| FillText (text : string) (x y : float)
| Restore.

Inductive dom_call : Type :=
| AddEventListener (target event : string)
| WebkitRequestFullScreen.

Record state : Type := {
  (* the WebGL context of #game and the 2D context of #text *)
  gl : gl_state;
  canvas_2d : list c2d_call;
  (* document *)
  body_client : Z * Z;
  game_width : Z;  game_height : Z;
  text_width : Z;  text_height : Z;
  dom_log : list dom_call;
  (* this.fps *)
  fps_count : Z;
  fps_rate : Z;
  fps_last : Z;
  (* this.debug, this.program, this.aspect_ratio *)
  debug : bool;
  program : N;
  aspect_ratio : float
}.

Definition with_gl (f : gl_state -> gl_state) (s : state) : state :=
  {| gl := f (gl s); canvas_2d := canvas_2d s; body_client := body_client s;
     game_width := game_width s; game_height := game_height s;
     text_width := text_width s; text_height := text_height s;
     dom_log := dom_log s;
     fps_count := fps_count s; fps_rate := fps_rate s; fps_last := fps_last s;
     debug := debug s; program := program s; aspect_ratio := aspect_ratio s |}.

Definition with_canvas_2d (f : list c2d_call -> list c2d_call) (s : state) : state :=
  {| gl := gl s; canvas_2d := f (canvas_2d s); body_client := body_client s;
     game_width := game_width s; game_height := game_height s;
     text_width := text_width s; text_height := text_height s;
     dom_log := dom_log s;
     fps_count := fps_count s; fps_rate := fps_rate s; fps_last := fps_last s;
     debug := debug s; program := program s; aspect_ratio := aspect_ratio s |}.

Definition with_dom_log (f : list dom_call -> list dom_call) (s : state) : state :=
  {| gl := gl s; canvas_2d := canvas_2d s; body_client := body_client s;
     game_width := game_width s; game_height := game_height s;
     text_width := text_width s; text_height := text_height s;
     dom_log := f (dom_log s);
     fps_count := fps_count s; fps_rate := fps_rate s; fps_last := fps_last s;
     debug := debug s; program := program s; aspect_ratio := aspect_ratio s |}.

Definition with_canvas_size (gw gh tw th : Z) (s : state) : state :=
  {| gl := gl s; canvas_2d := canvas_2d s; body_client := body_client s;
     game_width := gw; game_height := gh;
     text_width := tw; text_height := th;
     dom_log := dom_log s;
     fps_count := fps_count s; fps_rate := fps_rate s; fps_last := fps_last s;
     debug := debug s; program := program s; aspect_ratio := aspect_ratio s |}.

Definition with_fps (count rate last : Z) (s : state) : state :=
  {| gl := gl s; canvas_2d := canvas_2d s; body_client := body_client s;
     game_width := game_width s; game_height := game_height s;
     text_width := text_width s; text_height := text_height s;
     dom_log := dom_log s;
     fps_count := count; fps_rate := rate; fps_last := last;
     debug := debug s; program := program s; aspect_ratio := aspect_ratio s |}.

Definition with_debug (b : bool) (s : state) : state :=
  {| gl := gl s; canvas_2d := canvas_2d s; body_client := body_client s;
     game_width := game_width s; game_height := game_height s;
     text_width := text_width s; text_height := text_height s;
     dom_log := dom_log s;
     fps_count := fps_count s; fps_rate := fps_rate s; fps_last := fps_last s;
     debug := b; program := program s; aspect_ratio := aspect_ratio s |}.

Definition with_program (p : N) (s : state) : state :=
  {| gl := gl s; canvas_2d := canvas_2d s; body_client := body_client s;
     game_width := game_width s; game_height := game_height s;
     text_width := text_width s; text_height := text_height s;
     dom_log := dom_log s;
     fps_count := fps_count s; fps_rate := fps_rate s; fps_last := fps_last s;
     debug := debug s; program := p; aspect_ratio := aspect_ratio s |}.

Definition with_aspect_ratio (a : float) (s : state) : state :=
  {| gl := gl s; canvas_2d := canvas_2d s; body_client := body_client s;
     game_width := game_width s; game_height := game_height s;
     text_width := text_width s; text_height := text_height s;
     dom_log := dom_log s;
     fps_count := fps_count s; fps_rate := fps_rate s; fps_last := fps_last s;
     debug := debug s; program := program s; aspect_ratio := a |}.

(** What the browser decides: whether the two contexts exist, the layout
    size of a canvas (from the body's client size and the canvas's own
    attributes), text metrics, number formatting, and the message of the
    [TypeError] it throws when the property [name] of [undefined] is
    read. *)
Record Browser : Type := {
  webgl_supported : bool;
  context_2d_supported : bool;
  canvas_client : string -> Z * Z -> Z * Z -> Z * Z;
  measure_width : string -> string -> float;
  Number_toString : float -> string;
  Number_toFixed : float -> Z -> string;
  TypeError_undefined : string -> string
}.

(** [Wireframe] and the part of [Body] the renderer reads. *)
Record Wireframe : Type := {
  bounds : float;
  color : list float;
  shape : list float
}.

Record Body : Type := {
  wireframe : Wireframe;
  position : list float;
  rotation : float;
  size : float;
  velocity : list float
}.

(** [a[i]] on a [number[]]: the entry, or [undefined] ([None]) when the
    array has no entry [i]. *)
Definition index (a : list float) (i : nat) : option float := nth_error a i.

(** A possibly undefined entry as an operand of [+] or [-]:
    [undefined] converts to [NaN]. *)
Definition to_number (v : option float) : float :=
  match v with
  | Some x => x
  | None => nan
  end.

(** The double-quote character, for the two lookup messages. *)
Definition dquote : string := String (Ascii.ascii_of_nat 34) EmptyString.

(** [a || b] on an optional string argument: [undefined] and the empty
    string are falsy. *)
Definition or_default (a : option string) (b : string) : string :=
  match a with
  | Some (String c rest) => String c rest
  | _ => b
  end.

Section Renderer.

Variable driver : Driver.
Variable browser : Browser.
Variables Math_cos Math_sin : float -> float.

(** *** Context methods *)

Definition gl_do (c : gl_call) (f : gl_state -> gl_state) : M state unit :=
  modify (with_gl (fun g => f (gl_record c g))).

Definition gl_createShader (type : Z) : M state N :=
  shader <- gets (fun s => gl_next (gl s));;
  gl_do (CreateShader type)
    (fun g => gl_with_shaders
       (insert shader {| sh_type := type; sh_source := EmptyString; sh_status := false |})
       (gl_fresh g));;
  ret shader.

Definition gl_shaderSource (shader : N) (source : string) : M state unit :=
  gl_do (ShaderSource shader source)
    (gl_with_shaders (fun t => match t !! shader with
       | Some o => <[shader := {| sh_type := sh_type o; sh_source := source;
                                  sh_status := sh_status o |}]> t
       | None => t end)).

Definition gl_compileShader (shader : N) : M state unit :=
  gl_do (CompileShader shader)
    (gl_with_shaders (fun t => match t !! shader with
       | Some o => <[shader := {| sh_type := sh_type o; sh_source := sh_source o;
                                  sh_status := compile_status driver (sh_type o) (sh_source o) |}]> t
       | None => t end)).

(** [getShaderParameter(shader, COMPILE_STATUS)] *)
Definition gl_getShaderParameter (shader : N) (pname : Z) : M state bool :=
  gl_do (GetShaderParameter shader pname) id;;
  gets (fun s => match gl_shaders (gl s) !! shader with
                 | Some o => sh_status o
                 | None => false end).

Definition gl_getShaderInfoLog (shader : N) : M state string :=
  gl_do (GetShaderInfoLog shader) id;;
  gets (fun s => match gl_shaders (gl s) !! shader with
                 | Some o => shader_info_log driver (sh_type o) (sh_source o)
                 | None => EmptyString end).

Definition gl_deleteShader (shader : N) : M state unit :=
  gl_do (DeleteShader shader) (gl_with_shaders (delete shader)).

Definition gl_createProgram : M state N :=
  prog <- gets (fun s => gl_next (gl s));;
  gl_do CreateProgram
    (fun g => gl_with_programs
       (insert prog {| pr_attached := []; pr_status := false |}) (gl_fresh g));;
  ret prog.

Definition gl_attachShader (prog shader : N) : M state unit :=
  gl_do (AttachShader prog shader)
    (gl_with_programs (fun t => match t !! prog with
       | Some o => <[prog := {| pr_attached := pr_attached o ++ [shader];
                                pr_status := pr_status o |}]> t
       | None => t end)).

Definition attached_shaders (shaders : gmap N shader_obj) (o : program_obj)
    : list shader_obj :=
  omap (fun h => shaders !! h) (pr_attached o).

Definition gl_linkProgram (prog : N) : M state unit :=
  gl_do (LinkProgram prog)
    (fun g => gl_with_programs (fun t => match t !! prog with
       | Some o => <[prog := {| pr_attached := pr_attached o;
                                pr_status := link_status driver (attached_shaders (gl_shaders g) o) |}]> t
       | None => t end) g).

(** [getProgramParameter(program, LINK_STATUS)] *)
Definition gl_getProgramParameter (prog : N) (pname : Z) : M state bool :=
  gl_do (GetProgramParameter prog pname) id;;
  gets (fun s => match gl_programs (gl s) !! prog with
                 | Some o => pr_status o
                 | None => false end).

Definition gl_getProgramInfoLog (prog : N) : M state string :=
  gl_do (GetProgramInfoLog prog) id;;
  gets (fun s => match gl_programs (gl s) !! prog with
                 | Some o => program_info_log driver (attached_shaders (gl_shaders (gl s)) o)
                 | None => EmptyString end).

Definition gl_deleteProgram (prog : N) : M state unit :=
  gl_do (DeleteProgram prog) (gl_with_programs (delete prog)).

Definition gl_createBuffer : M state N :=
  buffer <- gets (fun s => gl_next (gl s));;
  gl_do CreateBuffer (fun g => gl_with_buffers (union {[ buffer ]}) (gl_fresh g));;
  ret buffer.

(** [getAttribLocation]: the location, or -1 when there is none. *)
Definition attrib_index (prog : N) (key : string) : Z :=
  match attrib_location driver prog key with
  | Some n => Z.of_N n
  | None => -1
  end.

Definition gl_getAttribLocation (prog : N) (key : string) : M state Z :=
  gl_do (GetAttribLocation prog key) id;;
  ret (attrib_index prog key).

(** [getUniformLocation]: the location, or [null]. *)
Definition gl_getUniformLocation (prog : N) (key : string) : M state (option N) :=
  gl_do (GetUniformLocation prog key) id;;
  ret (uniform_location driver prog key).

Definition gl_viewport_ (x y w h : Z) : M state unit :=
  gl_do (Viewport x y w h) (gl_with_viewport (x, y, w, h)).

(** A call that changes nothing the renderer reads back. *)
Definition gl_issue (c : gl_call) : M state unit := gl_do c id.

Definition c2d (c : c2d_call) : M state unit :=
  modify (with_canvas_2d (fun l => (l ++ [c])%list)).

Definition dom (c : dom_call) : M state unit :=
  modify (with_dom_log (fun l => (l ++ [c])%list)).

Definition game_client (s : state) : Z * Z :=
  canvas_client browser "game" (body_client s) (game_width s, game_height s).

Definition text_client (s : state) : Z * Z :=
  canvas_client browser "text" (body_client s) (text_width s, text_height s).

(** *** The helper functions of render.ts *)

Definition compile (type : Z) (source : string) : M state N :=
  shader <- gl_createShader type;;
  gl_shaderSource shader source;;
  gl_compileShader shader;;
  status <- gl_getShaderParameter shader GL.COMPILE_STATUS;;
  if negb status then
    info <- gl_getShaderInfoLog shader;;
    gl_deleteShader shader;;
    throw ("Failed to compile shader: " +:+ info)
  else
    ret shader.

Definition link (shaders : list N) : M state N :=
  prog <- gl_createProgram;;
  forEach (fun shader => gl_attachShader prog shader) shaders;;
  gl_linkProgram prog;;
  status <- gl_getProgramParameter prog GL.LINK_STATUS;;
  if negb status then
    info <- gl_getProgramInfoLog prog;;
    gl_deleteProgram prog;;
    throw ("Failed to link program: " +:+ info)
  else
    ret prog.

(** [!~location] is true exactly when the 32-bit complement of
    [location] is zero. *)
Definition attribute (prog : N) (key : string) (value : list float) (size : Z)
    : M state unit :=
  buffer <- gl_createBuffer;;
  location <- gl_getAttribLocation prog key;;
  if Z.lnot location =? 0 then
    throw ("Failed to get attribute location " +:+ dquote +:+ key +:+ dquote)
  else
    gl_issue (BindBuffer GL.ARRAY_BUFFER buffer);;
    gl_issue (BufferData GL.ARRAY_BUFFER (new_Float32Array value) GL.STATIC_DRAW);;
    gl_issue (EnableVertexAttribArray location);;
    gl_issue (VertexAttribPointer location size GL.FLOAT false 0 0).

Definition uniform (prog : N) (key : string) (value : uniform_value) : M state unit :=
  location <- gl_getUniformLocation prog key;;
  match location with
  | None => throw ("Failed to get uniform location " +:+ dquote +:+ key +:+ dquote)
  | Some location =>
      match value with
      | Arr value =>
          match length value with
          | 2%nat => gl_issue (Uniform2fv location (new_Float32Array value))
          | 4%nat => gl_issue (Uniform4fv location (new_Float32Array value))
          | _ => gl_issue (UniformMatrix3fv location false (new_Float32Array value))
          end
      | Num value => gl_issue (Uniform1f location value)
      end
  end.

(** *** The methods of [Render] *)

Definition resize : M state unit :=
  bw <- gets (fun s => fst (body_client s));;
  modify (fun s => with_canvas_size (game_width s) (game_height s) bw (text_height s) s);;
  modify (fun s => with_canvas_size bw (game_height s) (text_width s) (text_height s) s);;
  bh <- gets (fun s => snd (body_client s));;
  modify (fun s => with_canvas_size (game_width s) (game_height s) (text_width s) bh s);;
  modify (fun s => with_canvas_size (game_width s) bh (text_width s) (text_height s) s);;
  cw <- gets (fun s => fst (game_client s));;
  ch <- gets (fun s => snd (game_client s));;
  gl_viewport_ 0 0 cw ch;;
  cw <- gets (fun s => fst (game_client s));;
  ch <- gets (fun s => snd (game_client s));;
  modify (with_aspect_ratio (number_of_int cw / number_of_int ch)).

Definition fullscreen : M state unit :=
  dom WebkitRequestFullScreen.

(** [wireframe.shape.length / 2] reaches [drawArrays] as a GLsizei, the
    integer part of the quotient. *)
Definition draw (wireframe : Wireframe) (position : list float)
    (rotation size : float) : M state unit :=
  prog <- gets program;;
  attribute prog "a_vertex" (shape wireframe) 2;;
  uniform prog "u_color" (Arr (color wireframe));;
  uniform prog "u_position" (Arr position);;
  uniform prog "u_rotation" (Num rotation);;
  uniform prog "u_size" (Num size);;
  ar <- gets aspect_ratio;;
  uniform prog "u_aspect_ratio" (Num ar);;
  gl_issue (DrawArrays GL.LINE_STRIP 0 (Z.of_nat (length (shape wireframe)) / 2)).

Definition _text (x y : float) (text : string) (color font : option string)
    : M state unit :=
  w <- gets (fun s => (number_of_int (fst (text_client s)) / 2)%float);;
  h <- gets (fun s => (number_of_int (snd (text_client s)) / 2)%float);;
  c2d Save;;
  let font := or_default font "normal 16px Helvetica" in
  c2d (SetFont font);;
  c2d (MeasureText text);;
  let m_width := measure_width browser font text in
  c2d (SetFillStyle (or_default color "#0f0"));;
  c2d (Translate (w - (m_width / 2)) h);;
  ar <- gets aspect_ratio;;
  c2d (FillText text (x * w / ar) (y * - h));;
  c2d Restore.

Definition line (x y rotation : float) (color : list float) : M state unit :=
  let position := [x; y] in
  ar <- gets aspect_ratio;;
  let c := (Math_cos rotation * ar)%float in
  let s := Math_sin rotation in
  let wireframe :=
    {| bounds := 0; color := (color ++ color)%list;
       shape := [(- c)%float; (- s)%float; c; s] |} in
  let size := 1%float in
  draw wireframe position rotation size.

(** The loop of [polygon]: it only updates the local [wireframe]. *)
Fixpoint polygon_loop (fuel : nat) (radius sides : float) (color0 : list float)
    (r : float) (wireframe : Wireframe) : option Wireframe :=
  match fuel with
  | O => None
  | S fuel' =>
      if (r <=? Math_PI * 2)%float then
        let shape1 := (shape wireframe ++ [(Math_cos r * radius)%float])%list in
        let shape2 := (shape1 ++ [(Math_sin r * radius)%float])%list in
        polygon_loop fuel' radius sides color0 (r + Math_PI * 2 / sides)%float
          {| bounds := bounds wireframe;
             color := (color wireframe ++ color0)%list;
             shape := shape2 |}
      else Some wireframe
  end.

Definition polygon (fuel : nat) (radius sides : float) (position : list float)
    (rotation : float) (color : list float) : M state unit :=
  match polygon_loop fuel radius sides color 0
          {| bounds := 0; color := []; shape := [] |} with
  | None => fun s => (OutOfFuel, s)
  | Some wireframe =>
      let size := 1%float in
      draw wireframe position rotation size
  end.

Definition _grid (fuel : nat) : M state unit :=
  for_number fuel (fun y _ => y <? 1)%float (fun y => y + 0.1)%float
    (fun y => line 0 y Math_PI [0.25; 0.25; 0.25; 1]%float) (-1)%float;;
  ar <- gets aspect_ratio;;
  for_number fuel (fun x s => x <? aspect_ratio s)%float (fun x => x + 0.1)%float
    (fun x => line x 0 (Math_PI / 2)%float [0.25; 0.25; 0.25; 1]%float)
    (- ar)%float.

(** [Date.now()] is the argument [now]. *)
Definition clear (fuel : nat) (now : Z) : M state unit :=
  last <- gets fps_last;;
  (if now - last <? 1000 then
     modify (fun s => with_fps (fps_count s + 1) (fps_rate s) (fps_last s) s)
   else
     modify (fun s => with_fps (fps_count s) (fps_count s / 1) (fps_last s) s);;
     modify (fun s => with_fps 0 (fps_rate s) (fps_last s) s);;
     modify (fun s => with_fps (fps_count s) (fps_rate s) now s));;
  gl_issue (Clear GL.COLOR_BUFFER_BIT);;
  cw <- gets (fun s => number_of_int (fst (text_client s)));;
  ch <- gets (fun s => number_of_int (snd (text_client s)));;
  c2d (ClearRect 0 0 cw ch);;
  d <- gets debug;;
  if d : bool then
    _grid fuel;;
    rate <- gets fps_rate;;
    _text 0 0.9 (pretty rate +:+ " FPS") (Some "#fff") None
  else ret tt.

(** [v.toFixed(digits)] on an array entry [v]: reading [toFixed] of
    [undefined] throws a [TypeError]. *)
Definition toFixed (v : option float) (digits : Z) : M state string :=
  match v with
  | Some x => ret (Number_toFixed browser x digits)
  | None => throw (TypeError_undefined browser "toFixed")
  end.

(** The arguments of each [_text] call are evaluated before the call, from
    left to right: the two coordinates, then the template literal with its
    [toFixed] calls in order. *)
Definition drawBody (fuel : nat) (body : Body) : M state unit :=
  draw (wireframe body) (position body) (rotation body) (size body);;
  d <- gets debug;;
  if d : bool then
    polygon fuel (bounds (wireframe body)) 8 (position body) (rotation body)
      [0; 1; 0; 1]%float;;
    let px := index (position body) 0 in
    let py := index (position body) 1 in
    let vx := index (velocity body) 0 in
    let vy := index (velocity body) 1 in
    _text (to_number px + 0.1) (to_number py - 0.1)
      ("b " +:+ Number_toString browser (bounds (wireframe body))) None None;;
    px3 <- toFixed px 3;;
    py3 <- toFixed py 3;;
    _text (to_number px + 0.1) (to_number py - 0.2)
      ("p { x: " +:+ px3 +:+ ", y: " +:+ py3 +:+ " }") None None;;
    vx3 <- toFixed vx 3;;
    vy3 <- toFixed vy 3;;
    _text (to_number px + 0.1) (to_number py - 0.3)
      ("v { x: " +:+ vx3 +:+ ", y: " +:+ vy3 +:+ " }") None None;;
    _text (to_number px + 0.1) (to_number py - 0.4)
      ("r " +:+ Number_toFixed browser (rotation body) 3) None None
  else ret tt.

(** [new Render(vertex, fragment)], run on the page as loaded. *)
Definition constructor (vertex fragment : string) (now : Z) : M state unit :=
  modify (with_debug false);;
  modify (with_fps 0 0 now);;
  if negb (webgl_supported browser) || negb (context_2d_supported browser) then
    throw "Unsupported browser"
  else
    vs <- compile GL.VERTEX_SHADER vertex;;
    fs <- compile GL.FRAGMENT_SHADER fragment;;
    let shaders := [vs; fs] in
    prog <- link shaders;;
    modify (with_program prog);;
    gl_issue (UseProgram prog);;
    gl_issue (ClearColor 0 0 0 1);;
    resize;;
    dom (AddEventListener "#game" "webkitfullscreenchange");;
    dom (AddEventListener "window" "resize").

End Renderer.

(** The page before the renderer is constructed: fresh contexts, canvases
    at their default 300x150. *)
Definition page (body : Z * Z) : state :=
  {| gl := gl_empty; canvas_2d := []; body_client := body;
     game_width := 300; game_height := 150;
     text_width := 300; text_height := 150; dom_log := [];
     fps_count := 0; fps_rate := 0; fps_last := 0;
     debug := false; program := 0%N; aspect_ratio := nan |}.

(** ** A recording stub of the environment

    A driver in which every source but the empty one compiles and the
    names of the renderer's shader pair have locations; a browser in which
    the canvases fill the body; and [Math.cos]/[Math.sin] tabulated at the
    multiples of pi/2 that the examples use (the values V8 returns), NaN
    elsewhere. *)
Module Stub.

Definition attribs : list (string * N) := [("a_vertex", 0%N)].

Definition uniforms : list (string * N) :=
  [("u_color", 0%N); ("u_position", 1%N); ("u_rotation", 2%N);
   ("u_size", 3%N); ("u_aspect_ratio", 4%N)].

Definition assoc (table : list (string * N)) (key : string) : option N :=
  snd <$> List.find (fun kv => String.eqb (fst kv) key) table.

Definition driver : Driver :=
  {| compile_status := fun _ source =>
       match source with EmptyString => false | _ => true end;
     shader_info_log := fun _ _ => "ERROR: 0:1: syntax error";
     link_status := fun shaders =>
       forallb sh_status shaders && (length shaders =? 2)%nat;
     program_info_log := fun _ => "missing shader";
     attrib_location := fun _ key => assoc attribs key;
     uniform_location := fun _ key => assoc uniforms key |}.

(** The same driver for a shader pair that does not declare [missing]. *)
Definition driver_without (missing : string) : Driver :=
  {| compile_status := compile_status driver;
     shader_info_log := shader_info_log driver;
     link_status := link_status driver;
     program_info_log := program_info_log driver;
     attrib_location := fun p key =>
       if String.eqb key missing then None else attrib_location driver p key;
     uniform_location := fun p key =>
       if String.eqb key missing then None else uniform_location driver p key |}.

Definition browser : Browser :=
  {| webgl_supported := true;
     context_2d_supported := true;
     canvas_client := fun _ body _ => body;
     measure_width := fun _ text => number_of_int (8 * Z.of_nat (String.length text));
     Number_toString := fun _ => "0";
     Number_toFixed := fun _ _ => "0.000";
     TypeError_undefined := fun name =>
       "Cannot read properties of undefined (reading '" +:+ name +:+ "')" |}.

Definition half_pi : float := (Math_PI / 2)%float.

Definition Math_cos (x : float) : float :=
  if (x =? 0)%float then 1%float
  else if (x =? half_pi)%float then 0x1.1a62633145c07p-54%float
  else if (x =? Math_PI)%float then (-1)%float
  else if (x =? half_pi * 3)%float then (-0x1.a79394c9e8a0ap-53)%float
  else if (x =? Math_PI * 2)%float then 1%float
  else nan.

Definition Math_sin (x : float) : float :=
  if (x =? 0)%float then x
  else if (x =? half_pi)%float then 1%float
  else if (x =? Math_PI)%float then 0x1.1a62633145c07p-53%float
  else if (x =? half_pi * 3)%float then (-1)%float
  else if (x =? Math_PI * 2)%float then (-0x1.1a62633145c07p-52)%float
  else nan.

(** The page after [new Render("void main(){}", "void main(){}")] at
    time 0 in an 800x600 body. *)
Definition ready : state :=
  snd (constructor driver browser "void main(){}" "void main(){}" 0 (page (800, 600))).

End Stub.

(** The state after the calls [calls] were issued, in order, and nothing
    else changed. *)
Definition logged (calls : list gl_call) (s : state) : state :=
  with_gl (fun g => fold_left (fun g c => gl_record c g) calls g) s.

(** The call [uniform] issues for a value, read off its [switch]. *)
Definition uniform_call (location : N) (value : uniform_value) : gl_call :=
  match value with
  | Num x => Uniform1f location x
  | Arr xs =>
      match length xs with
      | 2%nat => Uniform2fv location (new_Float32Array xs)
      | 4%nat => Uniform4fv location (new_Float32Array xs)
      | _ => UniformMatrix3fv location false (new_Float32Array xs)
      end
  end.

Definition is_DrawArrays (c : gl_call) : bool :=
  match c with DrawArrays _ _ _ => true | _ => false end.

Lemma uniform_call_not_draw location value :
  is_DrawArrays (uniform_call location value) = false.
Proof.
  destruct value as [x|xs]; [reflexivity|].
  unfold uniform_call. destruct xs as [|a [|b [|c [|d [|e xs]]]]]; reflexivity.
Qed.

(** ** Facts about binary64 arithmetic *)

Section Binary64.

Lemma digits2_pos_shift52 (m : positive) :
  Zpos (digits2_pos (Pos.iter xO m 52)) = Zpos (digits2_pos m) + 52.
Proof. cbn [Pos.iter digits2_pos]. lia. Qed.

(** Rounding [m * 2^52 * 2^(e-52)] gives back the canonical [m * 2^e]. *)
Lemma round_shifted52 (s : bool) (m : positive) (e : Z) :
  valid_binary (S754_finite s m e) = true ->
  binary_round_aux prec emax s (Zpos (Pos.iter xO m 52)) (e - 52) loc_Exact
  = S754_finite s m e.
Proof.
  intros V. cbn in V. unfold bounded, canonical_mantissa in V.
  apply andb_true_iff in V as [C B]. apply Z.eqb_eq in C.
  unfold binary_round_aux, shr_fexp.
  match goal with |- context [shr ?r ?x ?n] => replace n with 52 end.
  2:{ cbn [Zdigits2]. symmetry.
      match goal with |- ?a - ?b = _ => replace a with e; [lia|] end.
      rewrite <- C at 1. f_equal. rewrite digits2_pos_shift52. lia. }
  cbn [shr shr_record_of_loc SpecFloat.iter_pos Pos.iter shr_1 orb shr_m
       loc_of_shr_record round_nearest_even].
  match goal with |- context [shr ?r ?x ?n] =>
    replace n with 0; [replace x with e by lia|]
  end.
  2:{ cbn [Zdigits2]. symmetry.
      match goal with |- ?a - ?b = _ => replace a with e; [lia|] end.
      rewrite <- C at 1. f_equal. lia. }
  cbn [shr shr_m shr_record_of_loc].
  change (e <=? emax - prec) with (IntDef.Z.leb e (IntDef.Z.sub emax prec)).
  rewrite B. reflexivity.
Qed.

Lemma Prim2SF_one : Prim2SF 1 = S754_finite false 4503599627370496 (-52).
Proof. reflexivity. Qed.

Lemma mul_1_l (x : float) : (1 * x)%float = x.
Proof.
  apply Prim2SF_inj. rewrite mul_spec, Prim2SF_one.
  pose proof (Prim2SF_valid x) as V.
  destruct (Prim2SF x) as [s|s| |s m e]; try reflexivity.
  unfold SF64mul, SFmul. cbn [xorb].
  change (Pos.mul 4503599627370496 m) with (Pos.iter xO m 52).
  replace (IntDef.Z.add (-52) e) with (e - 52) by lia.
  now apply round_shifted52.
Qed.

Lemma mul_1_r (x : float) : (x * 1)%float = x.
Proof.
  apply Prim2SF_inj. rewrite mul_spec, Prim2SF_one.
  pose proof (Prim2SF_valid x) as V.
  destruct (Prim2SF x) as [s|s| |s m e];
    try reflexivity; try (destruct s; reflexivity).
  unfold SF64mul, SFmul.
  replace (xorb s false) with s by (destruct s; reflexivity).
  replace (Pos.mul m 4503599627370496) with (Pos.iter xO m 52)
    by (rewrite Pos.mul_comm; reflexivity).
  replace (IntDef.Z.add e (-52)) with (e - 52) by lia.
  now apply round_shifted52.
Qed.

End Binary64.

(** ** Running methods symbolically *)

Lemma gl_log_logged (calls : list gl_call) (s : state) :
  gl_log (gl (logged calls s)) = (gl_log (gl s) ++ calls)%list.
Proof.
  unfold logged. cbn [gl with_gl]. generalize (gl s) as g.
  induction calls as [|c calls IH]; intros g; cbn [fold_left].
  - now rewrite app_nil_r.
  - rewrite IH. cbn [gl_log gl_record]. now rewrite <- app_assoc.
Qed.

Lemma logged_logged (l1 l2 : list gl_call) (s : state) :
  logged l2 (logged l1 s) = logged (l1 ++ l2) s.
Proof.
  unfold logged, with_gl. cbn [gl canvas_2d body_client game_width game_height
    text_width text_height dom_log fps_count fps_rate fps_last debug program
    aspect_ratio].
  now rewrite fold_left_app.
Qed.

Lemma gl_issue_logged (c : gl_call) (s : state) :
  gl_issue c s = (Ok tt, logged [c] s).
Proof. reflexivity. Qed.

Lemma aspect_ratio_logged l s : aspect_ratio (logged l s) = aspect_ratio s.
Proof. reflexivity. Qed.

Lemma bind_Ok {S A B} (m : M S A) (k : A -> M S B) (s s' : S) (a : A) :
  m s = (Ok a, s') -> bind m k s = k a s'.
Proof. intros E. unfold bind. now rewrite E. Qed.

Lemma bind_Throw {S A B} (m : M S A) (k : A -> M S B) (s s' : S) (e : string) :
  m s = (Throw e, s') -> bind m k s = (Throw e, s').
Proof. intros E. unfold bind. now rewrite E. Qed.

(** Unfold the monad and the context methods, and reduce the redexes. *)
Ltac run :=
  repeat (progress (
    unfold bind, ret, throw, gets, modify, gl_issue, gl_do, c2d, dom,
      gl_createShader, gl_shaderSource, gl_compileShader, gl_getShaderParameter,
      gl_getShaderInfoLog, gl_deleteShader, gl_createProgram, gl_attachShader,
      gl_linkProgram, gl_getProgramParameter, gl_getProgramInfoLog,
      gl_deleteProgram, gl_createBuffer, gl_getAttribLocation,
      gl_getUniformLocation, gl_viewport_;
    cbv beta iota)).

Definition attribute_message (key : string) : string :=
  "Failed to get attribute location " +:+ dquote +:+ key +:+ dquote.

Definition uniform_message (key : string) : string :=
  "Failed to get uniform location " +:+ dquote +:+ key +:+ dquote.

(** The state in which one more buffer has been allocated. *)
Definition new_buffer (s : state) : state :=
  with_gl (fun g => gl_with_buffers (union {[ gl_next g ]}) (gl_fresh g)) s.

Section Helpers.

Variable driver : Driver.

Lemma uniform_ok prog key location value s :
  uniform_location driver prog key = Some location ->
  uniform driver prog key value s
  = (Ok tt, logged [GetUniformLocation prog key; uniform_call location value] s).
Proof.
  intros E. unfold uniform. run. rewrite E. destruct value as [x|xs]; [reflexivity|].
  unfold uniform_call.
  destruct xs as [|a [|b [|c [|d [|e xs]]]]]; reflexivity.
Qed.

Lemma uniform_missing prog key value s :
  uniform_location driver prog key = None ->
  uniform driver prog key value s
  = (Throw (uniform_message key), logged [GetUniformLocation prog key] s).
Proof.
  intros E. unfold uniform. run. now rewrite E.
Qed.

(** The complement of a 32-bit location is zero for -1 only. *)
Lemma lnot_zero (location : Z) : (Z.lnot location =? 0) = (location =? -1).
Proof.
  unfold Z.lnot.
  destruct (Z.eqb_spec location (-1)), (Z.eqb_spec (Z.pred (- location)) 0); lia.
Qed.

Lemma attrib_index_range prog key : -1 <= attrib_index driver prog key.
Proof. unfold attrib_index. destruct attrib_location; lia. Qed.

Lemma attribute_ok prog key value size s :
  0 <= attrib_index driver prog key ->
  attribute driver prog key value size s
  = (Ok tt,
     logged [CreateBuffer; GetAttribLocation prog key;
             BindBuffer GL.ARRAY_BUFFER (gl_next (gl s));
             BufferData GL.ARRAY_BUFFER (new_Float32Array value) GL.STATIC_DRAW;
             EnableVertexAttribArray (attrib_index driver prog key);
             VertexAttribPointer (attrib_index driver prog key) size GL.FLOAT
               false 0 0]
       (new_buffer s)).
Proof.
  intros H. unfold attribute. run. rewrite lnot_zero.
  destruct (Z.eqb_spec (attrib_index driver prog key) (-1)); [lia|].
  reflexivity.
Qed.

Lemma attribute_missing prog key value size s :
  attrib_index driver prog key < 0 ->
  attribute driver prog key value size s
  = (Throw (attribute_message key),
     logged [CreateBuffer; GetAttribLocation prog key] (new_buffer s)).
Proof.
  intros H. pose proof (attrib_index_range prog key).
  unfold attribute. run. rewrite lnot_zero.
  destruct (Z.eqb_spec (attrib_index driver prog key) (-1)); [|lia].
  reflexivity.
Qed.

End Helpers.

(** The names [draw] looks up, in the order of its calls. *)
Definition uniform_names : list string :=
  ["u_color"; "u_position"; "u_rotation"; "u_size"; "u_aspect_ratio"].

Section Draw.

Variable driver : Driver.

(** The log of a [draw] whose lookups all succeed. *)
Definition draw_calls (w : Wireframe) (position : list float)
    (rotation size : float) (s : state) (a : Z) (l : list N) : list gl_call :=
  let prog := program s in
  [CreateBuffer; GetAttribLocation prog "a_vertex";
   BindBuffer GL.ARRAY_BUFFER (gl_next (gl s));
   BufferData GL.ARRAY_BUFFER (new_Float32Array (shape w)) GL.STATIC_DRAW;
   EnableVertexAttribArray a;
   VertexAttribPointer a 2 GL.FLOAT false 0 0;
   GetUniformLocation prog "u_color";
   uniform_call (nth 0 l 0%N) (Arr (color w));
   GetUniformLocation prog "u_position";
   uniform_call (nth 1 l 0%N) (Arr position);
   GetUniformLocation prog "u_rotation";
   Uniform1f (nth 2 l 0%N) rotation;
   GetUniformLocation prog "u_size";
   Uniform1f (nth 3 l 0%N) size;
   GetUniformLocation prog "u_aspect_ratio";
   Uniform1f (nth 4 l 0%N) (aspect_ratio s);
   DrawArrays GL.LINE_STRIP 0 (Z.of_nat (length (shape w)) / 2)].

Lemma draw_ok w position rotation size s l1 l2 l3 l4 l5 :
  0 <= attrib_index driver (program s) "a_vertex" ->
  map (uniform_location driver (program s)) uniform_names
    = map Some [l1; l2; l3; l4; l5] ->
  draw driver w position rotation size s
  = (Ok tt,
     logged (draw_calls w position rotation size s
               (attrib_index driver (program s) "a_vertex") [l1; l2; l3; l4; l5])
       (new_buffer s)).
Proof.
  intros Ha Hu. cbn [map uniform_names] in Hu.
  injection Hu as E1 E2 E3 E4 E5.
  unfold draw.
  rewrite (bind_Ok _ _ s s (program s)) by reflexivity.
  erewrite bind_Ok by (apply attribute_ok; exact Ha).
  erewrite bind_Ok by (apply uniform_ok; exact E1).
  erewrite bind_Ok by (apply uniform_ok; exact E2).
  erewrite bind_Ok by (apply uniform_ok; exact E3).
  erewrite bind_Ok by (apply uniform_ok; exact E4).
  erewrite bind_Ok by reflexivity.
  erewrite bind_Ok by (apply uniform_ok; exact E5).
  rewrite gl_issue_logged, !logged_logged, !aspect_ratio_logged.
  reflexivity.
Qed.

Lemma draw_without_attribute w position rotation size s :
  attrib_index driver (program s) "a_vertex" < 0 ->
  draw driver w position rotation size s
  = (Throw (attribute_message "a_vertex"),
     logged [CreateBuffer; GetAttribLocation (program s) "a_vertex"] (new_buffer s)).
Proof.
  intros Ha. unfold draw.
  rewrite (bind_Ok _ _ s s (program s)) by reflexivity.
  erewrite bind_Throw by (apply attribute_missing; exact Ha).
  reflexivity.
Qed.

Definition missing_uniform (prog : N) (key : string) : bool :=
  match uniform_location driver prog key with
  | None => true
  | Some _ => false
  end.

Lemma draw_without_uniform w position rotation size s key :
  0 <= attrib_index driver (program s) "a_vertex" ->
  List.find (missing_uniform (program s)) uniform_names = Some key ->
  exists calls,
    draw driver w position rotation size s
    = (Throw (uniform_message key), logged calls (new_buffer s))
    /\ forallb (fun c => negb (is_DrawArrays c)) calls = true.
Proof.
  intros Ha Hk. unfold draw.
  rewrite (bind_Ok _ _ s s (program s)) by reflexivity.
  erewrite bind_Ok by (apply attribute_ok; exact Ha).
  unfold uniform_names, missing_uniform in Hk. cbn [List.find] in Hk.
  repeat lazymatch type of Hk with
  | (if match uniform_location driver (program s) ?k with
         | Some _ => false | None => true end then _ else _) = _ =>
      let E := fresh "E" in
      destruct (uniform_location driver (program s) k) eqn:E;
      cbv beta iota in Hk;
      [ erewrite bind_Ok by (apply uniform_ok; exact E);
        try (erewrite bind_Ok by reflexivity)
      | injection Hk as <-;
        erewrite bind_Throw by (apply uniform_missing; exact E);
        rewrite !logged_logged; eexists; split; [reflexivity|];
        cbn [app forallb]; rewrite ?uniform_call_not_draw; reflexivity ]
  end.
  discriminate Hk.
Qed.

End Draw.

Section Shaders.

Variable driver : Driver.

Definition compile_calls (type : Z) (source : string) (shader : N) : list gl_call :=
  [CreateShader type; ShaderSource shader source; CompileShader shader;
   GetShaderParameter shader GL.COMPILE_STATUS].

Lemma compile_failure type source s :
  compile_status driver type source = false ->
  let shader := gl_next (gl s) in
  exists s',
    compile driver type source s
    = (Throw ("Failed to compile shader: " +:+ shader_info_log driver type source), s')
    /\ gl_shaders (gl s') !! shader = None
    /\ gl_log (gl s')
       = (gl_log (gl s) ++ compile_calls type source shader
            ++ [GetShaderInfoLog shader; DeleteShader shader])%list.
Proof.
  intros E shader. unfold compile. run.
  cbn [gl with_gl gl_shaders gl_with_shaders gl_fresh gl_record gl_next id].
  repeat (rewrite lookup_insert_eq; cbn [sh_type sh_source sh_status]).
  rewrite E. cbn [negb].
  cbn [gl with_gl gl_shaders gl_with_shaders gl_fresh gl_record gl_next id].
  repeat (rewrite lookup_insert_eq; cbn [sh_type sh_source sh_status]).
  eexists. split; [reflexivity|].
  cbn [gl with_gl gl_shaders gl_with_shaders gl_fresh gl_record gl_next id gl_log].
  split.
  - apply lookup_delete_eq.
  - unfold compile_calls. rewrite <- !app_assoc. reflexivity.
Qed.

Lemma compile_success type source s :
  compile_status driver type source = true ->
  let shader := gl_next (gl s) in
  exists s',
    compile driver type source s = (Ok shader, s')
    /\ gl_shaders (gl s') !! shader
       = Some {| sh_type := type; sh_source := source; sh_status := true |}
    /\ gl_log (gl s') = (gl_log (gl s) ++ compile_calls type source shader)%list.
Proof.
  intros E shader. unfold compile. run.
  cbn [gl with_gl gl_shaders gl_with_shaders gl_fresh gl_record gl_next id].
  repeat (rewrite lookup_insert_eq; cbn [sh_type sh_source sh_status]).
  rewrite E. cbn [negb].
  eexists. split; [reflexivity|].
  cbn [gl with_gl gl_shaders gl_with_shaders gl_fresh gl_record gl_next id gl_log].
  repeat (rewrite lookup_insert_eq; cbn [sh_type sh_source sh_status]).
  rewrite E. split; [reflexivity|].
  unfold compile_calls. rewrite <- !app_assoc. reflexivity.
Qed.

(** The [forEach] of [link] attaches the shaders in order and touches
    nothing else. *)
Lemma attach_all prog shaders : forall s o,
  gl_programs (gl s) !! prog = Some o ->
  exists s',
    forEach (fun shader => gl_attachShader prog shader) shaders s = (Ok tt, s')
    /\ gl_programs (gl s') !! prog
       = Some {| pr_attached := (pr_attached o ++ shaders)%list;
                 pr_status := pr_status o |}
    /\ gl_shaders (gl s') = gl_shaders (gl s)
    /\ gl_log (gl s') = (gl_log (gl s) ++ map (AttachShader prog) shaders)%list.
Proof.
  induction shaders as [|shader shaders IH]; intros s o Ho.
  - exists s. cbn [forEach map]. rewrite !app_nil_r.
    destruct o; repeat split; assumption.
  - cbn [forEach].
    set (s1 := snd (gl_attachShader prog shader s)).
    destruct (IH s1 {| pr_attached := (pr_attached o ++ [shader])%list;
                       pr_status := pr_status o |}) as (s' & E & Hp & Hs & Hl).
    { subst s1. unfold gl_attachShader. run.
      cbn [snd gl with_gl gl_programs gl_with_programs gl_record id].
      rewrite Ho. apply lookup_insert_eq. }
    exists s'. split.
    { erewrite bind_Ok; [exact E|]. reflexivity. }
    cbn [pr_attached pr_status] in Hp. rewrite <- app_assoc in Hp.
    repeat split; [exact Hp | rewrite Hs; reflexivity |].
    rewrite Hl. cbn [map]. subst s1.
    cbn. rewrite <- app_assoc. reflexivity.
Qed.

Definition link_calls (prog : N) (shaders : list N) : list gl_call :=
  (CreateProgram :: map (AttachShader prog) shaders
     ++ [LinkProgram prog; GetProgramParameter prog GL.LINK_STATUS])%list.

Lemma link_failure shaders s :
  let attached := omap (fun h => gl_shaders (gl s) !! h) shaders in
  let prog := gl_next (gl s) in
  link_status driver attached = false ->
  exists s',
    link driver shaders s
    = (Throw ("Failed to link program: " +:+ program_info_log driver attached), s')
    /\ gl_programs (gl s') !! prog = None
    /\ gl_log (gl s')
       = (gl_log (gl s) ++ link_calls prog shaders
            ++ [GetProgramInfoLog prog; DeleteProgram prog])%list.
Proof.
  intros attached prog E. unfold link.
  erewrite bind_Ok by reflexivity. fold prog.
  match goal with |- context [bind _ _ ?s1] => set (s1' := s1) end.
  destruct (attach_all prog shaders s1' {| pr_attached := []; pr_status := false |})
    as (s2 & E2 & Hp & Hs & Hl).
  { subst s1'. run. cbn. apply lookup_insert_eq. }
  erewrite bind_Ok by exact E2.
  cbn [pr_attached pr_status app] in Hp.
  assert (Hatt : forall b, attached_shaders (gl_shaders (gl s2))
                   {| pr_attached := shaders; pr_status := b |} = attached).
  { intros b. unfold attached_shaders. cbn [pr_attached]. rewrite Hs. reflexivity. }
  unfold gl_linkProgram, gl_getProgramParameter, gl_getProgramInfoLog,
    gl_deleteProgram. run.
  cbn [gl with_gl gl_programs gl_shaders gl_with_programs gl_record id].
  rewrite Hp. rewrite Hatt.
  repeat (rewrite lookup_insert_eq; cbn [pr_attached pr_status]).
  rewrite E. cbn [negb].
  cbn [gl with_gl gl_programs gl_shaders gl_with_programs gl_record id].
  rewrite Hp.
  repeat (rewrite lookup_insert_eq; cbn [pr_attached pr_status]).
  rewrite ?Hatt.
  eexists. split; [reflexivity|].
  cbn [gl with_gl gl_programs gl_with_programs gl_record gl_log].
  split; [apply lookup_delete_eq|].
  rewrite Hl. subst s1'. unfold link_calls. cbn. rewrite <- !app_assoc.
  reflexivity.
Qed.

End Shaders.

(** The vertices of a shape: its numbers taken two by two. *)
Fixpoint vertices (shape : list float) : list (float * float) :=
  match shape with
  | x :: y :: rest => (x, y) :: vertices rest
  | _ => []
  end.

(** ** [uniform], [attribute], [compile], [link] *)

(** C1. Once the lookup of [key] has given [location], [uniform] issues
    exactly one upload call after the lookup, chosen by the shape of the
    value alone: a number goes to [uniform1f], an array of two numbers to
    [uniform2fv], an array of four to [uniform4fv], and an array of any
    other length to [uniformMatrix3fv] with [transpose = false]. *)
Theorem uniform_dispatch (driver : Driver) (prog : N) (key : string)
    (location : N) (s : state) :
  uniform_location driver prog key = Some location ->
  let issues value call :=
    uniform driver prog key value s
    = (Ok tt, logged [GetUniformLocation prog key; call] s) in
  (forall x, issues (Num x) (Uniform1f location x))
  /\ (forall a b,
        issues (Arr [a; b]) (Uniform2fv location (new_Float32Array [a; b])))
  /\ (forall a b c d,
        issues (Arr [a; b; c; d])
          (Uniform4fv location (new_Float32Array [a; b; c; d])))
  /\ (forall xs, length xs <> 2%nat -> length xs <> 4%nat ->
        issues (Arr xs) (UniformMatrix3fv location false (new_Float32Array xs))).
Proof.
  intros E issues. subst issues. cbv beta.
  repeat split; intros.
  - now rewrite (uniform_ok _ _ _ _ _ _ E).
  - now rewrite (uniform_ok _ _ _ _ _ _ E).
  - now rewrite (uniform_ok _ _ _ _ _ _ E).
  - rewrite (uniform_ok _ _ _ _ _ _ E). unfold uniform_call.
    destruct xs as [|a [|b [|c [|d [|e xs]]]]]; cbn [length] in *;
      congruence.
Qed.

Lemma uniform_dispatch_witness :
  uniform_location Stub.driver 3 "u_position" = Some 1%N
  /\ uniform Stub.driver 3 "u_position" (Arr [0.5; 0.25]%float) Stub.ready
     = (Ok tt,
        logged [GetUniformLocation 3 "u_position";
                Uniform2fv 1 (new_Float32Array [0.5; 0.25]%float)] Stub.ready)
  /\ uniform Stub.driver 3 "u_position" (Arr (repeat 0%float 9)) Stub.ready
     = (Ok tt,
        logged [GetUniformLocation 3 "u_position";
                UniformMatrix3fv 1 false (new_Float32Array (repeat 0%float 9))]
          Stub.ready).
Proof.
  split; [reflexivity|].
  pose proof (uniform_dispatch Stub.driver 3 "u_position" 1 Stub.ready eq_refl)
    as (_ & H2 & _ & H9).
  split; [apply H2 | apply H9; cbn; lia].
Defined.

(** C6. When the compile status is false, [compile] throws an error whose
    message carries the driver's info log, and it has deleted the shader it
    created by then: [deleteShader] is the last call before the throw and
    the shader is no longer an object of the context.  [link] does the same
    with the program when the link status is false. *)
Theorem failed_handles_are_deleted (driver : Driver) :
  (forall type source s,
     compile_status driver type source = false ->
     let shader := gl_next (gl s) in
     exists s',
       compile driver type source s
       = (Throw ("Failed to compile shader: " +:+ shader_info_log driver type source), s')
       /\ gl_shaders (gl s') !! shader = None
       /\ gl_log (gl s')
          = (gl_log (gl s) ++ compile_calls type source shader
               ++ [GetShaderInfoLog shader; DeleteShader shader])%list)
  /\ (forall shaders s,
        let attached := omap (fun h => gl_shaders (gl s) !! h) shaders in
        let prog := gl_next (gl s) in
        link_status driver attached = false ->
        exists s',
          link driver shaders s
          = (Throw ("Failed to link program: " +:+ program_info_log driver attached), s')
          /\ gl_programs (gl s') !! prog = None
          /\ gl_log (gl s')
             = (gl_log (gl s) ++ link_calls prog shaders
                  ++ [GetProgramInfoLog prog; DeleteProgram prog])%list).
Proof.
  split.
  - intros type source s E. now apply compile_failure.
  - intros shaders s attached prog E. now apply link_failure.
Qed.

Lemma failed_handles_are_deleted_witness :
  (compile_status Stub.driver GL.VERTEX_SHADER EmptyString = false
   /\ exists s',
        compile Stub.driver GL.VERTEX_SHADER EmptyString (page (800, 600))
        = (Throw "Failed to compile shader: ERROR: 0:1: syntax error", s')
        /\ gl_shaders (gl s') !! 1%N = None
        /\ gl_log (gl s')
           = [CreateShader GL.VERTEX_SHADER; ShaderSource 1 EmptyString;
              CompileShader 1; GetShaderParameter 1 GL.COMPILE_STATUS;
              GetShaderInfoLog 1; DeleteShader 1])
  /\ (link_status Stub.driver [] = false
      /\ exists s',
           link Stub.driver [] (page (800, 600))
           = (Throw "Failed to link program: missing shader", s')
           /\ gl_programs (gl s') !! 1%N = None
           /\ gl_log (gl s')
              = [CreateProgram; LinkProgram 1;
                 GetProgramParameter 1 GL.LINK_STATUS;
                 GetProgramInfoLog 1; DeleteProgram 1]).
Proof.
  split; (split; [reflexivity|]).
  - exact (proj1 (failed_handles_are_deleted Stub.driver)
             GL.VERTEX_SHADER EmptyString (page (800, 600)) eq_refl).
  - exact (proj2 (failed_handles_are_deleted Stub.driver)
             [] (page (800, 600)) eq_refl).
Defined.

(** C4. [attribute] on a name whose location is negative throws the
    attribute lookup error having only created a buffer and asked for the
    location: no buffer is bound and no data uploaded.  A [draw] whose
    attribute name has no location throws that error, and a [draw] in which
    a uniform name has no location throws the lookup error of the first
    such name; in both cases no [drawArrays] is issued. *)
Theorem lookup_errors_precede_gpu_work (driver : Driver) :
  (forall prog key value size s,
     attrib_index driver prog key < 0 ->
     exists s',
       attribute driver prog key value size s = (Throw (attribute_message key), s')
       /\ gl_log (gl s')
          = (gl_log (gl s) ++ [CreateBuffer; GetAttribLocation prog key])%list)
  /\ (forall w position rotation size s,
        attrib_index driver (program s) "a_vertex" < 0 ->
        exists s' calls,
          draw driver w position rotation size s
          = (Throw (attribute_message "a_vertex"), s')
          /\ gl_log (gl s') = (gl_log (gl s) ++ calls)%list
          /\ forallb (fun c => negb (is_DrawArrays c)) calls = true)
  /\ (forall w position rotation size s key,
        0 <= attrib_index driver (program s) "a_vertex" ->
        List.find (missing_uniform driver (program s)) uniform_names = Some key ->
        exists s' calls,
          draw driver w position rotation size s
          = (Throw (uniform_message key), s')
          /\ gl_log (gl s') = (gl_log (gl s) ++ calls)%list
          /\ forallb (fun c => negb (is_DrawArrays c)) calls = true).
Proof.
  repeat split.
  - intros prog key value size s H. eexists. split.
    + now apply attribute_missing.
    + now rewrite gl_log_logged.
  - intros w position rotation size s H. do 2 eexists. split; [|split].
    + now apply draw_without_attribute.
    + now rewrite gl_log_logged.
    + reflexivity.
  - intros w position rotation size s key Ha Hk.
    destruct (draw_without_uniform driver w position rotation size s key Ha Hk)
      as (calls & E & Hc).
    exists (logged calls (new_buffer s)), calls. split; [exact E|].
    split; [now rewrite gl_log_logged | exact Hc].
Qed.

Lemma lookup_errors_precede_gpu_work_witness :
  (attrib_index (Stub.driver_without "a_vertex") 3 "a_vertex" < 0
   /\ exists s',
        attribute (Stub.driver_without "a_vertex") 3 "a_vertex" [0; 1]%float 2
          Stub.ready
        = (Throw (attribute_message "a_vertex"), s')
        /\ gl_log (gl s')
           = (gl_log (gl Stub.ready)
                ++ [CreateBuffer; GetAttribLocation 3 "a_vertex"])%list)
  /\ (0 <= attrib_index (Stub.driver_without "u_size") (program Stub.ready) "a_vertex"
      /\ List.find (missing_uniform (Stub.driver_without "u_size") (program Stub.ready))
           uniform_names = Some "u_size"
      /\ exists s' calls,
           draw (Stub.driver_without "u_size")
             {| bounds := 0; color := [1; 1; 1; 1]%float; shape := [0; 1]%float |}
             [0; 0]%float 0 1 Stub.ready
           = (Throw (uniform_message "u_size"), s')
           /\ gl_log (gl s') = (gl_log (gl Stub.ready) ++ calls)%list
           /\ forallb (fun c => negb (is_DrawArrays c)) calls = true).
Proof.
  split.
  - split; [vm_compute; reflexivity|].
    apply (proj1 (lookup_errors_precede_gpu_work (Stub.driver_without "a_vertex"))).
    vm_compute; reflexivity.
  - assert (Ha : 0 <= attrib_index (Stub.driver_without "u_size")
                        (program Stub.ready) "a_vertex")
      by (vm_compute; discriminate).
    assert (Hk : List.find (missing_uniform (Stub.driver_without "u_size")
                              (program Stub.ready)) uniform_names = Some "u_size")
      by (vm_compute; reflexivity).
    split; [exact Ha|]. split; [exact Hk|].
    exact (proj2 (proj2 (lookup_errors_precede_gpu_work (Stub.driver_without "u_size")))
             _ _ _ _ _ _ Ha Hk).
Defined.

(** ** [line] *)

Section Line.

Variable driver : Driver.
Variables Math_cos Math_sin : float -> float.

(** The wireframe [line] builds. *)
Definition line_wireframe (rotation : float) (color : list float) (s : state)
    : Wireframe :=
  let c := (Math_cos rotation * aspect_ratio s)%float in
  let sn := Math_sin rotation in
  {| bounds := 0; color := (color ++ color)%list;
     shape := [(- c)%float; (- sn)%float; c; sn] |}.

Lemma line_is_draw x y rotation color s :
  line driver Math_cos Math_sin x y rotation color s
  = draw driver (line_wireframe rotation color s) [x; y] rotation 1 s.
Proof. reflexivity. Qed.

End Line.

(** C9. [line] uses its rotation twice.  It draws the wireframe whose two
    vertices are [(-c, -s)] and [(c, s)] with
    [c = cos(rotation) * aspect_ratio] and [s = sin(rotation)], and it hands
    the same rotation to [draw]; when the lookups of [draw] succeed, the log
    shows the vertex data uploaded and the rotation sent to the location of
    [u_rotation]. *)
Theorem line_rotation_applied_twice (driver : Driver)
    (Math_cos Math_sin : float -> float)
    (x y rotation : float) (color : list float) (s : state) (l1 l2 l3 l4 l5 : N) :
  0 <= attrib_index driver (program s) "a_vertex" ->
  map (uniform_location driver (program s)) uniform_names
    = map Some [l1; l2; l3; l4; l5] ->
  let c := (Math_cos rotation * aspect_ratio s)%float in
  let sn := Math_sin rotation in
  let wireframe :=
    {| bounds := 0; color := (color ++ color)%list;
       shape := [(- c)%float; (- sn)%float; c; sn] |} in
  line driver Math_cos Math_sin x y rotation color s
  = draw driver wireframe [x; y] rotation 1 s
  /\ exists s' before between after,
       draw driver wireframe [x; y] rotation 1 s = (Ok tt, s')
       /\ gl_log (gl s')
          = (gl_log (gl s)
             ++ before
             ++ [BufferData GL.ARRAY_BUFFER
                   (new_Float32Array [(- c)%float; (- sn)%float; c; sn])
                   GL.STATIC_DRAW]
             ++ between
             ++ [GetUniformLocation (program s) "u_rotation";
                 Uniform1f l3 rotation]
             ++ after)%list.
Proof.
  intros Ha Hu c sn wireframe. split; [reflexivity|].
  pose (calls := draw_calls wireframe [x; y] rotation 1 s
                   (attrib_index driver (program s) "a_vertex") [l1; l2; l3; l4; l5]).
  exists (logged calls (new_buffer s)), (firstn 3 calls),
    (firstn 6 (skipn 4 calls)), (skipn 12 calls).
  split.
  - apply (draw_ok driver wireframe [x; y] rotation 1 s l1 l2 l3 l4 l5 Ha Hu).
  - rewrite gl_log_logged. reflexivity.
Qed.

Lemma line_rotation_applied_twice_witness :
  0 <= attrib_index Stub.driver (program Stub.ready) "a_vertex"
  /\ map (uniform_location Stub.driver (program Stub.ready)) uniform_names
     = map Some [0; 1; 2; 3; 4]%N
  /\ line Stub.driver Stub.Math_cos Stub.Math_sin 0 0.5 Math_PI [1; 0; 0; 1]%float
       Stub.ready
     = draw Stub.driver
         {| bounds := 0; color := [1; 0; 0; 1; 1; 0; 0; 1]%float;
            shape := [(- (Stub.Math_cos Math_PI * aspect_ratio Stub.ready))%float;
                      (- Stub.Math_sin Math_PI)%float;
                      (Stub.Math_cos Math_PI * aspect_ratio Stub.ready)%float;
                      Stub.Math_sin Math_PI] |}
         [0; 0.5]%float Math_PI 1 Stub.ready.
Proof.
  assert (Ha : 0 <= attrib_index Stub.driver (program Stub.ready) "a_vertex")
    by (vm_compute; discriminate).
  assert (Hu : map (uniform_location Stub.driver (program Stub.ready)) uniform_names
               = map Some [0; 1; 2; 3; 4]%N)
    by (vm_compute; reflexivity).
  split; [exact Ha|]. split; [exact Hu|].
  exact (proj1 (line_rotation_applied_twice Stub.driver Stub.Math_cos Stub.Math_sin
                  0 0.5 Math_PI [1; 0; 0; 1]%float Stub.ready 0 1 2 3 4 Ha Hu)).
Defined.

(** C5. With [Math.cos(0) = 1] and [Math.sin(0) = 0], [line(0, 0, 0,
    [1,0,0,1])] draws, at position [(0, 0)] with rotation 0 and size 1,
    the wireframe of the two vertices [(-aspect_ratio, -0)] and
    [(aspect_ratio, 0)] (and [-0] equals [0] as a number), whose colour
    array is the four components twice over. *)
Theorem line_at_origin (driver : Driver) (Math_cos Math_sin : float -> float)
    (s : state) :
  Math_cos 0%float = 1%float ->
  Math_sin 0%float = 0%float ->
  let ar := aspect_ratio s in
  let wireframe :=
    {| bounds := 0; color := [1; 0; 0; 1; 1; 0; 0; 1]%float;
       shape := [(- ar)%float; (-0)%float; ar; 0%float] |} in
  line driver Math_cos Math_sin 0 0 0 [1; 0; 0; 1]%float s
  = draw driver wireframe [0; 0]%float 0 1 s
  /\ vertices (shape wireframe) = [((- ar)%float, (-0)%float); (ar, 0%float)]
  /\ (-0 =? 0)%float = true.
Proof.
  intros Hc Hs ar wireframe. split; [|split; reflexivity].
  rewrite line_is_draw. unfold line_wireframe.
  rewrite Hc, Hs, mul_1_l. reflexivity.
Qed.

Lemma line_at_origin_witness :
  Stub.Math_cos 0 = 1%float
  /\ Stub.Math_sin 0 = 0%float
  /\ line Stub.driver Stub.Math_cos Stub.Math_sin 0 0 0 [1; 0; 0; 1]%float Stub.ready
     = draw Stub.driver
         {| bounds := 0; color := [1; 0; 0; 1; 1; 0; 0; 1]%float;
            shape := [(- aspect_ratio Stub.ready)%float; (-0)%float;
                      aspect_ratio Stub.ready; 0%float] |}
         [0; 0]%float 0 1 Stub.ready.
Proof.
  split; [reflexivity|]. split; [reflexivity|].
  exact (proj1 (line_at_origin Stub.driver Stub.Math_cos Stub.Math_sin Stub.ready
                  eq_refl eq_refl)).
Defined.

(** ** [polygon] *)

(** The exact value of a finite number, as a rational. *)
Definition Q_of_float (x : float) : option Q :=
  match Prim2SF x with
  | S754_zero _ => Some 0%Q
  | S754_finite s m e => Some (inject_Z (cond_Zopp s (Zpos m)) * Qpower 2 e)%Q
  | _ => None
  end.

(** The point [(x, y)] lies within [tol] of the circle of radius [radius]
    around the origin: its distance [d] from the origin satisfies
    [radius - tol <= d <= radius + tol], compared on the squares, in exact
    arithmetic ([0 <= tol <= radius]). *)
Definition near_circle (tol radius : Q) (x y : float) : bool :=
  match Q_of_float x, Q_of_float y with
  | Some qx, Some qy =>
      let d2 := (qx * qx + qy * qy)%Q in
      Qle_bool 0 tol && Qle_bool tol radius
      && Qle_bool ((radius - tol) * (radius - tol)) d2
      && Qle_bool d2 ((radius + tol) * (radius + tol))
  | _, _ => false
  end.

(** The values the loop variable of [polygon(_, 4, ...)] takes: 0 and the
    sums of one to four steps of [Math.PI * 2 / 4]. *)
Definition square_angles : list float :=
  let step := (Math_PI * 2 / 4)%float in
  [0; step; step + step; step + step + step; step + step + step + step]%float.

Definition empty_wireframe : Wireframe :=
  {| bounds := 0; color := []; shape := [] |}.

Section Polygon.

Variables Math_cos Math_sin : float -> float.

Lemma polygon_loop_more_fuel radius sides color0 fuel : forall k r w w',
  polygon_loop Math_cos Math_sin fuel radius sides color0 r w = Some w' ->
  polygon_loop Math_cos Math_sin (fuel + k) radius sides color0 r w = Some w'.
Proof.
  induction fuel as [|fuel IH]; intros k r w w' E; [discriminate|].
  cbn [polygon_loop Nat.add] in *.
  destruct (r <=? Math_PI * 2)%float; [|exact E].
  now apply IH.
Qed.

Lemma polygon_square_loop (color0 : list float) :
  polygon_loop Math_cos Math_sin 6 1 4 color0 0 empty_wireframe
  = Some {| bounds := 0;
            color := (color0 ++ color0 ++ color0 ++ color0 ++ color0)%list;
            shape := flat_map (fun r => [Math_cos r; Math_sin r]) square_angles |}.
Proof.
  cbn [polygon_loop].
  repeat match goal with
  | |- context [(?a <=? ?b)%float] =>
      let v := eval vm_compute in (a <=? b)%float in
      change (a <=? b)%float with v; cbv iota
  end.
  rewrite !mul_1_r. cbn [empty_wireframe color shape bounds app].
  rewrite <- !app_assoc. reflexivity.
Qed.

End Polygon.

(** C3. [polygon(1, 4, [0,0], 0, [1,1,1,1])] draws, at position [(0, 0)]
    with rotation 0 and size 1, a wireframe of five vertices (sides + 1:
    the loop runs for 0, pi/2, pi, 3pi/2 and, its bound being inclusive,
    2pi), the vertex of angle [r] being [(cos r, sin r)]; its colour array
    is the given colour once per vertex; and when the runtime's [Math.cos]
    and [Math.sin] are accurate to [tol] on the unit circle at those five
    angles, every vertex is within [tol] of distance 1 from the origin. *)
Theorem polygon_square (driver : Driver) (Math_cos Math_sin : float -> float)
    (tol : Q) (fuel : nat) (s : state) :
  (6 <= fuel)%nat ->
  forallb (fun r => near_circle tol 1 (Math_cos r) (Math_sin r)) square_angles = true ->
  exists wireframe,
    polygon_loop Math_cos Math_sin fuel 1 4 [1; 1; 1; 1]%float 0 empty_wireframe
    = Some wireframe
    /\ polygon driver Math_cos Math_sin fuel 1 4 [0; 0]%float 0 [1; 1; 1; 1]%float s
       = draw driver wireframe [0; 0]%float 0 1 s
    /\ vertices (shape wireframe)
       = map (fun r => (Math_cos r, Math_sin r)) square_angles
    /\ length (vertices (shape wireframe)) = 5%nat
    /\ Forall (fun v => near_circle tol 1 (fst v) (snd v) = true)
         (vertices (shape wireframe))
    /\ color wireframe = concat (repeat [1; 1; 1; 1]%float 5).
Proof.
  intros Hfuel Htol.
  pose proof (polygon_square_loop Math_cos Math_sin [1; 1; 1; 1]%float) as E.
  apply (polygon_loop_more_fuel _ _ _ _ _ _ (fuel - 6)) in E.
  replace (6 + (fuel - 6))%nat with fuel in E by lia.
  eexists. split; [exact E|].
  split; [unfold polygon; fold empty_wireframe; rewrite E; reflexivity|].
  cbn [shape color]. split; [reflexivity|]. split; [reflexivity|].
  split; [|reflexivity].
  change (vertices (flat_map (fun r => [Math_cos r; Math_sin r]) square_angles))
    with (map (fun r => (Math_cos r, Math_sin r)) square_angles).
  rewrite Forall_map. cbn [fst snd].
  apply Forall_forall. intros r Hr.
  rewrite forallb_forall in Htol. apply Htol.
  now apply list_elem_of_In.
Qed.

Lemma polygon_square_witness :
  (6 <= 6)%nat
  /\ forallb (fun r => near_circle (1 # 4503599627370496) 1
                         (Stub.Math_cos r) (Stub.Math_sin r)) square_angles = true
  /\ exists wireframe,
       polygon_loop Stub.Math_cos Stub.Math_sin 6 1 4 [1; 1; 1; 1]%float 0
         empty_wireframe = Some wireframe
       /\ length (vertices (shape wireframe)) = 5%nat
       /\ Forall (fun v => near_circle (1 # 4503599627370496) 1 (fst v) (snd v) = true)
            (vertices (shape wireframe)).
Proof.
  assert (Htol : forallb (fun r => near_circle (1 # 4503599627370496) 1
                            (Stub.Math_cos r) (Stub.Math_sin r)) square_angles = true)
    by (vm_compute; reflexivity).
  split; [lia|]. split; [exact Htol|].
  destruct (polygon_square Stub.driver Stub.Math_cos Stub.Math_sin
              (1 # 4503599627370496) 6 Stub.ready (le_n 6) Htol)
    as (w & E & _ & _ & Hn & Hd & _).
  exists w. split; [exact E|]. split; [exact Hn | exact Hd].
Defined.

(** *** Termination of the loop of [polygon] *)

(** A position of a number in the order of the numbers: negative numbers
    below the zeros, the infinities at both ends. *)
Definition SF_rank (x : spec_float) : Z :=
  match x with
  | S754_nan => 0
  | S754_zero _ => 0
  | S754_infinity s => cond_Zopp s (4096 * 2 ^ 53)
  | S754_finite s m e => cond_Zopp s ((e + 1075) * 2 ^ 53 + Zpos m)
  end.

Definition rank (x : float) : Z := SF_rank (Prim2SF x).

Lemma digits2_pos_bound (m : positive) : Zpos m < 2 ^ Zpos (digits2_pos m).
Proof.
  induction m as [m IH|m IH|]; cbn [digits2_pos]; [| |reflexivity];
    rewrite Pos2Z.inj_succ, Z.pow_succ_r by lia; lia.
Qed.

Lemma bounded_range (m : positive) (e : Z) :
  bounded prec emax m e = true ->
  Zpos m < 2 ^ 53 /\ -1074 <= e <= 971.
Proof.
  unfold bounded, canonical_mantissa, fexp. intros H.
  apply andb_true_iff in H as [C B]. apply Z.eqb_eq in C. apply Z.leb_le in B.
  change prec with 53 in *. change emax with 1024 in *.
  change (SpecFloat.emin 53 1024) with (-1074) in C.
  pose proof (digits2_pos_bound m) as D.
  assert (Zpos (digits2_pos m) <= 53) by lia.
  split; [|lia].
  eapply Z.lt_le_trans; [exact D|]. apply Z.pow_le_mono_r; lia.
Qed.

Ltac solve_compare :=
  lazymatch goal with
  | |- _ = Eq => apply Z.compare_eq_iff
  | |- _ = Lt => apply Z.compare_lt_iff
  | |- _ = Gt => apply Z.compare_gt_iff
  end; nia.

Lemma SFcompare_rank (x y : spec_float) (c : comparison) :
  valid_binary x = true -> valid_binary y = true ->
  SFcompare x y = Some c ->
  (SF_rank x ?= SF_rank y) = c.
Proof.
  intros Vx Vy.
  assert (P : 0 < 2 ^ 53) by lia.
  destruct x as [sx|sx| |sx mx ex], y as [sy|sy| |sy my ey];
    cbn [SFcompare SF_rank valid_binary] in *;
    try discriminate;
    try (apply bounded_range in Vx as [Mx Ex]);
    try (apply bounded_range in Vy as [My Ey]);
    intros E; injection E as <-;
    repeat match goal with s : bool |- _ => destruct s end;
    cbn [cond_Zopp];
    try reflexivity;
    try (destruct (Z.compare_spec ex ey) as [->| |];
         [ rewrite ?Pos.compare_cont_spec; cbn [Pos.switch_Eq];
           try rewrite <- Pos.compare_antisym
         | | ]);
    try solve_compare.
  all: replace (Pos.switch_Eq Eq (mx ?= my)%positive) with (Zpos mx ?= Zpos my)
         by (cbn [Z.compare]; now destruct (mx ?= my)%positive).
  all: destruct (Z.compare_spec (Zpos mx) (Zpos my)); cbn [CompOpp];
         solve_compare.
Qed.

Lemma ltb_rank (x y : float) : (x <? y)%float = true -> rank x < rank y.
Proof.
  rewrite ltb_spec. unfold SFltb, rank. intros H.
  destruct (SFcompare (Prim2SF x) (Prim2SF y)) as [[| |]|] eqn:E; try discriminate.
  rewrite <- Z.compare_lt_iff.
  exact (SFcompare_rank _ _ _ (Prim2SF_valid x) (Prim2SF_valid y) E).
Qed.

Lemma leb_rank (x y : float) : (x <=? y)%float = true -> rank x <= rank y.
Proof.
  rewrite leb_spec. unfold SFleb, rank. intros H.
  destruct (SFcompare (Prim2SF x) (Prim2SF y)) as [[| |]|] eqn:E; try discriminate;
    pose proof (SFcompare_rank _ _ _ (Prim2SF_valid x) (Prim2SF_valid y) E) as R.
  - rewrite Z.compare_eq_iff in R. lia.
  - rewrite Z.compare_lt_iff in R. lia.
Qed.

(** The values the loop variable takes in [polygon(_, sides, ...)]. *)
Inductive visits (sides : float) : float -> Prop :=
| visits_start : visits sides 0%float
| visits_next (r : float) :
    visits sides r ->
    (r <=? Math_PI * 2)%float = true ->
    visits sides (r + Math_PI * 2 / sides)%float.

(** Every iteration moves the loop variable strictly up. *)
Definition strictly_increasing (sides : float) : Prop :=
  forall r, visits sides r -> (r <=? Math_PI * 2)%float = true ->
            (r <? r + Math_PI * 2 / sides)%float = true.

Section PolygonTermination.

Variables Math_cos Math_sin : float -> float.
Variables (radius sides : float) (color0 : list float).

Lemma polygon_loop_measure (n : nat) : forall r w,
  strictly_increasing sides ->
  visits sides r ->
  ((r <=? Math_PI * 2)%float = true ->
   rank (Math_PI * 2)%float - rank r < Z.of_nat n) ->
  exists fuel w',
    polygon_loop Math_cos Math_sin fuel radius sides color0 r w = Some w'.
Proof.
  induction n as [|n IH]; intros r w Hinc Hv Hn.
  - exists 1%nat, w. cbn [polygon_loop].
    destruct (r <=? Math_PI * 2)%float eqn:E; [|reflexivity].
    specialize (Hn eq_refl). apply leb_rank in E. lia.
  - destruct (r <=? Math_PI * 2)%float eqn:E.
    + pose proof (ltb_rank _ _ (Hinc r Hv E)) as Hlt.
      specialize (Hn eq_refl).
      destruct (IH (r + Math_PI * 2 / sides)%float
                  {| bounds := bounds w;
                     color := (color w ++ color0)%list;
                     shape := ((shape w ++ [(Math_cos r * radius)%float])
                                 ++ [(Math_sin r * radius)%float])%list |}
                  Hinc (visits_next sides r Hv E))
        as (fuel & w' & Hw); [intros _; lia|].
      exists (S fuel), w'. cbn [polygon_loop]. rewrite E. exact Hw.
    + exists 1%nat, w. cbn [polygon_loop]. now rewrite E.
Qed.

End PolygonTermination.

Lemma polygon_loop_stuck_at_zero (Math_cos Math_sin : float -> float)
    (radius : float) (color0 : list float) (fuel : nat) : forall w,
  polygon_loop Math_cos Math_sin fuel radius infinity color0 0 w = None.
Proof.
  induction fuel as [|fuel IH]; intros w; [reflexivity|].
  cbn [polygon_loop].
  change (0 <=? Math_PI * 2)%float with true. cbv iota.
  change (0 + Math_PI * 2 / infinity)%float with 0%float.
  apply IH.
Qed.

(** A positive step is not enough for an iteration to increase the loop
    variable: a step below half the spacing of the numbers around [r] is
    absorbed by the rounding of [r + step]. *)
Lemma small_step_is_absorbed :
  (0 <? Math_PI * 2 / 0x1p+60)%float = true
  /\ (1 + Math_PI * 2 / 0x1p+60)%float = 1%float.
Proof. split; reflexivity. Qed.

(** Nor is the loop guarded against [sides <= 0]: for [sides = -0] the step
    is [-Infinity], and the loop variable stays there. *)
Lemma polygon_loop_negative_zero_sides (Math_cos Math_sin : float -> float)
    (radius : float) (color0 : list float) (fuel : nat) :
  polygon_loop Math_cos Math_sin fuel radius (-0) color0 0 empty_wireframe = None.
Proof.
  assert (Stuck : forall n w,
            polygon_loop Math_cos Math_sin n radius (-0) color0 neg_infinity w = None).
  { induction n as [|n IH]; intros w; [reflexivity|].
    cbn [polygon_loop].
    change (neg_infinity <=? Math_PI * 2)%float with true. cbv iota.
    change (neg_infinity + Math_PI * 2 / -0)%float with neg_infinity.
    apply IH. }
  destruct fuel as [|fuel]; [reflexivity|].
  cbn [polygon_loop].
  change (0 <=? Math_PI * 2)%float with true. cbv iota.
  change (0 + Math_PI * 2 / -0)%float with neg_infinity.
  apply Stuck.
Qed.

(** C10, as stated, fails: [Infinity] is a number and [1 <= Infinity], but
    the step [2 pi / Infinity] is 0, the loop variable stays at 0, and the
    loop returns for no amount of fuel. *)
Lemma polygon_loop_infinite_sides_diverges :
  (1 <=? infinity)%float = true
  /\ (Math_PI * 2 / infinity)%float = 0%float
  /\ (forall (Math_cos Math_sin : float -> float) radius color0 fuel,
        polygon_loop Math_cos Math_sin fuel radius infinity color0 0 empty_wireframe
        = None).
Proof.
  split; [reflexivity|]. split; [reflexivity|].
  intros. apply polygon_loop_stuck_at_zero.
Qed.

(** *** Rounding in binary64, from below *)

Section RoundingBelow.

Lemma pow2_pos (n : Z) : 0 <= n -> 0 < 2 ^ n.
Proof. intros H. apply Z.pow_pos_nonneg; lia. Qed.

Lemma pow2_le (a b : Z) : 0 <= a <= b -> 2 ^ a <= 2 ^ b.
Proof. intros H. apply Z.pow_le_mono_r; lia. Qed.

Lemma pow2_lt_inv (a b : Z) : 0 <= b -> 2 ^ a < 2 ^ b -> a < b.
Proof. intros Hb H. apply (Z.pow_lt_mono_r_iff 2); lia. Qed.

Lemma shr_1_m (r : shr_record) :
  0 <= shr_m r -> shr_m (shr_1 r) = shr_m r / 2.
Proof.
  destruct r as [m rb sb]. cbn [shr_m]. intros H.
  destruct m as [|[p|p|]|p]; cbn [shr_1 shr_m]; try lia; try reflexivity.
  - rewrite Pos2Z.inj_xI. apply (Z.div_unique _ _ _ 1); lia.
  - rewrite Pos2Z.inj_xO. apply (Z.div_unique _ _ _ 0); lia.
Qed.

Lemma iter_shr_1 (p : positive) : forall r,
  0 <= shr_m r ->
  shr_m (SpecFloat.iter_pos shr_1 p r) = shr_m r / 2 ^ Zpos p.
Proof.
  induction p as [p IH|p IH|]; intros r H; cbn [SpecFloat.iter_pos].
  - assert (H1 : 0 <= shr_m (shr_1 r))
      by (rewrite shr_1_m by lia; apply Z.div_pos; lia).
    assert (H2 : 0 <= shr_m (SpecFloat.iter_pos shr_1 p (shr_1 r))).
    { rewrite IH by lia. apply Z.div_pos; [lia|]. apply pow2_pos; lia. }
    rewrite IH, IH, shr_1_m by lia.
    pose proof (pow2_pos (Zpos p) ltac:(lia)).
    rewrite !Z.div_div by lia.
    f_equal. rewrite (Pos2Z.inj_xI p).
    replace (2 * Zpos p + 1) with (1 + Zpos p + Zpos p) by lia.
    rewrite !Z.pow_add_r by lia. lia.
  - assert (H2 : 0 <= shr_m (SpecFloat.iter_pos shr_1 p r)).
    { rewrite IH by lia. apply Z.div_pos; [lia|]. apply pow2_pos; lia. }
    rewrite IH, IH by lia.
    pose proof (pow2_pos (Zpos p) ltac:(lia)).
    rewrite !Z.div_div by lia.
    f_equal. rewrite (Pos2Z.inj_xO p).
    replace (2 * Zpos p) with (Zpos p + Zpos p) by lia.
    rewrite !Z.pow_add_r by lia. lia.
  - rewrite shr_1_m by lia. reflexivity.
Qed.

Lemma shr_m_of_loc (m : Z) (l : location) : shr_m (shr_record_of_loc m l) = m.
Proof. destruct l as [|[| |]]; reflexivity. Qed.

(** Shifting right by [n] divides the mantissa by [2^n]. *)
Lemma shr_spec (m : Z) (l : location) (e n : Z) :
  0 <= m -> 0 <= n ->
  exists r, shr (shr_record_of_loc m l) e n = (r, e + n) /\ shr_m r = m / 2 ^ n.
Proof.
  intros Hm Hn. destruct n as [|p|p]; [| |lia].
  - exists (shr_record_of_loc m l). cbn [shr]. rewrite shr_m_of_loc, Z.div_1_r.
    split; [f_equal; lia | reflexivity].
  - eexists. cbn [shr]. split; [reflexivity|].
    rewrite iter_shr_1 by (rewrite shr_m_of_loc; lia).
    now rewrite shr_m_of_loc.
Qed.

Lemma shr_nothing (r : shr_record) (e n : Z) : n <= 0 -> shr r e n = (r, e).
Proof. intros H. destruct n; [reflexivity|lia|reflexivity]. Qed.

Lemma round_nearest_even_bounds (m : Z) (l : location) :
  m <= round_nearest_even m l <= m + 1.
Proof.
  destruct l as [|[| |]]; cbn [round_nearest_even]; try lia.
  destruct (Z.even m); lia.
Qed.

Lemma digits2_pos_lower (m : positive) : 2 ^ (Zpos (digits2_pos m) - 1) <= Zpos m.
Proof.
  induction m as [m IH|m IH|]; cbn [digits2_pos]; [| |reflexivity].
  - rewrite Pos2Z.inj_succ.
    replace (Z.succ (Zpos (digits2_pos m)) - 1) with (1 + (Zpos (digits2_pos m) - 1))
      by lia.
    rewrite Z.pow_add_r by lia. lia.
  - rewrite Pos2Z.inj_succ.
    replace (Z.succ (Zpos (digits2_pos m)) - 1) with (1 + (Zpos (digits2_pos m) - 1))
      by lia.
    rewrite Z.pow_add_r by lia. lia.
Qed.

(** A positive number below [2^k] has at most [k] binary digits, and one
    that is at least [2^k] has more than [k]. *)
Lemma digits2_pos_le (m : positive) (k : Z) :
  0 <= k -> Zpos m < 2 ^ k -> Zpos (digits2_pos m) <= k.
Proof.
  intros Hk H. pose proof (digits2_pos_lower m).
  assert (Zpos (digits2_pos m) - 1 < k); [|lia].
  apply pow2_lt_inv; lia.
Qed.

Lemma digits2_pos_gt (m : positive) (k : Z) :
  2 ^ k <= Zpos m -> k < Zpos (digits2_pos m).
Proof.
  intros H. pose proof (digits2_pos_bound m).
  apply pow2_lt_inv; lia.
Qed.

End RoundingBelow.

Section RoundingAux.

(** The exponent of the binary64 format for a number of magnitude [k]. *)
Lemma fexp_64 (k : Z) : fexp prec emax k = Z.max (k - 53) (-1074).
Proof. reflexivity. Qed.

(** [binary_round_aux] on a positive mantissa that has at least the digits
    of the format: the result is not below the truncation of the number
    to the format's exponent [E]. *)
Lemma binary_round_aux_lower (mx : positive) (ex : Z) (lx : location) :
  let E := Z.max (Zpos (digits2_pos mx) + ex - 53) (-1074) in
  let f := Zpos mx / 2 ^ (E - ex) in
  ex <= E ->
  1 <= f ->
  binary_round_aux prec emax false (Zpos mx) ex lx = S754_infinity false
  \/ exists m e,
       binary_round_aux prec emax false (Zpos mx) ex lx = S754_finite false m e
       /\ E <= e
       /\ (E + 1075) * 2 ^ 53 + f <= (e + 1075) * 2 ^ 53 + Zpos m.
Proof.
  intros E f HE Hf.
  unfold binary_round_aux, shr_fexp.
  rewrite !fexp_64. cbn [Zdigits2]. fold E.
  destruct (shr_spec (Zpos mx) lx ex (E - ex)) as (r & -> & Hr); [lia|lia|].
  fold f in Hr.
  replace (ex + (E - ex)) with E by lia.
  pose proof (round_nearest_even_bounds (shr_m r) (loc_of_shr_record r)) as Hm1.
  rewrite Hr in *.
  set (m1 := round_nearest_even f (loc_of_shr_record r)) in *.
  assert (Hlt : f < 2 ^ 53).
  { subst f. apply Z.div_lt_upper_bound; [apply pow2_pos; lia|].
    rewrite <- Z.pow_add_r by lia.
    eapply Z.lt_le_trans; [apply digits2_pos_bound|].
    apply pow2_le. lia. }
  assert (Hmin : -1074 <= E) by apply Z.le_max_r.
  destruct m1 as [|q|q] eqn:Eq; [lia| |lia].
  destruct (Z.eq_dec (Zpos q) (2 ^ 53)) as [Htop|Hnot].
  - (* the mantissa was rounded up to 2^53 *)
    assert (Hq : q = 9007199254740992%positive) by lia. subst q.
    cbn [Zdigits2].
    change (digits2_pos 9007199254740992) with 54%positive.
    rewrite fexp_64.
    match goal with
    | |- context [shr _ E ?n] => replace n with 1 by lia
    end.
    cbn [shr shr_record_of_loc SpecFloat.iter_pos shr_1 shr_m].
    destruct (E + 1 <=? emax - prec); [right|now left].
    do 2 eexists. split; [reflexivity|]. lia.
  - assert (Hq : Zpos q < 2 ^ 53) by lia.
    pose proof (digits2_pos_le q 53 ltac:(lia) Hq) as Hd.
    cbn [Zdigits2]. rewrite fexp_64.
    rewrite shr_nothing by lia.
    rewrite shr_m_of_loc.
    destruct (E <=? emax - prec); [right|now left].
    do 2 eexists. split; [reflexivity|]. lia.
Qed.

End RoundingAux.

Section RoundingSum.

Lemma shift_pos_Z (m d : positive) : Zpos (Pos.iter xO m d) = Zpos m * 2 ^ Zpos d.
Proof.
  change (Pos.iter xO m d) with (shift_pos d m).
  rewrite shift_pos_correct.
  change (Zpower_pos 2 d) with (2 ^ Zpos d). lia.
Qed.

Lemma digits2_pos_shift (m d : positive) :
  Zpos (digits2_pos (Pos.iter xO m d)) = Zpos (digits2_pos m) + Zpos d.
Proof.
  pose proof (digits2_pos_lower m) as Hl. pose proof (digits2_pos_bound m) as Hu.
  pose proof (pow2_pos (Zpos d) ltac:(lia)) as Hd.
  assert (Zpos (digits2_pos (Pos.iter xO m d)) <= Zpos (digits2_pos m) + Zpos d).
  { apply digits2_pos_le; [lia|].
    rewrite shift_pos_Z, Z.pow_add_r by lia. nia. }
  assert (Zpos (digits2_pos m) + Zpos d - 1 < Zpos (digits2_pos (Pos.iter xO m d))).
  { apply digits2_pos_gt. rewrite shift_pos_Z.
    replace (Zpos (digits2_pos m) + Zpos d - 1)
      with ((Zpos (digits2_pos m) - 1) + Zpos d) by lia.
    rewrite Z.pow_add_r by lia. nia. }
  lia.
Qed.

Lemma shl_align_fst (m : positive) (e e' : Z) :
  e' <= e -> Zpos (fst (shl_align m e e')) = Zpos m * 2 ^ (e - e').
Proof.
  intros H. unfold shl_align.
  destruct (e' - e) as [|d|d] eqn:D; cbn [fst]; [|lia|].
  - replace (e - e') with 0 by lia. lia.
  - rewrite shift_pos_Z. f_equal. f_equal. lia.
Qed.

(** [binary_round] on a positive number [M * 2^ez], counted in units of
    [2^-1074]: the result is not below its truncation to the format's
    exponent [E]. *)
Lemma binary_round_lower (M : positive) (ez : Z) :
  -1074 <= ez ->
  let E := Z.max (Zpos (digits2_pos M) + ez - 53) (-1074) in
  let F := Zpos M * 2 ^ (ez + 1074) / 2 ^ (E + 1074) in
  binary_round prec emax false M ez = S754_infinity false
  \/ exists m e,
       binary_round prec emax false M ez = S754_finite false m e
       /\ E <= e
       /\ (E + 1075) * 2 ^ 53 + F <= (e + 1075) * 2 ^ 53 + Zpos m.
Proof.
  intros Hez E F.
  assert (Hmin : -1074 <= E) by apply Z.le_max_r.
  pose proof (digits2_pos_lower M) as Hl.
  unfold binary_round. rewrite fexp_64. fold E. unfold shl_align.
  destruct (E - ez) as [|d|d] eqn:D.
  - (* the number has exactly the digits of the format *)
    assert (HF : F = Zpos M / 2 ^ (E - ez)).
    { subst F. replace E with ez by lia.
      rewrite Z.div_mul by (pose proof (pow2_pos (ez + 1074)); lia).
      replace (ez - ez) with 0 by lia. now rewrite Z.div_1_r. }
    rewrite HF.
    apply (binary_round_aux_lower M ez loc_Exact); fold E; [lia|].
    rewrite D, Z.div_1_r. lia.
  - (* more digits: the mantissa is truncated *)
    assert (HE : E = Zpos (digits2_pos M) + ez - 53) by (subst E; lia).
    assert (HF : F = Zpos M / 2 ^ (E - ez)).
    { subst F.
      replace (E + 1074) with ((E - ez) + (ez + 1074)) by lia.
      rewrite (Z.pow_add_r 2 (E - ez) (ez + 1074)) by lia.
      apply Z.div_mul_cancel_r.
      - pose proof (pow2_pos (E - ez)); lia.
      - pose proof (pow2_pos (ez + 1074)); lia. }
    rewrite HF.
    apply (binary_round_aux_lower M ez loc_Exact); fold E; [lia|].
    apply Z.div_le_lower_bound; [apply pow2_pos; lia|].
    rewrite Z.mul_1_r. etransitivity; [|exact Hl].
    apply pow2_le. lia.
  - (* fewer digits: the mantissa is shifted left, exactly *)
    assert (Hd : Zpos d = ez - E) by lia.
    assert (HF : F = Zpos (Pos.iter xO M d)).
    { subst F. rewrite shift_pos_Z, Hd.
      replace (ez + 1074) with ((ez - E) + (E + 1074)) by lia.
      rewrite (Z.pow_add_r 2 (ez - E) (E + 1074)), Z.mul_assoc by lia.
      apply Z.div_mul. pose proof (pow2_pos (E + 1074)); lia. }
    pose proof (binary_round_aux_lower (Pos.iter xO M d) E loc_Exact) as B.
    cbv zeta in B. rewrite digits2_pos_shift, Hd in B.
    replace (Z.max (Zpos (digits2_pos M) + (ez - E) + E - 53) (-1074)) with E in B
      by (subst E; lia).
    replace (E - E) with 0 in B by lia.
    rewrite Z.div_1_r in B. rewrite HF.
    apply B; lia.
Qed.

End RoundingSum.

Section StepIncreases.

Lemma bounded_canonical (m : positive) (e : Z) :
  bounded prec emax m e = true ->
  e = Z.max (Zpos (digits2_pos m) + e - 53) (-1074).
Proof.
  unfold bounded, canonical_mantissa. rewrite fexp_64. intros H.
  apply andb_true_iff in H as [C _]. apply Z.eqb_eq in C. lia.
Qed.

(** A normal number has a mantissa of 53 digits. *)
Lemma bounded_normal (m : positive) (e : Z) :
  bounded prec emax m e = true -> -1074 < e ->
  Zpos (digits2_pos m) = 53 /\ 2 ^ 52 <= Zpos m.
Proof.
  intros B He. pose proof (bounded_canonical m e B) as C.
  assert (D : Zpos (digits2_pos m) = 53) by lia.
  split; [exact D|].
  pose proof (digits2_pos_lower m) as L. rewrite D in L. exact L.
Qed.

(** Adding a number that is at least one unit in the last place of [r]
    to a positive [r] gives a number of higher rank. *)
Lemma SFadd_increases (mr ms : positive) (er es : Z) :
  bounded prec emax mr er = true ->
  bounded prec emax ms es = true ->
  er <= es + 52 ->
  2 ^ 52 <= Zpos ms ->
  let z := SFadd prec emax (S754_finite false mr er) (S754_finite false ms es) in
  z = S754_infinity false
  \/ exists m e,
       z = S754_finite false m e
       /\ (er + 1075) * 2 ^ 53 + Zpos mr < (e + 1075) * 2 ^ 53 + Zpos m.
Proof.
  intros Br Bs Hes Hms z. subst z.
  pose proof (bounded_canonical mr er Br) as Cr.
  apply bounded_range in Br as [Mr Er]. apply bounded_range in Bs as [Ms Es].
  cbn [SFadd cond_Zopp].
  set (ez := Z.min er es).
  assert (Hez : -1074 <= ez) by (subst ez; lia).
  assert (Hr : ez <= er) by (subst ez; lia).
  assert (Hs : ez <= es) by (subst ez; lia).
  pose proof (shl_align_fst mr er ez Hr) as Ar.
  pose proof (shl_align_fst ms es ez Hs) as As.
  set (a := fst (shl_align mr er ez)) in *.
  set (b := fst (shl_align ms es ez)) in *.
  change (Zpos a + Zpos b) with (Zpos (a + b)).
  cbn [binary_normalize].
  pose proof (binary_round_lower (a + b) ez Hez) as B. cbv zeta in B.
  set (E := Z.max (Zpos (digits2_pos (a + b)) + ez - 53) (-1074)) in *.
  (* the sum in units of 2^-1074 *)
  assert (X : Zpos (a + b) * 2 ^ (ez + 1074)
              = Zpos mr * 2 ^ (er + 1074) + Zpos ms * 2 ^ (es + 1074)).
  { rewrite Pos2Z.inj_add, Ar, As, Z.mul_add_distr_r, <- !Z.mul_assoc.
    rewrite <- !Z.pow_add_r by lia.
    replace (er - ez + (ez + 1074)) with (er + 1074) by lia.
    replace (es - ez + (ez + 1074)) with (es + 1074) by lia.
    reflexivity. }
  rewrite X in B.
  (* the sum is not smaller in magnitude than [r] *)
  assert (HE : er <= E).
  { assert (Zpos (digits2_pos mr) + er - ez - 1 < Zpos (digits2_pos (a + b))).
    { apply digits2_pos_gt. rewrite Pos2Z.inj_add, Ar.
      pose proof (digits2_pos_lower mr) as L.
      pose proof (pow2_pos (er - ez) ltac:(lia)) as P.
      replace (Zpos (digits2_pos mr) + er - ez - 1)
        with ((Zpos (digits2_pos mr) - 1) + (er - ez)) by lia.
      rewrite Z.pow_add_r by lia. nia. }
    subst E. lia. }
  pose proof (pow2_pos (er + 1074) ltac:(lia)) as Per.
  pose proof (pow2_pos (es + 1074) ltac:(lia)) as Pes.
  pose proof (pow2_pos (E + 1074) ltac:(lia)) as PE.
  destruct B as [B|(m & e & B & He & Hrank)]; [now left|right].
  exists m, e. split; [exact B|].
  eapply Z.lt_le_trans; [|exact Hrank].
  destruct (Z.eq_dec E er) as [->|Hne].
  - (* same exponent: the truncated mantissa is at least [mr + 1] *)
    rewrite Z.div_add_l by lia.
    assert (1 <= Zpos ms * 2 ^ (es + 1074) / 2 ^ (er + 1074)); [|lia].
    apply Z.div_le_lower_bound; [lia|]. rewrite Z.mul_1_r.
    replace (er + 1074) with ((er - es) + (es + 1074)) by lia.
    destruct (Z.le_gt_cases er es) as [Hle|Hgt].
    + transitivity (2 ^ (es + 1074)); [|nia].
      apply pow2_le. lia.
    + replace (er - es + (es + 1074)) with ((er - es) + (es + 1074)) by lia.
      rewrite Z.pow_add_r by lia.
      apply Z.mul_le_mono_nonneg_r; [lia|].
      transitivity (2 ^ 52); [apply pow2_le; lia | exact Hms].
  - (* higher exponent *)
    assert (0 <= (Zpos mr * 2 ^ (er + 1074) + Zpos ms * 2 ^ (es + 1074))
                 / 2 ^ (E + 1074)) by (apply Z.div_pos; nia).
    nia.
Qed.

(** The quotient of [2 pi] by a normal number below [2^52] is at least
    [2^-50], one unit in the last place of the numbers up to [2 pi]. *)
Lemma SFdiv_two_pi_lower (m2 : positive) (e2 : Z) :
  bounded prec emax m2 e2 = true ->
  -1074 < e2 <= -1 ->
  let z := SFdiv prec emax (S754_finite false 7074237752028440 (-50))
             (S754_finite false m2 e2) in
  z = S754_infinity false
  \/ exists m e, z = S754_finite false m e /\ -102 <= e.
Proof.
  intros B2 He2 z. subst z.
  destruct (bounded_normal m2 e2 B2 ltac:(lia)) as [D2 L2].
  pose proof (digits2_pos_bound m2) as U2. rewrite D2 in U2.
  cbn [SFdiv xorb]. unfold SFdiv_core_binary. cbn [Zdigits2].
  rewrite D2, fexp_64.
  change (Zpos (digits2_pos 7074237752028440)) with 53.
  replace (Z.min (Z.max (53 + -50 - (53 + e2) - 53) (-1074)) (-50 - e2))
    with (-103 - e2) by lia.
  replace (-50 - e2 - (-103 - e2)) with 53 by lia.
  cbv iota.
  set (a := Z.shiftl 7074237752028440 53).
  assert (Ha : a = 7074237752028440 * 2 ^ 53) by reflexivity.
  pose proof (Z_div_mod a (Zpos m2) ltac:(lia)) as DM.
  destruct (Z.div_eucl a (Zpos m2)) as [q r].
  destruct DM as [Eq Hr].
  assert (Hq : 2 ^ 52 <= q) by nia.
  destruct q as [|q|q]; [lia| |lia].
  pose proof (digits2_pos_gt q 52 Hq) as Dq.
  pose proof (digits2_pos_lower q) as Lq.
  pose proof (binary_round_aux_lower q (-103 - e2) (new_location (Zpos m2) r))
    as R.
  cbv zeta in R.
  replace (Z.max (Zpos (digits2_pos q) + (-103 - e2) - 53) (-1074))
    with (Zpos (digits2_pos q) + (-103 - e2) - 53) in R by lia.
  destruct R as [R|(m & e & R & He & _)].
  - lia.
  - apply Z.div_le_lower_bound; [apply pow2_pos; lia|].
    rewrite Z.mul_1_r. etransitivity; [|exact Lq].
    apply pow2_le. lia.
  - now left.
  - right. exists m, e. split; [exact R|lia].
Qed.

End StepIncreases.

Section PolygonProgress.

Lemma SFcompare_defined (x y : spec_float) :
  x <> S754_nan -> y <> S754_nan -> exists c, SFcompare x y = Some c.
Proof.
  destruct x as [sx|sx| |sx mx ex], y as [sy|sy| |sy my ey];
    intros Hx Hy; try congruence; eexists; reflexivity.
Qed.

(** Between numbers, the order of the ranks is the order of the numbers. *)
Lemma rank_ltb (x y : float) :
  Prim2SF x <> S754_nan -> Prim2SF y <> S754_nan ->
  rank x < rank y -> (x <? y)%float = true.
Proof.
  intros Hx Hy H. rewrite ltb_spec. unfold SFltb.
  destruct (SFcompare_defined _ _ Hx Hy) as [c E]. rewrite E.
  pose proof (SFcompare_rank _ _ _ (Prim2SF_valid x) (Prim2SF_valid y) E) as R.
  unfold rank in H.
  destruct c; [apply Z.compare_eq_iff in R; lia | reflexivity
              | apply Z.compare_gt_iff in R; lia].
Qed.

Lemma rank_leb (x y : float) :
  Prim2SF x <> S754_nan -> Prim2SF y <> S754_nan ->
  rank x <= rank y -> (x <=? y)%float = true.
Proof.
  intros Hx Hy H. rewrite leb_spec. unfold SFleb.
  destruct (SFcompare_defined _ _ Hx Hy) as [c E]. rewrite E.
  pose proof (SFcompare_rank _ _ _ (Prim2SF_valid x) (Prim2SF_valid y) E) as R.
  unfold rank in H.
  destruct c; [reflexivity | reflexivity | apply Z.compare_gt_iff in R; lia].
Qed.

Lemma ltb_not_nan (x y : float) :
  (x <? y)%float = true -> Prim2SF y <> S754_nan.
Proof.
  rewrite ltb_spec. unfold SFltb. intros H E. rewrite E in H.
  destruct (Prim2SF x); discriminate.
Qed.

Lemma leb_not_nan (x y : float) :
  (x <=? y)%float = true -> Prim2SF x <> S754_nan /\ Prim2SF y <> S754_nan.
Proof.
  rewrite leb_spec. unfold SFleb. intros H.
  split; intros E; rewrite E in H; [|destruct (Prim2SF x)]; discriminate.
Qed.

(** A number of sides from 1 to below [2^52] is a normal number with a
    negative exponent. *)
Lemma sides_in_range (sides : float) :
  (1 <=? sides)%float = true -> (sides <? 0x1p+52)%float = true ->
  exists m e, Prim2SF sides = S754_finite false m e /\ -1074 < e <= -1.
Proof.
  intros H1 H2. apply leb_rank in H1. apply ltb_rank in H2.
  assert (R1 : rank 1 = 1023 * 2 ^ 53 + 2 ^ 52) by reflexivity.
  assert (R2 : rank 0x1p+52 = 1075 * 2 ^ 53 + 2 ^ 52) by reflexivity.
  rewrite R1 in H1. rewrite R2 in H2. clear R1 R2.
  unfold rank in *. pose proof (Prim2SF_valid sides) as V.
  destruct (Prim2SF sides) as [s|s| |s m e]; cbn [SF_rank valid_binary] in *.
  - lia.
  - destruct s; cbn [cond_Zopp] in *; lia.
  - lia.
  - pose proof (bounded_range m e V) as [M Erange].
    destruct s; cbn [cond_Zopp] in *; [lia|].
    exists m, e. split; [reflexivity|].
    assert (e <= 0) by lia.
    destruct (Z.eq_dec e 0) as [->|]; [|lia].
    destruct (bounded_normal m 0 V ltac:(lia)) as [_ L]. lia.
Qed.

(** A loop variable from 0 to [2 pi] is a zero or a positive number of
    exponent at most -50. *)
Lemma angle_in_range (r : float) :
  (0 <=? r)%float = true -> (r <=? Math_PI * 2)%float = true ->
  (exists s, Prim2SF r = S754_zero s)
  \/ exists m e, Prim2SF r = S754_finite false m e /\ e <= -50.
Proof.
  intros H0 H1. pose proof (proj2 (leb_not_nan _ _ H0)) as Hn.
  apply leb_rank in H0. apply leb_rank in H1.
  assert (R0 : rank 0 = 0) by reflexivity.
  assert (R1 : rank (Math_PI * 2) = 1025 * 2 ^ 53 + 7074237752028440)
    by reflexivity.
  rewrite R0 in H0. rewrite R1 in H1. clear R0 R1.
  unfold rank in *. pose proof (Prim2SF_valid r) as V.
  destruct (Prim2SF r) as [s|s| |s m e]; cbn [SF_rank valid_binary] in *.
  - left. now exists s.
  - destruct s; cbn [cond_Zopp] in *; lia.
  - congruence.
  - pose proof (bounded_range m e V) as [M Erange].
    destruct s; cbn [cond_Zopp] in *; [lia|].
    right. exists m, e. split; [reflexivity|lia].
Qed.

(** The step of [polygon] for such a number of sides. *)
Lemma step_in_range (sides : float) :
  (1 <=? sides)%float = true -> (sides <? 0x1p+52)%float = true ->
  Prim2SF (Math_PI * 2 / sides) = S754_infinity false
  \/ exists m e,
       Prim2SF (Math_PI * 2 / sides) = S754_finite false m e
       /\ -102 <= e /\ 2 ^ 52 <= Zpos m /\ bounded prec emax m e = true.
Proof.
  intros H1 H2.
  destruct (sides_in_range sides H1 H2) as (m2 & e2 & E2 & He2).
  pose proof (Prim2SF_valid sides) as V2. rewrite E2 in V2.
  pose proof (Prim2SF_valid (Math_PI * 2 / sides)) as V.
  rewrite div_spec, E2 in *.
  change (Prim2SF (Math_PI * 2)) with (S754_finite false 7074237752028440 (-50)) in *.
  destruct (SFdiv_two_pi_lower m2 e2 V2 He2) as [R|(m & e & R & He)];
    unfold SF64div in *; rewrite R in *; [now left|right].
  exists m, e. split; [reflexivity|]. split; [exact He|].
  cbn [valid_binary] in V.
  split; [|exact V].
  apply (bounded_normal m e V). lia.
Qed.

(** For a number of sides from 1 to below [2^52], every iteration of the
    loop of [polygon] strictly increases the loop variable. *)
Lemma step_increases (sides r : float) :
  (1 <=? sides)%float = true -> (sides <? 0x1p+52)%float = true ->
  (0 <=? r)%float = true -> (r <=? Math_PI * 2)%float = true ->
  (r <? r + Math_PI * 2 / sides)%float = true.
Proof.
  intros H1 H2 Hr0 Hr1.
  pose proof (proj2 (leb_not_nan _ _ Hr0)) as Hn.
  pose proof (Prim2SF_valid r) as Vr.
  assert (S : Prim2SF (r + Math_PI * 2 / sides) <> S754_nan
              /\ rank r < rank (r + Math_PI * 2 / sides)).
  { unfold rank. rewrite add_spec. unfold SF64add.
    destruct (angle_in_range r Hr0 Hr1) as [(s & Er)|(mr & er & Er & Her)];
      destruct (step_in_range sides H1 H2) as [Es|(ms & es & Es & Hes & Hms & Bs)];
      rewrite Er, Es in *; cbn [SFadd SF_rank cond_Zopp valid_binary] in *.
    - split; [discriminate|lia].
    - pose proof (bounded_range ms es Bs). split; [discriminate|lia].
    - pose proof (bounded_range mr er Vr). split; [discriminate|lia].
    - destruct (SFadd_increases mr ms er es Vr Bs ltac:(lia) Hms)
        as [R|(m & e & R & Hrank)]; cbn [SFadd cond_Zopp] in R; rewrite R;
        cbn [SF_rank cond_Zopp].
      + pose proof (bounded_range mr er Vr). split; [discriminate|lia].
      + split; [discriminate|exact Hrank]. }
  destruct S as [Hs Hrank]. now apply rank_ltb.
Qed.

Lemma visits_nonnegative (sides r : float) :
  (1 <=? sides)%float = true -> (sides <? 0x1p+52)%float = true ->
  visits sides r -> (0 <=? r)%float = true.
Proof.
  intros H1 H2 Hv. induction Hv as [|r Hv IH E]; [reflexivity|].
  pose proof (step_increases sides r H1 H2 IH E) as Hlt.
  apply rank_leb; [discriminate | exact (ltb_not_nan _ _ Hlt) |].
  apply leb_rank in IH. apply ltb_rank in Hlt. lia.
Qed.

Lemma step_positive (sides : float) :
  (1 <=? sides)%float = true -> (sides <? 0x1p+52)%float = true ->
  (0 <? Math_PI * 2 / sides)%float = true.
Proof.
  intros H1 H2.
  assert (E : (0 + Math_PI * 2 / sides)%float = (Math_PI * 2 / sides)%float).
  { apply Prim2SF_inj. rewrite add_spec.
    destruct (step_in_range sides H1 H2) as [Es|(ms & es & Es & _)];
      rewrite Es; reflexivity. }
  rewrite <- E. apply (step_increases sides 0 H1 H2); reflexivity.
Qed.

End PolygonProgress.


(** C10, amended.  For a number of sides from 1 to below [2^52], the step
    [2 pi / sides] is strictly positive, each iteration of the loop of
    [polygon] strictly increases the loop variable, and the loop
    terminates. *)
Theorem polygon_loop_terminates (Math_cos Math_sin : float -> float)
    (radius sides : float) (color0 : list float) :
  (1 <=? sides)%float = true ->
  (sides <? 0x1p+52)%float = true ->
  (0 <? Math_PI * 2 / sides)%float = true
  /\ strictly_increasing sides
  /\ exists fuel wireframe,
       polygon_loop Math_cos Math_sin fuel radius sides color0 0 empty_wireframe
       = Some wireframe.
Proof.
  intros H1 H2.
  assert (Hinc : strictly_increasing sides).
  { intros r Hv E. apply (step_increases sides r H1 H2); [|exact E].
    now apply (visits_nonnegative sides). }
  split; [now apply step_positive|]. split; [exact Hinc|].
  apply (polygon_loop_measure Math_cos Math_sin radius sides color0
           (Z.to_nat (rank (Math_PI * 2)%float - rank 0%float + 1)));
    [exact Hinc | constructor | lia].
Qed.


(** The renderer's own call, [polygon(_, 8, ...)]: the values of the loop
    variable, the last one being the first above [2 pi]. *)
Definition octagon_angles : list float :=
  let step := (Math_PI * 2 / 8)%float in
  let next r := (r + step)%float in
  [0%float; next 0%float; Nat.iter 2 next 0%float; Nat.iter 3 next 0%float;
   Nat.iter 4 next 0%float; Nat.iter 5 next 0%float; Nat.iter 6 next 0%float;
   Nat.iter 7 next 0%float; Nat.iter 8 next 0%float; Nat.iter 9 next 0%float].

Lemma polygon_loop_terminates_witness :
  (1 <=? 8)%float = true
  /\ (8 <? 0x1p+52)%float = true
  /\ (0 <? Math_PI * 2 / 8)%float = true
  /\ strictly_increasing 8
  /\ exists fuel wireframe,
       polygon_loop Stub.Math_cos Stub.Math_sin fuel 1 8 [0; 1; 0; 1]%float 0
         empty_wireframe = Some wireframe.
Proof.
  split; [reflexivity|]. split; [reflexivity|].
  exact (polygon_loop_terminates Stub.Math_cos Stub.Math_sin 1 8 [0; 1; 0; 1]%float
           eq_refl eq_refl).
Defined.

(** ** What a method leaves alone *)

(** [keeps view m]: running [m] does not change [view], whatever the
    outcome (a result, an exception, or no fuel left). *)
Definition keeps {V A} (view : state -> V) (m : M state A) : Prop :=
  forall s, view (snd (m s)) = view s.

(** A view of the state that the two contexts' logs and the document's
    log are not part of. *)
Class Untouched {V} (view : state -> V) : Prop := {
  untouched_gl : forall f s, view (with_gl f s) = view s;
  untouched_canvas_2d : forall f s, view (with_canvas_2d f s) = view s;
  untouched_dom_log : forall f s, view (with_dom_log f s) = view s
}.

(** The aspect ratio, the canvases' pixel sizes and the body's size. *)
Definition layout_view (s : state) : float * (Z * Z) * (Z * Z) * (Z * Z) :=
  (aspect_ratio s, (game_width s, game_height s),
   (text_width s, text_height s), body_client s).

Definition fps_view (s : state) : Z * Z * Z :=
  (fps_count s, fps_rate s, fps_last s).

#[export] Instance layout_view_untouched : Untouched layout_view.
Proof. split; reflexivity. Qed.

#[export] Instance fps_view_untouched : Untouched fps_view.
Proof. split; reflexivity. Qed.

Section Keeps.

Context {V : Type} (view : state -> V).

Lemma keeps_ret {A} (a : A) : keeps view (ret a).
Proof. intros s. reflexivity. Qed.

Lemma keeps_throw {A} (e : string) : keeps view (@throw state A e).
Proof. intros s. reflexivity. Qed.

Lemma keeps_out_of_fuel {A} : keeps view (fun s => (@OutOfFuel A, s)).
Proof. intros s. reflexivity. Qed.

Lemma keeps_gets {A} (f : state -> A) : keeps view (gets f).
Proof. intros s. reflexivity. Qed.

Lemma keeps_bind {A B} (m : M state A) (k : A -> M state B) :
  keeps view m -> (forall a, keeps view (k a)) -> keeps view (bind m k).
Proof.
  intros Hm Hk s. unfold bind. specialize (Hm s).
  destruct (m s) as [[a|e|] s1]; cbn [snd] in *; [|exact Hm|exact Hm].
  now rewrite Hk.
Qed.

(** The view after [m ;; k] is the view after [m] when [k] keeps it. *)
Lemma view_bind {A B} (m : M state A) (k : A -> M state B) (s : state) :
  (forall a, keeps view (k a)) ->
  view (snd (bind m k s)) = view (snd (m s)).
Proof.
  intros Hk. unfold bind.
  destruct (m s) as [[a|e|] s1]; cbn [snd]; [apply Hk|reflexivity|reflexivity].
Qed.

Lemma keeps_for_number fuel test next (body : float -> M state unit) :
  (forall r, keeps view (body r)) ->
  forall r, keeps view (for_number fuel test next body r).
Proof.
  intros Hb. induction fuel as [|fuel IH]; intros r; cbn [for_number].
  - apply keeps_out_of_fuel.
  - apply keeps_bind; [apply keeps_gets|]. intros [|]; [|apply keeps_ret].
    apply keeps_bind; [apply Hb|]. intros _. apply IH.
Qed.

Context `{!Untouched view}.

Lemma keeps_gl_do c f : keeps view (gl_do c f).
Proof. intros s. apply untouched_gl. Qed.

Lemma keeps_c2d c : keeps view (c2d c).
Proof. intros s. apply untouched_canvas_2d. Qed.

Lemma keeps_dom c : keeps view (dom c).
Proof. intros s. apply untouched_dom_log. Qed.

End Keeps.

(** Break a method into its calls and close each with the lemmas above. *)
Ltac keeps_step :=
  first
    [ apply keeps_ret | apply keeps_throw | apply keeps_gets
    | apply keeps_out_of_fuel
    | apply keeps_gl_do; solve [typeclasses eauto]
    | apply keeps_c2d; solve [typeclasses eauto]
    | apply keeps_dom; solve [typeclasses eauto]
    | apply keeps_bind; [|intro]
    | apply keeps_for_number; intro
    | assumption
    | lazymatch goal with
      | |- keeps _ (if ?b then _ else _) => destruct b
      | |- keeps _ (match ?x with _ => _ end) => destruct x
      end ].

Ltac keeps_all := repeat keeps_step.

Section KeepsMethods.

Variable driver : Driver.
Variable browser : Browser.
Variables Math_cos Math_sin : float -> float.
Context {V : Type} (view : state -> V) `{!Untouched view}.

Lemma keeps_attribute prog key value size :
  keeps view (attribute driver prog key value size).
Proof.
  unfold attribute, gl_createBuffer, gl_getAttribLocation, gl_issue. keeps_all.
Qed.

Lemma keeps_uniform prog key value :
  keeps view (uniform driver prog key value).
Proof.
  unfold uniform, gl_getUniformLocation, gl_issue. keeps_all.
Qed.

Lemma keeps_draw w position rotation size :
  keeps view (draw driver w position rotation size).
Proof.
  unfold draw, gl_issue.
  repeat lazymatch goal with
  | |- keeps _ (attribute _ _ _ _ _) => apply keeps_attribute
  | |- keeps _ (uniform _ _ _ _) => apply keeps_uniform
  | _ => keeps_step
  end.
Qed.

Lemma keeps_line x y rotation color :
  keeps view (line driver Math_cos Math_sin x y rotation color).
Proof. unfold line. keeps_step; [keeps_step|]. apply keeps_draw. Qed.

Lemma keeps_polygon fuel radius sides position rotation color :
  keeps view (polygon driver Math_cos Math_sin fuel radius sides position rotation color).
Proof.
  unfold polygon. destruct polygon_loop; [apply keeps_draw|apply keeps_out_of_fuel].
Qed.

Lemma keeps_text x y text color font :
  keeps view (_text browser x y text color font).
Proof. unfold _text. keeps_all. Qed.

Lemma keeps_grid fuel : keeps view (_grid driver Math_cos Math_sin fuel).
Proof.
  unfold _grid.
  repeat lazymatch goal with
  | |- keeps _ (line _ _ _ _ _ _ _) => apply keeps_line
  | _ => keeps_step
  end.
Qed.

Lemma keeps_drawBody fuel body :
  keeps view (drawBody driver browser Math_cos Math_sin fuel body).
Proof.
  unfold drawBody.
  repeat lazymatch goal with
  | |- keeps _ (bind _ _) => apply keeps_bind; [|intro]
  | |- keeps _ (toFixed _ ?v _) => unfold toFixed; destruct v
  | |- keeps _ (draw _ _ _ _ _) => apply keeps_draw
  | |- keeps _ (polygon _ _ _ _ _ _ _ _ _) => apply keeps_polygon
  | |- keeps _ (_text _ _ _ _ _ _) => apply keeps_text
  | _ => keeps_step
  end.
Qed.

Lemma keeps_fullscreen : keeps view fullscreen.
Proof. unfold fullscreen. keeps_all. Qed.

End KeepsMethods.

(** ** The renderer's operations, as the game loop calls them *)

Inductive op : Type :=
| OpClear (now : Z)
| OpDraw (w : Wireframe) (position : list float) (rotation size : float)
| OpDrawBody (body : Body)
| OpLine (x y rotation : float) (color : list float)
| OpPolygon (radius sides : float) (position : list float) (rotation : float)
    (color : list float)
| OpText (x y : float) (text : string) (color font : option string)
| OpGrid
| OpFullscreen
| OpResize.

Definition is_resize (o : op) : bool :=
  match o with OpResize => true | _ => false end.

Definition is_clear (o : op) : bool :=
  match o with OpClear _ => true | _ => false end.

(** The calls that draw a shape. *)
Definition is_draw (o : op) : bool :=
  match o with
  | OpDraw _ _ _ _ | OpDrawBody _ | OpLine _ _ _ _ | OpPolygon _ _ _ _ _ => true
  | _ => false
  end.

(** How many of the operations are [clear] calls, and how many draw. *)
Definition clears (ops : list op) : Z :=
  Z.of_nat (length (List.filter is_clear ops)).

Definition draws (ops : list op) : Z :=
  Z.of_nat (length (List.filter is_draw ops)).

(** A [clear] at which less than 1000 ms have passed since [last]. *)
Definition in_window (last : Z) (o : op) : Prop :=
  match o with
  | OpClear now => now - last < 1000
  | _ => True
  end.

Section Operations.

Variable driver : Driver.
Variable browser : Browser.
Variables Math_cos Math_sin : float -> float.

Definition perform (fuel : nat) (o : op) : M state unit :=
  match o with
  | OpClear now => clear driver browser Math_cos Math_sin fuel now
  | OpDraw w position rotation size => draw driver w position rotation size
  | OpDrawBody body => drawBody driver browser Math_cos Math_sin fuel body
  | OpLine x y rotation color => line driver Math_cos Math_sin x y rotation color
  | OpPolygon radius sides position rotation color =>
      polygon driver Math_cos Math_sin fuel radius sides position rotation color
  | OpText x y text color font => _text browser x y text color font
  | OpGrid => _grid driver Math_cos Math_sin fuel
  | OpFullscreen => fullscreen
  | OpResize => resize browser
  end.

(** The operations one after the other; an exception ends the run. *)
Definition run (fuel : nat) (ops : list op) : M state unit :=
  forEach (perform fuel) ops.

(** The aspect ratio is the quotient of the client sizes of the GPU
    canvas, and the two canvases have the same pixel sizes. *)
Definition synced (s : state) : Prop :=
  aspect_ratio s
  = (number_of_int (fst (game_client browser s))
     / number_of_int (snd (game_client browser s)))%float
  /\ game_width s = text_width s
  /\ game_height s = text_height s.

Lemma synced_layout_view (s s' : state) :
  layout_view s' = layout_view s -> synced s -> synced s'.
Proof.
  unfold layout_view, synced, game_client. intros E.
  injection E as -> -> -> -> -> ->. tauto.
Qed.

Lemma resize_spec (s : state) :
  let bw := fst (body_client s) in
  let bh := snd (body_client s) in
  let client := canvas_client browser "game" (body_client s) (bw, bh) in
  exists s',
    resize browser s = (Ok tt, s')
    /\ layout_view s'
       = ((number_of_int (fst client) / number_of_int (snd client))%float,
          (bw, bh), (bw, bh), body_client s)
    /\ gl_viewport (gl s') = (0, 0, fst client, snd client)
    /\ gl_log (gl s')
       = (gl_log (gl s) ++ [Viewport 0 0 (fst client) (snd client)])%list
    /\ fps_view s' = fps_view s.
Proof.
  intros bw bh client. eexists. split; [reflexivity|].
  repeat split.
Qed.

Lemma resize_synced (s : state) : synced (snd (resize browser s)).
Proof.
  destruct (resize_spec s) as (s' & E & L & _). rewrite E. cbn [snd].
  unfold layout_view in L. injection L as Ha Hgw Hgh Htw Hth Hb.
  unfold synced, game_client. rewrite Ha, Hgw, Hgh, Htw, Hth, Hb.
  repeat split.
Qed.

Lemma keeps_clear_layout fuel now :
  keeps layout_view (clear driver browser Math_cos Math_sin fuel now).
Proof.
  unfold clear, gl_issue.
  repeat lazymatch goal with
  | |- keeps _ (_grid _ _ _ _) => apply keeps_grid; typeclasses eauto
  | |- keeps _ (_text _ _ _ _ _ _) => apply keeps_text; typeclasses eauto
  | |- keeps _ (modify _) => intros s; reflexivity
  | _ => keeps_step
  end.
Qed.

Lemma keeps_resize_fps : keeps fps_view (resize browser).
Proof. intros s. destruct (resize_spec s) as (s' & E & _ & _ & _ & F). now rewrite E. Qed.

(** Every operation but [resize] keeps the layout. *)
Lemma perform_keeps_layout fuel o :
  is_resize o = false -> keeps layout_view (perform fuel o).
Proof.
  destruct o; cbn [is_resize perform]; intros H; try discriminate H.
  - apply keeps_clear_layout.
  - apply keeps_draw; typeclasses eauto.
  - apply keeps_drawBody; typeclasses eauto.
  - apply keeps_line; typeclasses eauto.
  - apply keeps_polygon; typeclasses eauto.
  - apply keeps_text; typeclasses eauto.
  - apply keeps_grid; typeclasses eauto.
  - apply keeps_fullscreen; typeclasses eauto.
Qed.

(** Every operation but [clear] keeps the FPS window. *)
Lemma perform_keeps_fps fuel o :
  is_clear o = false -> keeps fps_view (perform fuel o).
Proof.
  destruct o; cbn [is_clear perform]; intros H; try discriminate H.
  - apply keeps_draw; typeclasses eauto.
  - apply keeps_drawBody; typeclasses eauto.
  - apply keeps_line; typeclasses eauto.
  - apply keeps_polygon; typeclasses eauto.
  - apply keeps_text; typeclasses eauto.
  - apply keeps_grid; typeclasses eauto.
  - apply keeps_fullscreen; typeclasses eauto.
  - apply keeps_resize_fps.
Qed.

End Operations.

Lemma bind_Ok_inv {S A B} (m : M S A) (k : A -> M S B) (s s' : S) (b : B) :
  bind m k s = (Ok b, s') ->
  exists a s1, m s = (Ok a, s1) /\ k a s1 = (Ok b, s').
Proof.
  unfold bind. destruct (m s) as [[a|e|] s1]; intros E; try discriminate E.
  now exists a, s1.
Qed.

Section Lifecycle.

Variable driver : Driver.
Variable browser : Browser.
Variables Math_cos Math_sin : float -> float.

Lemma constructor_synced vertex fragment now s s' :
  constructor driver browser vertex fragment now s = (Ok tt, s') ->
  synced browser s'.
Proof.
  unfold constructor. intros E.
  apply bind_Ok_inv in E as (? & s1 & _ & E).
  apply bind_Ok_inv in E as (? & s2 & _ & E).
  destruct (negb (webgl_supported browser) || negb (context_2d_supported browser));
    [discriminate E|].
  apply bind_Ok_inv in E as (vs & s3 & _ & E).
  apply bind_Ok_inv in E as (fs & s4 & _ & E).
  apply bind_Ok_inv in E as (prog & s5 & _ & E).
  apply bind_Ok_inv in E as (? & s6 & _ & E).
  apply bind_Ok_inv in E as (? & s7 & _ & E).
  apply bind_Ok_inv in E as (? & s8 & _ & E).
  apply bind_Ok_inv in E as (? & s9 & R & E).
  pose proof (resize_synced browser s8) as Hs. rewrite R in Hs. cbn [snd] in Hs.
  injection E as <-.
  eapply synced_layout_view; [|exact Hs]. reflexivity.
Qed.

(** The FPS window after a [clear]. *)
Lemma clear_fps fuel now s :
  fps_view (snd (clear driver browser Math_cos Math_sin fuel now s))
  = if now - fps_last s <? 1000
    then (fps_count s + 1, fps_rate s, fps_last s)
    else (0, fps_count s, now).
Proof.
  unfold clear.
  rewrite (bind_Ok _ _ s s (fps_last s)) by reflexivity.
  rewrite view_bind.
  - destruct (now - fps_last s <? 1000); [reflexivity|].
    cbn. now rewrite Z.div_1_r.
  - intros _. unfold gl_issue.
    repeat lazymatch goal with
    | |- keeps _ (_grid _ _ _ _) => apply keeps_grid; typeclasses eauto
    | |- keeps _ (_text _ _ _ _ _ _) => apply keeps_text; typeclasses eauto
    | _ => keeps_step
    end.
Qed.

(** A successful run of operations whose [clear]s all fall inside the
    window counts them and changes nothing else of the window. *)
Lemma run_fps fuel ops : forall s s',
  Forall (in_window (fps_last s)) ops ->
  run driver browser Math_cos Math_sin fuel ops s = (Ok tt, s') ->
  fps_view s'
  = (fps_count s + clears ops, fps_rate s, fps_last s).
Proof.
  induction ops as [|o ops IH]; intros s s' Hw E.
  - injection E as <-. unfold fps_view. cbn. now rewrite Z.add_0_r.
  - unfold run in E. cbn [forEach] in E.
    apply bind_Ok_inv in E as ([] & s1 & E1 & E).
    inversion Hw as [|? ? Ho Hops]; subst.
    assert (V1 : fps_view s1
                 = (fps_count s + (if is_clear o then 1 else 0),
                    fps_rate s, fps_last s)).
    { replace s1 with (snd (perform driver browser Math_cos Math_sin fuel o s))
        by now rewrite E1.
      destruct (is_clear o) eqn:C.
      - destruct o; try discriminate C. cbn [perform in_window] in *.
        rewrite clear_fps.
        destruct (Z.ltb_spec (now - fps_last s) 1000); [reflexivity|lia].
      - rewrite perform_keeps_fps by exact C. unfold fps_view.
        now rewrite Z.add_0_r. }
    unfold fps_view in V1. injection V1 as Hc Hr Hl.
    rewrite (IH s1 s'); [| now rewrite Hl | exact E].
    rewrite Hc, Hr, Hl. unfold clears. cbn [List.filter].
    destruct (is_clear o); cbn [length]; f_equal; f_equal; lia.
Qed.

End Lifecycle.

(** ** [resize] and the layout *)

(** C7. Two [resize] calls in a row (the body's client size is the same at
    both) both return, and after the second the aspect ratio, the pixel
    sizes of the two canvases and the viewport are what they were after
    the first. *)
Theorem resize_idempotent (browser : Browser) (s : state) :
  let once := resize browser s in
  let twice := resize browser (snd once) in
  fst once = Ok tt
  /\ fst twice = Ok tt
  /\ body_client (snd once) = body_client s
  /\ aspect_ratio (snd twice) = aspect_ratio (snd once)
  /\ game_width (snd twice) = game_width (snd once)
  /\ game_height (snd twice) = game_height (snd once)
  /\ text_width (snd twice) = text_width (snd once)
  /\ text_height (snd twice) = text_height (snd once)
  /\ gl_viewport (gl (snd twice)) = gl_viewport (gl (snd once)).
Proof.
  intros once twice. subst twice once.
  destruct (resize_spec browser s) as (s1 & E1 & L1 & V1 & _).
  rewrite E1. cbn [fst snd].
  destruct (resize_spec browser s1) as (s2 & E2 & L2 & V2 & _).
  rewrite E2. cbn [fst snd].
  unfold layout_view in L1, L2.
  injection L1 as A1 GW1 GH1 TW1 TH1 B1.
  injection L2 as A2 GW2 GH2 TW2 TH2 B2.
  rewrite B1 in *.
  repeat split; congruence.
Qed.

(** C8. After every [resize], and after a construction that succeeds, the
    aspect ratio is clientWidth / clientHeight of the GPU canvas and the two
    canvases have the same pixel sizes; every other operation of the
    renderer leaves the aspect ratio and the four pixel sizes as they were,
    whatever its outcome, and so keeps that state of affairs. *)
Theorem layout_invariant (driver : Driver) (browser : Browser)
    (Math_cos Math_sin : float -> float) :
  (forall s,
     fst (resize browser s) = Ok tt /\ synced browser (snd (resize browser s)))
  /\ (forall vertex fragment now s s',
        constructor driver browser vertex fragment now s = (Ok tt, s') ->
        synced browser s')
  /\ (forall fuel o s,
        is_resize o = false ->
        let s' := snd (perform driver browser Math_cos Math_sin fuel o s) in
        aspect_ratio s' = aspect_ratio s
        /\ game_width s' = game_width s /\ game_height s' = game_height s
        /\ text_width s' = text_width s /\ text_height s' = text_height s
        /\ (synced browser s -> synced browser s')).
Proof.
  split; [|split].
  - intros s. split; [|apply resize_synced].
    destruct (resize_spec browser s) as (s' & E & _). now rewrite E.
  - intros vertex fragment now s s'. apply constructor_synced.
  - intros fuel o s Ho s'.
    pose proof (perform_keeps_layout driver browser Math_cos Math_sin fuel o Ho s) as L.
    fold s' in L.
    pose proof (synced_layout_view browser s s' L) as Hs.
    unfold layout_view in L. injection L as A GW GH TW TH B.
    repeat (split; [assumption|]). exact Hs.
Qed.

Lemma layout_invariant_witness :
  constructor Stub.driver Stub.browser "void main(){}" "void main(){}" 0 (page (800, 600))
  = (Ok tt, Stub.ready)
  /\ synced Stub.browser Stub.ready
  /\ is_resize (OpClear 16) = false
  /\ aspect_ratio
       (snd (perform Stub.driver Stub.browser Stub.Math_cos Stub.Math_sin 0
               (OpClear 16) Stub.ready))
     = aspect_ratio Stub.ready.
Proof.
  assert (E : constructor Stub.driver Stub.browser "void main(){}" "void main(){}" 0
                (page (800, 600)) = (Ok tt, Stub.ready))
    by (vm_compute; reflexivity).
  pose proof (layout_invariant Stub.driver Stub.browser Stub.Math_cos Stub.Math_sin)
    as (_ & Hc & Ho).
  split; [exact E|]. split; [exact (Hc _ _ _ _ _ E)|]. split; [reflexivity|].
  exact (proj1 (Ho 0%nat (OpClear 16) Stub.ready eq_refl)).
Defined.

(** ** The FPS window *)

Module Example.

Definition ship : Wireframe :=
  {| bounds := 0.125;
     color := [1; 1; 1; 1]%float;
     shape := [0; 0.125; -0.0625; -0.0625; 0.0625; -0.0625; 0; 0.125]%float |}.

Definition draw_ship : op := OpDraw ship [0; 0]%float 0 1.

Definition step (o : op) : M state unit :=
  perform Stub.driver Stub.browser Stub.Math_cos Stub.Math_sin 0 o.

(** The renderer was constructed at time 0; the [clear] at 1000 ms closes
    the first window. *)
Definition reset : state := snd (step (OpClear 1000) Stub.ready).

(** Two frames of two draws each, then the frame that starts one second
    after the reset. *)
Definition second : list op :=
  [draw_ship; draw_ship; OpClear 1500; draw_ship; draw_ship].

Definition after_second : outcome unit * state :=
  run Stub.driver Stub.browser Stub.Math_cos Stub.Math_sin 0 second reset.

End Example.

(** C2, as stated, fails.  After the reset at 1000 ms the [clear] calls at
    1500 ms and 2000 ms span the rest of the second, with four draws in
    two frames between the reset and the boundary; the [clear] at 2000 ms
    sets the rate to 1, the number of [clear] calls that found the window
    open, and neither to 4 nor to 2. *)
Lemma fps_rate_is_not_the_draw_count :
  fps_view Example.reset = (0, 0, 1000)
  /\ fst Example.after_second = Ok tt
  /\ draws Example.second = 4
  /\ clears Example.second = 1
  /\ fps_view (snd (Example.step (OpClear 2000) (snd Example.after_second)))
     = (0, 1, 2000)
  /\ fps_rate (snd (Example.step (OpClear 2000) (snd Example.after_second)))
     <> draws Example.second.
Proof.
  repeat split; try (vm_compute; reflexivity).
  vm_compute. discriminate.
Qed.

(** C2, amended.  In a run of operations from any state, each [clear] at
    which less than 1000 ms have passed since the last reset adds one to
    [fps.count], and no other operation changes the window; the first
    [clear] at which at least 1000 ms have passed then sets [fps.rate] to
    that count (the count at the start plus the number of those [clear]
    calls, whatever was drawn in between), [fps.count] to 0 and the reset
    time to the current time. *)
Theorem fps_window (driver : Driver) (browser : Browser)
    (Math_cos Math_sin : float -> float)
    (fuel : nat) (ops : list op) (s s' : state) (now : Z) :
  Forall (in_window (fps_last s)) ops ->
  run driver browser Math_cos Math_sin fuel ops s = (Ok tt, s') ->
  1000 <= now - fps_last s ->
  fps_count s' = fps_count s + clears ops
  /\ fps_rate s' = fps_rate s
  /\ fps_last s' = fps_last s
  /\ let s'' := snd (clear driver browser Math_cos Math_sin fuel now s') in
     fps_rate s'' = fps_count s + clears ops
     /\ fps_count s'' = 0
     /\ fps_last s'' = now.
Proof.
  intros Hw E Hnow.
  pose proof (run_fps driver browser Math_cos Math_sin fuel ops s s' Hw E) as V.
  unfold fps_view in V. injection V as Hc Hr Hl.
  repeat split; try assumption.
  all: pose proof (clear_fps driver browser Math_cos Math_sin fuel now s') as C;
    rewrite Hl in C;
    destruct (Z.ltb_spec (now - fps_last s) 1000); [lia|];
    unfold fps_view in C; injection C as Cc Cr Cl; congruence.
Qed.

Lemma fps_window_witness :
  Forall (in_window (fps_last Example.reset)) Example.second
  /\ run Stub.driver Stub.browser Stub.Math_cos Stub.Math_sin 0
       Example.second Example.reset
     = (Ok tt, snd Example.after_second)
  /\ 1000 <= 2000 - fps_last Example.reset
  /\ fps_count (snd Example.after_second) = fps_count Example.reset + clears Example.second
  /\ fps_rate (snd (clear Stub.driver Stub.browser Stub.Math_cos Stub.Math_sin 0 2000
                      (snd Example.after_second)))
     = fps_count Example.reset + clears Example.second.
Proof.
  assert (Hw : Forall (in_window (fps_last Example.reset)) Example.second)
    by (repeat constructor; vm_compute; reflexivity).
  assert (E : run Stub.driver Stub.browser Stub.Math_cos Stub.Math_sin 0
                Example.second Example.reset
              = (Ok tt, snd Example.after_second))
    by (vm_compute; reflexivity).
  assert (Hn : 1000 <= 2000 - fps_last Example.reset)
    by (vm_compute; discriminate).
  split; [exact Hw|]. split; [exact E|]. split; [exact Hn|].
  pose proof (fps_window Stub.driver Stub.browser Stub.Math_cos Stub.Math_sin 0
                Example.second Example.reset (snd Example.after_second) 2000
                Hw E Hn) as H.
  cbv zeta in H. split; [apply H | apply H].
Defined.

(** * Further properties of the renderer *)

(** ** Construction *)

(** The context after one more object name has been handed out and the
    shader table changed by [f]. *)
Definition with_new_shader (f : gmap N shader_obj -> gmap N shader_obj)
    (s : state) : state :=
  with_gl (fun g => gl_with_shaders f (gl_fresh g)) s.

Definition with_new_program (f : gmap N program_obj -> gmap N program_obj)
    (s : state) : state :=
  with_gl (fun g => gl_with_programs f (gl_fresh g)) s.

(** Two states are equal when their WebGL contexts are and the rest is. *)
Definition beside_gl (s : state) :=
  (canvas_2d s, body_client s, (game_width s, game_height s),
   (text_width s, text_height s), dom_log s, fps_view s,
   (debug s, program s, aspect_ratio s)).

Lemma state_ext (s1 s2 : state) :
  gl s1 = gl s2 -> beside_gl s1 = beside_gl s2 -> s1 = s2.
Proof.
  destruct s1, s2. unfold beside_gl, fps_view. cbn. intros -> E.
  injection E as -> -> -> -> -> -> -> -> -> -> -> -> ->. reflexivity.
Qed.

Lemma gl_state_ext (g1 g2 : gl_state) :
  gl_next g1 = gl_next g2 -> gl_shaders g1 = gl_shaders g2 ->
  gl_programs g1 = gl_programs g2 -> gl_buffers g1 = gl_buffers g2 ->
  gl_viewport g1 = gl_viewport g2 -> gl_log g1 = gl_log g2 ->
  g1 = g2.
Proof. destruct g1, g2. cbn. now intros -> -> -> -> -> ->. Qed.

(** Recording calls only extends the log. *)
Lemma fold_record (calls : list gl_call) : forall g,
  let g' := fold_left (fun g c => gl_record c g) calls g in
  gl_next g' = gl_next g /\ gl_shaders g' = gl_shaders g
  /\ gl_programs g' = gl_programs g /\ gl_buffers g' = gl_buffers g
  /\ gl_viewport g' = gl_viewport g /\ gl_log g' = (gl_log g ++ calls)%list.
Proof.
  induction calls as [|c calls IH]; intros g; cbn [fold_left].
  - now rewrite app_nil_r.
  - destruct (IH (gl_record c g)) as (-> & -> & -> & -> & -> & ->).
    cbn [gl_record gl_next gl_shaders gl_programs gl_buffers gl_viewport gl_log].
    now rewrite <- app_assoc.
Qed.

Lemma fold_record_next calls g :
  gl_next (fold_left (fun g c => gl_record c g) calls g) = gl_next g.
Proof. apply fold_record. Qed.

Lemma fold_record_shaders calls g :
  gl_shaders (fold_left (fun g c => gl_record c g) calls g) = gl_shaders g.
Proof. apply fold_record. Qed.

Lemma fold_record_programs calls g :
  gl_programs (fold_left (fun g c => gl_record c g) calls g) = gl_programs g.
Proof. apply fold_record. Qed.

Lemma fold_record_buffers calls g :
  gl_buffers (fold_left (fun g c => gl_record c g) calls g) = gl_buffers g.
Proof. apply fold_record. Qed.

Lemma fold_record_viewport calls g :
  gl_viewport (fold_left (fun g c => gl_record c g) calls g) = gl_viewport g.
Proof. apply fold_record. Qed.

Lemma fold_record_log calls g :
  gl_log (fold_left (fun g c => gl_record c g) calls g) = (gl_log g ++ calls)%list.
Proof. apply fold_record. Qed.

(** Compare two states built from one state by context calls: what is
    left are the fields of the context that are not the same term. *)
Ltac same_state :=
  apply state_ext; [apply gl_state_ext|reflexivity];
  unfold logged, with_new_shader, with_new_program, compile_calls, link_calls;
  cbn [gl with_gl fold_left app gl_record gl_with_shaders gl_with_programs
       gl_with_buffers gl_with_viewport gl_fresh id
       gl_next gl_shaders gl_programs gl_buffers gl_viewport gl_log];
  rewrite ?fold_left_app;
  rewrite ?fold_record_next, ?fold_record_shaders, ?fold_record_programs,
    ?fold_record_buffers, ?fold_record_viewport, ?fold_record_log;
  cbn [gl with_gl fold_left app gl_record gl_with_shaders gl_with_programs
       gl_with_buffers gl_with_viewport gl_fresh id
       gl_next gl_shaders gl_programs gl_buffers gl_viewport gl_log];
  try reflexivity.

(** *** Reading the fields of an updated state

    One equation per field and update; each holds by computation. *)

Lemma gl_next_fresh : forall g, gl_next (gl_fresh g) = N.succ (gl_next g).
Proof. reflexivity. Qed.

Lemma gl_shaders_fresh : forall g, gl_shaders (gl_fresh g) = gl_shaders g.
Proof. reflexivity. Qed.

Lemma gl_programs_fresh : forall g, gl_programs (gl_fresh g) = gl_programs g.
Proof. reflexivity. Qed.

Lemma gl_buffers_fresh : forall g, gl_buffers (gl_fresh g) = gl_buffers g.
Proof. reflexivity. Qed.

Lemma gl_viewport_fresh : forall g, gl_viewport (gl_fresh g) = gl_viewport g.
Proof. reflexivity. Qed.

Lemma gl_log_fresh : forall g, gl_log (gl_fresh g) = gl_log g.
Proof. reflexivity. Qed.

Lemma gl_next_with_shaders : forall f g, gl_next (gl_with_shaders f g) = gl_next g.
Proof. reflexivity. Qed.

Lemma gl_shaders_with_shaders : forall f g, gl_shaders (gl_with_shaders f g) = f (gl_shaders g).
Proof. reflexivity. Qed.

Lemma gl_programs_with_shaders : forall f g, gl_programs (gl_with_shaders f g) = gl_programs g.
Proof. reflexivity. Qed.

Lemma gl_buffers_with_shaders : forall f g, gl_buffers (gl_with_shaders f g) = gl_buffers g.
Proof. reflexivity. Qed.

Lemma gl_viewport_with_shaders : forall f g, gl_viewport (gl_with_shaders f g) = gl_viewport g.
Proof. reflexivity. Qed.

Lemma gl_log_with_shaders : forall f g, gl_log (gl_with_shaders f g) = gl_log g.
Proof. reflexivity. Qed.

Lemma gl_next_with_programs : forall f g, gl_next (gl_with_programs f g) = gl_next g.
Proof. reflexivity. Qed.

Lemma gl_shaders_with_programs : forall f g, gl_shaders (gl_with_programs f g) = gl_shaders g.
Proof. reflexivity. Qed.

Lemma gl_programs_with_programs : forall f g, gl_programs (gl_with_programs f g) = f (gl_programs g).
Proof. reflexivity. Qed.

Lemma gl_buffers_with_programs : forall f g, gl_buffers (gl_with_programs f g) = gl_buffers g.
Proof. reflexivity. Qed.

Lemma gl_viewport_with_programs : forall f g, gl_viewport (gl_with_programs f g) = gl_viewport g.
Proof. reflexivity. Qed.

Lemma gl_log_with_programs : forall f g, gl_log (gl_with_programs f g) = gl_log g.
Proof. reflexivity. Qed.

Lemma gl_next_with_buffers : forall f g, gl_next (gl_with_buffers f g) = gl_next g.
Proof. reflexivity. Qed.

Lemma gl_shaders_with_buffers : forall f g, gl_shaders (gl_with_buffers f g) = gl_shaders g.
Proof. reflexivity. Qed.

Lemma gl_programs_with_buffers : forall f g, gl_programs (gl_with_buffers f g) = gl_programs g.
Proof. reflexivity. Qed.

Lemma gl_buffers_with_buffers : forall f g, gl_buffers (gl_with_buffers f g) = f (gl_buffers g).
Proof. reflexivity. Qed.

Lemma gl_viewport_with_buffers : forall f g, gl_viewport (gl_with_buffers f g) = gl_viewport g.
Proof. reflexivity. Qed.

Lemma gl_log_with_buffers : forall f g, gl_log (gl_with_buffers f g) = gl_log g.
Proof. reflexivity. Qed.

Lemma gl_next_with_viewport : forall v g, gl_next (gl_with_viewport v g) = gl_next g.
Proof. reflexivity. Qed.

Lemma gl_shaders_with_viewport : forall v g, gl_shaders (gl_with_viewport v g) = gl_shaders g.
Proof. reflexivity. Qed.

Lemma gl_programs_with_viewport : forall v g, gl_programs (gl_with_viewport v g) = gl_programs g.
Proof. reflexivity. Qed.

Lemma gl_buffers_with_viewport : forall v g, gl_buffers (gl_with_viewport v g) = gl_buffers g.
Proof. reflexivity. Qed.

Lemma gl_viewport_with_viewport : forall v g, gl_viewport (gl_with_viewport v g) = v.
Proof. reflexivity. Qed.

Lemma gl_log_with_viewport : forall v g, gl_log (gl_with_viewport v g) = gl_log g.
Proof. reflexivity. Qed.

Lemma gl_next_record : forall c g, gl_next (gl_record c g) = gl_next g.
Proof. reflexivity. Qed.

Lemma gl_shaders_record : forall c g, gl_shaders (gl_record c g) = gl_shaders g.
Proof. reflexivity. Qed.

Lemma gl_programs_record : forall c g, gl_programs (gl_record c g) = gl_programs g.
Proof. reflexivity. Qed.

Lemma gl_buffers_record : forall c g, gl_buffers (gl_record c g) = gl_buffers g.
Proof. reflexivity. Qed.

Lemma gl_viewport_record : forall c g, gl_viewport (gl_record c g) = gl_viewport g.
Proof. reflexivity. Qed.

Lemma gl_log_record : forall c g, gl_log (gl_record c g) = (gl_log g ++ [c])%list.
Proof. reflexivity. Qed.

Lemma gl_logged : forall c s, gl (logged c s) = fold_left (fun g c => gl_record c g) c (gl s).
Proof. reflexivity. Qed.

Lemma canvas_2d_logged : forall c s, canvas_2d (logged c s) = canvas_2d s.
Proof. reflexivity. Qed.

Lemma dom_log_logged : forall c s, dom_log (logged c s) = dom_log s.
Proof. reflexivity. Qed.

Lemma fps_view_logged : forall c s, fps_view (logged c s) = fps_view s.
Proof. reflexivity. Qed.

Lemma debug_logged : forall c s, debug (logged c s) = debug s.
Proof. reflexivity. Qed.

Lemma program_of_logged : forall c s, program (logged c s) = program s.
Proof. reflexivity. Qed.

Lemma layout_view_logged : forall c s, layout_view (logged c s) = layout_view s.
Proof. reflexivity. Qed.

Lemma gl_with_new_shader : forall f s, gl (with_new_shader f s) = gl_with_shaders f (gl_fresh (gl s)).
Proof. reflexivity. Qed.

Lemma canvas_2d_with_new_shader : forall f s, canvas_2d (with_new_shader f s) = canvas_2d s.
Proof. reflexivity. Qed.

Lemma dom_log_with_new_shader : forall f s, dom_log (with_new_shader f s) = dom_log s.
Proof. reflexivity. Qed.

Lemma fps_view_with_new_shader : forall f s, fps_view (with_new_shader f s) = fps_view s.
Proof. reflexivity. Qed.

Lemma debug_with_new_shader : forall f s, debug (with_new_shader f s) = debug s.
Proof. reflexivity. Qed.

Lemma program_with_new_shader : forall f s, program (with_new_shader f s) = program s.
Proof. reflexivity. Qed.

Lemma layout_view_with_new_shader : forall f s, layout_view (with_new_shader f s) = layout_view s.
Proof. reflexivity. Qed.

Lemma gl_with_new_program : forall f s, gl (with_new_program f s) = gl_with_programs f (gl_fresh (gl s)).
Proof. reflexivity. Qed.

Lemma canvas_2d_with_new_program : forall f s, canvas_2d (with_new_program f s) = canvas_2d s.
Proof. reflexivity. Qed.

Lemma dom_log_with_new_program : forall f s, dom_log (with_new_program f s) = dom_log s.
Proof. reflexivity. Qed.

Lemma fps_view_with_new_program : forall f s, fps_view (with_new_program f s) = fps_view s.
Proof. reflexivity. Qed.

Lemma debug_with_new_program : forall f s, debug (with_new_program f s) = debug s.
Proof. reflexivity. Qed.

Lemma program_with_new_program : forall f s, program (with_new_program f s) = program s.
Proof. reflexivity. Qed.

Lemma layout_view_with_new_program : forall f s, layout_view (with_new_program f s) = layout_view s.
Proof. reflexivity. Qed.

Lemma gl_new_buffer : forall s, gl (new_buffer s) = gl_with_buffers (union {[ gl_next (gl s) ]}) (gl_fresh (gl s)).
Proof. reflexivity. Qed.

Lemma canvas_2d_new_buffer : forall s, canvas_2d (new_buffer s) = canvas_2d s.
Proof. reflexivity. Qed.

Lemma dom_log_new_buffer : forall s, dom_log (new_buffer s) = dom_log s.
Proof. reflexivity. Qed.

Lemma fps_view_new_buffer : forall s, fps_view (new_buffer s) = fps_view s.
Proof. reflexivity. Qed.

Lemma debug_new_buffer : forall s, debug (new_buffer s) = debug s.
Proof. reflexivity. Qed.

Lemma program_new_buffer : forall s, program (new_buffer s) = program s.
Proof. reflexivity. Qed.

Lemma layout_view_new_buffer : forall s, layout_view (new_buffer s) = layout_view s.
Proof. reflexivity. Qed.

Lemma gl_with_gl : forall f s, gl (with_gl f s) = f (gl s).
Proof. reflexivity. Qed.

Lemma canvas_2d_with_gl : forall f s, canvas_2d (with_gl f s) = canvas_2d s.
Proof. reflexivity. Qed.

Lemma dom_log_with_gl : forall f s, dom_log (with_gl f s) = dom_log s.
Proof. reflexivity. Qed.

Lemma fps_view_with_gl : forall f s, fps_view (with_gl f s) = fps_view s.
Proof. reflexivity. Qed.

Lemma debug_with_gl : forall f s, debug (with_gl f s) = debug s.
Proof. reflexivity. Qed.

Lemma program_with_gl : forall f s, program (with_gl f s) = program s.
Proof. reflexivity. Qed.

Lemma layout_view_with_gl : forall f s, layout_view (with_gl f s) = layout_view s.
Proof. reflexivity. Qed.

Lemma gl_with_canvas_2d : forall f s, gl (with_canvas_2d f s) = gl s.
Proof. reflexivity. Qed.

Lemma canvas_2d_with_canvas_2d : forall f s, canvas_2d (with_canvas_2d f s) = f (canvas_2d s).
Proof. reflexivity. Qed.

Lemma dom_log_with_canvas_2d : forall f s, dom_log (with_canvas_2d f s) = dom_log s.
Proof. reflexivity. Qed.

Lemma fps_view_with_canvas_2d : forall f s, fps_view (with_canvas_2d f s) = fps_view s.
Proof. reflexivity. Qed.

Lemma debug_with_canvas_2d : forall f s, debug (with_canvas_2d f s) = debug s.
Proof. reflexivity. Qed.

Lemma program_with_canvas_2d : forall f s, program (with_canvas_2d f s) = program s.
Proof. reflexivity. Qed.

Lemma layout_view_with_canvas_2d : forall f s, layout_view (with_canvas_2d f s) = layout_view s.
Proof. reflexivity. Qed.

Lemma gl_with_dom_log : forall f s, gl (with_dom_log f s) = gl s.
Proof. reflexivity. Qed.

Lemma canvas_2d_with_dom_log : forall f s, canvas_2d (with_dom_log f s) = canvas_2d s.
Proof. reflexivity. Qed.

Lemma dom_log_with_dom_log : forall f s, dom_log (with_dom_log f s) = f (dom_log s).
Proof. reflexivity. Qed.

Lemma fps_view_with_dom_log : forall f s, fps_view (with_dom_log f s) = fps_view s.
Proof. reflexivity. Qed.

Lemma debug_with_dom_log : forall f s, debug (with_dom_log f s) = debug s.
Proof. reflexivity. Qed.

Lemma program_with_dom_log : forall f s, program (with_dom_log f s) = program s.
Proof. reflexivity. Qed.

Lemma layout_view_with_dom_log : forall f s, layout_view (with_dom_log f s) = layout_view s.
Proof. reflexivity. Qed.

Lemma gl_with_canvas_size : forall a b c d s, gl (with_canvas_size a b c d s) = gl s.
Proof. reflexivity. Qed.

Lemma canvas_2d_with_canvas_size : forall a b c d s, canvas_2d (with_canvas_size a b c d s) = canvas_2d s.
Proof. reflexivity. Qed.

Lemma dom_log_with_canvas_size : forall a b c d s, dom_log (with_canvas_size a b c d s) = dom_log s.
Proof. reflexivity. Qed.

Lemma fps_view_with_canvas_size : forall a b c d s, fps_view (with_canvas_size a b c d s) = fps_view s.
Proof. reflexivity. Qed.

Lemma debug_with_canvas_size : forall a b c d s, debug (with_canvas_size a b c d s) = debug s.
Proof. reflexivity. Qed.

Lemma program_with_canvas_size : forall a b c d s, program (with_canvas_size a b c d s) = program s.
Proof. reflexivity. Qed.

Lemma layout_view_with_canvas_size : forall a b c d s, layout_view (with_canvas_size a b c d s) = (aspect_ratio s, (a, b), (c, d), body_client s).
Proof. reflexivity. Qed.

Lemma gl_with_fps : forall a b c s, gl (with_fps a b c s) = gl s.
Proof. reflexivity. Qed.

Lemma canvas_2d_with_fps : forall a b c s, canvas_2d (with_fps a b c s) = canvas_2d s.
Proof. reflexivity. Qed.

Lemma dom_log_with_fps : forall a b c s, dom_log (with_fps a b c s) = dom_log s.
Proof. reflexivity. Qed.

Lemma fps_view_with_fps : forall a b c s, fps_view (with_fps a b c s) = (a, b, c).
Proof. reflexivity. Qed.

Lemma debug_with_fps : forall a b c s, debug (with_fps a b c s) = debug s.
Proof. reflexivity. Qed.

Lemma program_with_fps : forall a b c s, program (with_fps a b c s) = program s.
Proof. reflexivity. Qed.

Lemma layout_view_with_fps : forall a b c s, layout_view (with_fps a b c s) = layout_view s.
Proof. reflexivity. Qed.

Lemma gl_with_debug : forall b s, gl (with_debug b s) = gl s.
Proof. reflexivity. Qed.

Lemma canvas_2d_with_debug : forall b s, canvas_2d (with_debug b s) = canvas_2d s.
Proof. reflexivity. Qed.

Lemma dom_log_with_debug : forall b s, dom_log (with_debug b s) = dom_log s.
Proof. reflexivity. Qed.

Lemma fps_view_with_debug : forall b s, fps_view (with_debug b s) = fps_view s.
Proof. reflexivity. Qed.

Lemma debug_with_debug : forall b s, debug (with_debug b s) = b.
Proof. reflexivity. Qed.

Lemma program_with_debug : forall b s, program (with_debug b s) = program s.
Proof. reflexivity. Qed.

Lemma layout_view_with_debug : forall b s, layout_view (with_debug b s) = layout_view s.
Proof. reflexivity. Qed.

Lemma gl_with_program : forall p s, gl (with_program p s) = gl s.
Proof. reflexivity. Qed.

Lemma canvas_2d_with_program : forall p s, canvas_2d (with_program p s) = canvas_2d s.
Proof. reflexivity. Qed.

Lemma dom_log_with_program : forall p s, dom_log (with_program p s) = dom_log s.
Proof. reflexivity. Qed.

Lemma fps_view_with_program : forall p s, fps_view (with_program p s) = fps_view s.
Proof. reflexivity. Qed.

Lemma debug_with_program : forall p s, debug (with_program p s) = debug s.
Proof. reflexivity. Qed.

Lemma program_with_program : forall p s, program (with_program p s) = p.
Proof. reflexivity. Qed.

Lemma layout_view_with_program : forall p s, layout_view (with_program p s) = layout_view s.
Proof. reflexivity. Qed.

Lemma gl_with_aspect_ratio : forall a s, gl (with_aspect_ratio a s) = gl s.
Proof. reflexivity. Qed.

Lemma canvas_2d_with_aspect_ratio : forall a s, canvas_2d (with_aspect_ratio a s) = canvas_2d s.
Proof. reflexivity. Qed.

Lemma dom_log_with_aspect_ratio : forall a s, dom_log (with_aspect_ratio a s) = dom_log s.
Proof. reflexivity. Qed.

Lemma fps_view_with_aspect_ratio : forall a s, fps_view (with_aspect_ratio a s) = fps_view s.
Proof. reflexivity. Qed.

Lemma debug_with_aspect_ratio : forall a s, debug (with_aspect_ratio a s) = debug s.
Proof. reflexivity. Qed.

Lemma program_with_aspect_ratio : forall a s, program (with_aspect_ratio a s) = program s.
Proof. reflexivity. Qed.

Lemma layout_view_with_aspect_ratio : forall a s, layout_view (with_aspect_ratio a s) = (a, (game_width s, game_height s), (text_width s, text_height s), body_client s).
Proof. reflexivity. Qed.

Create Rewrite HintDb fields.
#[export] Hint Rewrite
  gl_next_fresh gl_shaders_fresh gl_programs_fresh gl_buffers_fresh
  gl_viewport_fresh gl_log_fresh gl_next_with_shaders gl_shaders_with_shaders
  gl_programs_with_shaders gl_buffers_with_shaders gl_viewport_with_shaders
  gl_log_with_shaders gl_next_with_programs gl_shaders_with_programs
  gl_programs_with_programs gl_buffers_with_programs gl_viewport_with_programs
  gl_log_with_programs gl_next_with_buffers gl_shaders_with_buffers
  gl_programs_with_buffers gl_buffers_with_buffers gl_viewport_with_buffers
  gl_log_with_buffers gl_next_with_viewport gl_shaders_with_viewport
  gl_programs_with_viewport gl_buffers_with_viewport gl_viewport_with_viewport
  gl_log_with_viewport gl_next_record gl_shaders_record gl_programs_record
  gl_buffers_record gl_viewport_record gl_log_record gl_logged
  canvas_2d_logged dom_log_logged fps_view_logged debug_logged
  program_of_logged layout_view_logged gl_with_new_shader
  canvas_2d_with_new_shader dom_log_with_new_shader fps_view_with_new_shader
  debug_with_new_shader program_with_new_shader layout_view_with_new_shader
  gl_with_new_program canvas_2d_with_new_program dom_log_with_new_program
  fps_view_with_new_program debug_with_new_program program_with_new_program
  layout_view_with_new_program gl_new_buffer canvas_2d_new_buffer
  dom_log_new_buffer fps_view_new_buffer debug_new_buffer program_new_buffer
  layout_view_new_buffer gl_with_gl canvas_2d_with_gl dom_log_with_gl
  fps_view_with_gl debug_with_gl program_with_gl layout_view_with_gl
  gl_with_canvas_2d canvas_2d_with_canvas_2d dom_log_with_canvas_2d
  fps_view_with_canvas_2d debug_with_canvas_2d program_with_canvas_2d
  layout_view_with_canvas_2d gl_with_dom_log canvas_2d_with_dom_log
  dom_log_with_dom_log fps_view_with_dom_log debug_with_dom_log
  program_with_dom_log layout_view_with_dom_log gl_with_canvas_size
  canvas_2d_with_canvas_size dom_log_with_canvas_size
  fps_view_with_canvas_size debug_with_canvas_size program_with_canvas_size
  layout_view_with_canvas_size gl_with_fps canvas_2d_with_fps dom_log_with_fps
  fps_view_with_fps debug_with_fps program_with_fps layout_view_with_fps
  gl_with_debug canvas_2d_with_debug dom_log_with_debug fps_view_with_debug
  debug_with_debug program_with_debug layout_view_with_debug gl_with_program
  canvas_2d_with_program dom_log_with_program fps_view_with_program
  debug_with_program program_with_program layout_view_with_program
  gl_with_aspect_ratio canvas_2d_with_aspect_ratio dom_log_with_aspect_ratio
  fps_view_with_aspect_ratio debug_with_aspect_ratio program_with_aspect_ratio
  layout_view_with_aspect_ratio
  fold_record_next fold_record_shaders fold_record_programs fold_record_buffers
  fold_record_viewport fold_record_log : fields.

(** Read the fields of a state built by context calls and field updates. *)
Ltac fields := autorewrite with fields.

Section Construction.

Variable driver : Driver.
Variable browser : Browser.

(** [compile] on a source the driver accepts. *)
Lemma compile_ok type source s :
  compile_status driver type source = true ->
  let shader := gl_next (gl s) in
  compile driver type source s
  = (Ok shader,
     logged (compile_calls type source shader)
       (with_new_shader
          (insert shader {| sh_type := type; sh_source := source; sh_status := true |})
          s)).
Proof.
  intros E shader. unfold compile. run.
  cbn [gl with_gl gl_shaders gl_with_shaders gl_fresh gl_record gl_next id].
  repeat (rewrite lookup_insert_eq; cbn [sh_type sh_source sh_status]).
  rewrite E. cbn [negb]. f_equal. same_state.
  repeat (rewrite lookup_insert_eq; cbn [sh_type sh_source sh_status]).
  now rewrite E, !insert_insert_eq.
Qed.

(** [compile] on a source the driver rejects. *)
Lemma compile_rejected type source s :
  compile_status driver type source = false ->
  let shader := gl_next (gl s) in
  compile driver type source s
  = (Throw ("Failed to compile shader: " +:+ shader_info_log driver type source),
     logged (compile_calls type source shader
               ++ [GetShaderInfoLog shader; DeleteShader shader])
       (with_new_shader (delete shader) s)).
Proof.
  intros E shader. unfold compile. run.
  cbn [gl with_gl gl_shaders gl_with_shaders gl_fresh gl_record gl_next id].
  repeat (rewrite lookup_insert_eq; cbn [sh_type sh_source sh_status]).
  rewrite E. cbn [negb].
  cbn [gl with_gl gl_shaders gl_with_shaders gl_fresh gl_record gl_next id].
  repeat (rewrite lookup_insert_eq; cbn [sh_type sh_source sh_status]).
  f_equal. same_state.
  repeat (rewrite lookup_insert_eq; cbn [sh_type sh_source sh_status]).
  now rewrite !delete_insert_eq.
Qed.

Lemma attach_each prog shaders : forall s o,
  gl_programs (gl s) !! prog = Some o ->
  forEach (fun shader => gl_attachShader prog shader) shaders s
  = (Ok tt,
     logged (map (AttachShader prog) shaders)
       (with_gl (gl_with_programs
                   (insert prog {| pr_attached := (pr_attached o ++ shaders)%list;
                                   pr_status := pr_status o |})) s)).
Proof.
  induction shaders as [|shader shaders IH]; intros s o Ho.
  - cbn [forEach map]. unfold ret. f_equal. same_state.
    rewrite app_nil_r. destruct o. now rewrite insert_id.
  - cbn [forEach].
    erewrite bind_Ok by reflexivity.
    rewrite (IH _ {| pr_attached := (pr_attached o ++ [shader])%list;
                     pr_status := pr_status o |}).
    2:{ cbn [gl with_gl gl_programs gl_with_programs gl_record id].
        rewrite Ho. apply lookup_insert_eq. }
    f_equal. cbn [pr_attached pr_status map]. same_state.
    now rewrite Ho, insert_insert_eq, <- app_assoc.
Qed.

(** [link] on shaders the driver links. *)
Lemma link_ok shaders s :
  let attached := omap (fun h => gl_shaders (gl s) !! h) shaders in
  let prog := gl_next (gl s) in
  link_status driver attached = true ->
  link driver shaders s
  = (Ok prog,
     logged (link_calls prog shaders)
       (with_new_program
          (insert prog {| pr_attached := shaders; pr_status := true |}) s)).
Proof.
  intros attached prog E. unfold link.
  erewrite bind_Ok by reflexivity. fold prog.
  erewrite bind_Ok.
  2:{ apply (attach_each prog shaders _ {| pr_attached := []; pr_status := false |}).
      cbn [gl with_gl gl_programs gl_with_programs gl_fresh gl_record].
      apply lookup_insert_eq. }
  cbn [pr_attached pr_status app].
  unfold gl_linkProgram, gl_getProgramParameter. run.
  unfold logged.
  cbn [gl with_gl gl_programs gl_shaders gl_with_programs gl_record gl_fresh id].
  rewrite ?fold_record_programs, ?fold_record_shaders.
  cbn [gl with_gl gl_programs gl_shaders gl_with_programs gl_record gl_fresh id].
  repeat (rewrite lookup_insert_eq; cbn [pr_attached pr_status]).
  unfold attached_shaders. cbn [pr_attached].
  fold attached. rewrite E. cbn [negb]. f_equal. same_state.
  - repeat (rewrite lookup_insert_eq; cbn [pr_attached pr_status]).
    unfold attached_shaders. cbn [pr_attached]. fold attached.
    now rewrite E, !insert_insert_eq.
  - now rewrite <- !app_assoc.
Qed.

(** [link] on shaders the driver does not link. *)
Lemma link_rejected shaders s :
  let attached := omap (fun h => gl_shaders (gl s) !! h) shaders in
  let prog := gl_next (gl s) in
  link_status driver attached = false ->
  link driver shaders s
  = (Throw ("Failed to link program: " +:+ program_info_log driver attached),
     logged (link_calls prog shaders
               ++ [GetProgramInfoLog prog; DeleteProgram prog])
       (with_new_program (delete prog) s)).
Proof.
  intros attached prog E. unfold link.
  erewrite bind_Ok by reflexivity. fold prog.
  erewrite bind_Ok.
  2:{ apply (attach_each prog shaders _ {| pr_attached := []; pr_status := false |}).
      cbn [gl with_gl gl_programs gl_with_programs gl_fresh gl_record].
      apply lookup_insert_eq. }
  cbn [pr_attached pr_status app].
  unfold gl_linkProgram, gl_getProgramParameter, gl_getProgramInfoLog,
    gl_deleteProgram. run.
  unfold logged.
  cbn [gl with_gl gl_programs gl_shaders gl_with_programs gl_record gl_fresh id].
  rewrite ?fold_record_programs, ?fold_record_shaders.
  cbn [gl with_gl gl_programs gl_shaders gl_with_programs gl_record gl_fresh id].
  repeat (rewrite lookup_insert_eq; cbn [pr_attached pr_status]).
  unfold attached_shaders. cbn [pr_attached].
  fold attached. rewrite E. cbn [negb].
  cbn [gl with_gl gl_programs gl_shaders gl_with_programs gl_record gl_fresh id].
  rewrite ?fold_record_programs, ?fold_record_shaders.
  cbn [gl with_gl gl_programs gl_shaders gl_with_programs gl_record gl_fresh id].
  repeat (rewrite lookup_insert_eq; cbn [pr_attached pr_status]).
  fold attached. f_equal. same_state.
  - repeat (rewrite lookup_insert_eq; cbn [pr_attached pr_status]).
    now rewrite !delete_insert_eq.
  - now rewrite <- !app_assoc.
Qed.

End Construction.

(** The shader object of a compiled source. *)
Definition compiled (type : Z) (source : string) : shader_obj :=
  {| sh_type := type; sh_source := source; sh_status := true |}.

(** The two listeners the constructor registers. *)
Definition listeners : list dom_call :=
  [AddEventListener "#game" "webkitfullscreenchange";
   AddEventListener "window" "resize"].

(** Environments in which construction fails: a browser without WebGL,
    and a driver that links no program. *)
Module Faulty.

Definition browser : Browser :=
  {| webgl_supported := false;
     context_2d_supported := true;
     canvas_client := canvas_client Stub.browser;
     measure_width := measure_width Stub.browser;
     Number_toString := Number_toString Stub.browser;
     Number_toFixed := Number_toFixed Stub.browser;
     TypeError_undefined := TypeError_undefined Stub.browser |}.

Definition driver : Driver :=
  {| compile_status := compile_status Stub.driver;
     shader_info_log := shader_info_log Stub.driver;
     link_status := fun _ => false;
     program_info_log := fun _ => "varying mismatch";
     attrib_location := attrib_location Stub.driver;
     uniform_location := uniform_location Stub.driver |}.

End Faulty.

Section Constructor.

Variable driver : Driver.
Variable browser : Browser.

(** X1. Without a WebGL context or without a 2D context the constructor
    throws "Unsupported browser" having only initialised [debug] and
    [fps]: no context call is made and no listener registered. *)
Theorem constructor_unsupported vertex fragment now s :
  webgl_supported browser && context_2d_supported browser = false ->
  constructor driver browser vertex fragment now s
  = (Throw "Unsupported browser", with_fps 0 0 now (with_debug false s)).
Proof.
  intros H. unfold constructor. run.
  destruct (webgl_supported browser), (context_2d_supported browser);
    try discriminate H; reflexivity.
Qed.

(** The state in which the constructor's shaders are compiled. *)
Lemma constructor_compiles vertex fragment now s :
  webgl_supported browser = true ->
  context_2d_supported browser = true ->
  compile_status driver GL.VERTEX_SHADER vertex = true ->
  let vs := gl_next (gl s) in
  let s1 := logged (compile_calls GL.VERTEX_SHADER vertex vs)
              (with_new_shader (insert vs (compiled GL.VERTEX_SHADER vertex))
                 (with_fps 0 0 now (with_debug false s))) in
  constructor driver browser vertex fragment now s
  = bind (compile driver GL.FRAGMENT_SHADER fragment)
      (fun fs =>
         prog <- link driver [vs; fs];;
         modify (with_program prog);;
         gl_issue (UseProgram prog);;
         gl_issue (ClearColor 0 0 0 1);;
         resize browser;;
         dom (AddEventListener "#game" "webkitfullscreenchange");;
         dom (AddEventListener "window" "resize")) s1.
Proof.
  intros Hgl H2d Hv vs s1. unfold constructor.
  erewrite bind_Ok by reflexivity.
  erewrite bind_Ok by reflexivity.
  rewrite Hgl, H2d. cbn [negb orb].
  erewrite bind_Ok by (apply compile_ok; exact Hv).
  reflexivity.
Qed.

(** X2. When the fragment shader does not compile, the constructor throws
    its compile error after the vertex shader was compiled: the fragment
    shader is deleted, but the vertex shader stays an object of the
    context (nothing deletes it), no program is created and no listener is
    registered. *)
Theorem constructor_fragment_failure vertex fragment now s :
  webgl_supported browser = true ->
  context_2d_supported browser = true ->
  compile_status driver GL.VERTEX_SHADER vertex = true ->
  compile_status driver GL.FRAGMENT_SHADER fragment = false ->
  let vs := gl_next (gl s) in
  let fs := N.succ vs in
  exists s',
    constructor driver browser vertex fragment now s
    = (Throw ("Failed to compile shader: "
                +:+ shader_info_log driver GL.FRAGMENT_SHADER fragment), s')
    /\ gl_shaders (gl s') !! vs = Some (compiled GL.VERTEX_SHADER vertex)
    /\ gl_shaders (gl s') !! fs = None
    /\ gl_programs (gl s') = gl_programs (gl s)
    /\ gl_log (gl s')
       = (gl_log (gl s) ++ compile_calls GL.VERTEX_SHADER vertex vs
            ++ compile_calls GL.FRAGMENT_SHADER fragment fs
            ++ [GetShaderInfoLog fs; DeleteShader fs])%list
    /\ dom_log s' = dom_log s.
Proof.
  intros Hgl H2d Hv Hf vs fs. subst fs vs.
  rewrite constructor_compiles by assumption.
  erewrite bind_Throw by (apply compile_rejected; exact Hf).
  eexists. split; [reflexivity|]. fields.
  repeat split.
  - rewrite lookup_delete_ne by lia. apply lookup_insert_eq.
  - apply lookup_delete_eq.
  - now rewrite <- !app_assoc.
Qed.

(** X3. When the program does not link, the constructor throws the link
    error: the program is deleted, but both compiled shaders stay objects
    of the context, the renderer's [program] field is not set, and neither
    [useProgram] nor a listener registration happens. *)
Theorem constructor_link_failure vertex fragment now s :
  webgl_supported browser = true ->
  context_2d_supported browser = true ->
  compile_status driver GL.VERTEX_SHADER vertex = true ->
  compile_status driver GL.FRAGMENT_SHADER fragment = true ->
  let attached := [compiled GL.VERTEX_SHADER vertex;
                   compiled GL.FRAGMENT_SHADER fragment] in
  link_status driver attached = false ->
  let vs := gl_next (gl s) in
  let fs := N.succ vs in
  let prog := N.succ fs in
  exists s',
    constructor driver browser vertex fragment now s
    = (Throw ("Failed to link program: " +:+ program_info_log driver attached), s')
    /\ gl_shaders (gl s') !! vs = Some (compiled GL.VERTEX_SHADER vertex)
    /\ gl_shaders (gl s') !! fs = Some (compiled GL.FRAGMENT_SHADER fragment)
    /\ gl_programs (gl s') !! prog = None
    /\ gl_log (gl s')
       = (gl_log (gl s) ++ compile_calls GL.VERTEX_SHADER vertex vs
            ++ compile_calls GL.FRAGMENT_SHADER fragment fs
            ++ link_calls prog [vs; fs]
            ++ [GetProgramInfoLog prog; DeleteProgram prog])%list
    /\ program s' = program s
    /\ dom_log s' = dom_log s.
Proof.
  intros Hgl H2d Hv Hf attached Hl vs fs prog. subst prog fs vs.
  rewrite constructor_compiles by assumption.
  erewrite bind_Ok by (apply compile_ok; exact Hf).
  match goal with |- context [gl_next (gl (logged ?c ?t))] =>
    replace (gl_next (gl (logged c t))) with (N.succ (gl_next (gl s)))
      by (fields; reflexivity)
  end.
  match goal with |- context [bind (link driver ?l) _ ?s2] => set (s2' := s2) end.
  assert (Hnext : gl_next (gl s2') = N.succ (N.succ (gl_next (gl s)))).
  { subst s2'. fields. reflexivity. }
  assert (Hatt : omap (fun h => gl_shaders (gl s2') !! h)
                   [gl_next (gl s); N.succ (gl_next (gl s))] = attached).
  { subst s2'. fields. cbn [omap list_omap].
    rewrite lookup_insert_ne, !lookup_insert_eq by lia. reflexivity. }
  erewrite bind_Throw.
  2:{ apply link_rejected. cbv zeta. rewrite Hatt. exact Hl. }
  rewrite Hnext, Hatt.
  eexists. split; [reflexivity|].
  subst s2'. fields.
  repeat split.
  - rewrite lookup_insert_ne by lia. apply lookup_insert_eq.
  - apply lookup_insert_eq.
  - apply lookup_delete_eq.
  - now rewrite <- !app_assoc.
Qed.

(** The state [resize] leaves. *)
Definition resized (s : state) : state :=
  let body := body_client s in
  let client := canvas_client browser "game" body (fst body, snd body) in
  with_aspect_ratio (number_of_int (fst client) / number_of_int (snd client))
    (with_gl (gl_with_viewport (0, 0, fst client, snd client))
       (logged [Viewport 0 0 (fst client) (snd client)]
          (with_canvas_size (fst body) (snd body) (fst body) (snd body) s))).

Lemma resize_resized (s : state) : resize browser s = (Ok tt, resized s).
Proof.
  unfold resized, resize. run. reflexivity.
Qed.

(** X4. When both contexts exist, both shaders compile and the program
    links, the constructor returns: the renderer's program is the new
    program, linked, with the vertex and the fragment shader attached in
    that order; the calls made are the two compilations, the link,
    [useProgram], [clearColor(0, 0, 0, 1)] and the [viewport] of the first
    [resize], in that order; the two listeners are registered; [debug] is
    off and the FPS window starts empty at the current time. *)
Theorem constructor_ready vertex fragment now s :
  webgl_supported browser = true ->
  context_2d_supported browser = true ->
  compile_status driver GL.VERTEX_SHADER vertex = true ->
  compile_status driver GL.FRAGMENT_SHADER fragment = true ->
  link_status driver [compiled GL.VERTEX_SHADER vertex;
                      compiled GL.FRAGMENT_SHADER fragment] = true ->
  let vs := gl_next (gl s) in
  let fs := N.succ vs in
  let prog := N.succ fs in
  let client := canvas_client browser "game" (body_client s)
                  (fst (body_client s), snd (body_client s)) in
  exists s',
    constructor driver browser vertex fragment now s = (Ok tt, s')
    /\ program s' = prog
    /\ gl_programs (gl s') !! prog
       = Some {| pr_attached := [vs; fs]; pr_status := true |}
    /\ gl_log (gl s')
       = (gl_log (gl s) ++ compile_calls GL.VERTEX_SHADER vertex vs
            ++ compile_calls GL.FRAGMENT_SHADER fragment fs
            ++ link_calls prog [vs; fs]
            ++ [UseProgram prog; ClearColor 0 0 0 1;
                Viewport 0 0 (fst client) (snd client)])%list
    /\ dom_log s' = (dom_log s ++ listeners)%list
    /\ fps_view s' = (0, 0, now)
    /\ debug s' = false.
Proof.
  intros Hgl H2d Hv Hf Hl vs fs prog client. subst client prog fs vs.
  rewrite constructor_compiles by assumption.
  erewrite bind_Ok by (apply compile_ok; exact Hf).
  match goal with |- context [gl_next (gl (logged ?c ?t))] =>
    replace (gl_next (gl (logged c t))) with (N.succ (gl_next (gl s)))
      by (fields; reflexivity)
  end.
  match goal with |- context [bind (link driver ?l) _ ?s2] => set (s2' := s2) end.
  assert (Hnext : gl_next (gl s2') = N.succ (N.succ (gl_next (gl s)))).
  { subst s2'. fields. reflexivity. }
  assert (Hatt : omap (fun h => gl_shaders (gl s2') !! h)
                   [gl_next (gl s); N.succ (gl_next (gl s))]
                 = [compiled GL.VERTEX_SHADER vertex;
                    compiled GL.FRAGMENT_SHADER fragment]).
  { subst s2'. fields. cbn [omap list_omap].
    rewrite lookup_insert_ne, !lookup_insert_eq by lia. reflexivity. }
  erewrite bind_Ok.
  2:{ apply link_ok. cbv zeta. rewrite Hatt. exact Hl. }
  rewrite Hnext.
  erewrite bind_Ok by reflexivity.
  rewrite !(bind_Ok _ _ _ _ _ (gl_issue_logged _ _)).
  rewrite (bind_Ok _ _ _ _ _ (resize_resized _)).
  erewrite bind_Ok by reflexivity.
  eexists. split; [reflexivity|].
  assert (B : forall c t, body_client (logged c t) = body_client t) by reflexivity.
  unfold resized, dom. unfold modify.
  fields.
  repeat match goal with
  | |- context [body_client (?f ?x)] =>
      change (body_client (f x)) with (body_client s)
  end.
  subst s2'. fields.
  repeat split.
  - apply lookup_insert_eq.
  - rewrite <- !app_assoc. reflexivity.
  - rewrite <- !app_assoc. reflexivity.
Qed.

End Constructor.

Lemma constructor_unsupported_witness :
  webgl_supported Faulty.browser && context_2d_supported Faulty.browser = false
  /\ constructor Stub.driver Faulty.browser "void main(){}" "void main(){}" 5
       (page (800, 600))
     = (Throw "Unsupported browser",
        with_fps 0 0 5 (with_debug false (page (800, 600)))).
Proof.
  split; [reflexivity|].
  exact (constructor_unsupported Stub.driver Faulty.browser
           "void main(){}" "void main(){}" 5 (page (800, 600)) eq_refl).
Defined.

Lemma constructor_fragment_failure_witness :
  webgl_supported Stub.browser = true
  /\ context_2d_supported Stub.browser = true
  /\ compile_status Stub.driver GL.VERTEX_SHADER "void main(){}" = true
  /\ compile_status Stub.driver GL.FRAGMENT_SHADER EmptyString = false
  /\ exists s',
       constructor Stub.driver Stub.browser "void main(){}" EmptyString 5
         (page (800, 600))
       = (Throw ("Failed to compile shader: "
                   +:+ shader_info_log Stub.driver GL.FRAGMENT_SHADER EmptyString), s')
       /\ gl_shaders (gl s') !! gl_next (gl (page (800, 600)))
          = Some (compiled GL.VERTEX_SHADER "void main(){}")
       /\ gl_shaders (gl s') !! N.succ (gl_next (gl (page (800, 600)))) = None.
Proof.
  do 4 (split; [reflexivity|]).
  destruct (constructor_fragment_failure Stub.driver Stub.browser
              "void main(){}" EmptyString 5 (page (800, 600))
              eq_refl eq_refl eq_refl eq_refl)
    as (s' & E & Hv & Hf & _).
  exists s'. split; [exact E|]. split; [exact Hv | exact Hf].
Defined.

Lemma constructor_link_failure_witness :
  webgl_supported Stub.browser = true
  /\ context_2d_supported Stub.browser = true
  /\ compile_status Faulty.driver GL.VERTEX_SHADER "void main(){}" = true
  /\ compile_status Faulty.driver GL.FRAGMENT_SHADER "void main(){}" = true
  /\ link_status Faulty.driver
       [compiled GL.VERTEX_SHADER "void main(){}";
        compiled GL.FRAGMENT_SHADER "void main(){}"] = false
  /\ exists s',
       constructor Faulty.driver Stub.browser "void main(){}" "void main(){}" 5
         (page (800, 600))
       = (Throw ("Failed to link program: "
                   +:+ program_info_log Faulty.driver
                         [compiled GL.VERTEX_SHADER "void main(){}";
                          compiled GL.FRAGMENT_SHADER "void main(){}"]), s')
       /\ gl_shaders (gl s') !! gl_next (gl (page (800, 600)))
          = Some (compiled GL.VERTEX_SHADER "void main(){}")
       /\ gl_shaders (gl s') !! N.succ (gl_next (gl (page (800, 600))))
          = Some (compiled GL.FRAGMENT_SHADER "void main(){}")
       /\ gl_programs (gl s') !! N.succ (N.succ (gl_next (gl (page (800, 600)))))
          = None
       /\ program s' = program (page (800, 600)).
Proof.
  do 5 (split; [reflexivity|]).
  destruct (constructor_link_failure Faulty.driver Stub.browser
              "void main(){}" "void main(){}" 5 (page (800, 600))
              eq_refl eq_refl eq_refl eq_refl eq_refl)
    as (s' & E & Hv & Hf & Hp & _ & Hprog & _).
  exists s'. split; [exact E|]. split; [exact Hv|]. split; [exact Hf|].
  split; [exact Hp | exact Hprog].
Defined.

Lemma constructor_ready_witness :
  webgl_supported Stub.browser = true
  /\ context_2d_supported Stub.browser = true
  /\ compile_status Stub.driver GL.VERTEX_SHADER "void main(){}" = true
  /\ compile_status Stub.driver GL.FRAGMENT_SHADER "void main(){}" = true
  /\ link_status Stub.driver
       [compiled GL.VERTEX_SHADER "void main(){}";
        compiled GL.FRAGMENT_SHADER "void main(){}"] = true
  /\ exists s',
       constructor Stub.driver Stub.browser "void main(){}" "void main(){}" 5
         (page (800, 600)) = (Ok tt, s')
       /\ program s' = N.succ (N.succ (gl_next (gl (page (800, 600)))))
       /\ dom_log s' = (dom_log (page (800, 600)) ++ listeners)%list
       /\ fps_view s' = (0, 0, 5)
       /\ debug s' = false.
Proof.
  do 5 (split; [reflexivity|]).
  destruct (constructor_ready Stub.driver Stub.browser
              "void main(){}" "void main(){}" 5 (page (800, 600))
              eq_refl eq_refl eq_refl eq_refl eq_refl)
    as (s' & E & Hprog & _ & _ & Hdom & Hfps & Hdebug).
  exists s'. split; [exact E|]. split; [exact Hprog|]. split; [exact Hdom|].
  split; [exact Hfps | exact Hdebug].
Defined.

(** ** What a draw leaves behind *)

Definition is_Uniform4fv (c : gl_call) : bool :=
  match c with Uniform4fv _ _ => true | _ => false end.

Section Footprint.

Variable driver : Driver.

(** Whatever its outcome, [draw] ends in the state in which one buffer
    was allocated and some calls were issued. *)
Lemma draw_state w position rotation size s :
  exists calls,
    snd (draw driver w position rotation size s) = logged calls (new_buffer s).
Proof.
  destruct (Z.lt_ge_cases (attrib_index driver (program s) "a_vertex") 0) as [Ha|Ha].
  { rewrite draw_without_attribute by exact Ha. eexists. reflexivity. }
  destruct (List.find (missing_uniform driver (program s)) uniform_names)
    as [key|] eqn:Hk.
  { destruct (draw_without_uniform driver w position rotation size s key Ha Hk)
      as (calls & -> & _).
    now exists calls. }
  unfold uniform_names, missing_uniform in Hk. cbn [List.find] in Hk.
  destruct (uniform_location driver (program s) "u_color") as [l1|] eqn:E1;
    [|discriminate].
  destruct (uniform_location driver (program s) "u_position") as [l2|] eqn:E2;
    [|discriminate].
  destruct (uniform_location driver (program s) "u_rotation") as [l3|] eqn:E3;
    [|discriminate].
  destruct (uniform_location driver (program s) "u_size") as [l4|] eqn:E4;
    [|discriminate].
  destruct (uniform_location driver (program s) "u_aspect_ratio") as [l5|] eqn:E5;
    [|discriminate].
  rewrite (draw_ok driver w position rotation size s l1 l2 l3 l4 l5 Ha).
  - eexists. reflexivity.
  - cbn [map uniform_names]. now rewrite E1, E2, E3, E4, E5.
Qed.

(** X5. Every call of [draw], whether it returns or throws a lookup
    error, allocates exactly one buffer and leaves it allocated (nothing
    deletes a buffer); besides that it only appends calls to the log of
    the WebGL context: shaders, programs and viewport are unchanged, and so
    is everything outside the WebGL context (the 2D canvas, the document,
    the canvas sizes and the fields of the renderer). *)
Theorem draw_leaves_one_buffer w position rotation size s :
  let s' := snd (draw driver w position rotation size s) in
  gl_buffers (gl s') = {[ gl_next (gl s) ]} ∪ gl_buffers (gl s)
  /\ gl_next (gl s') = N.succ (gl_next (gl s))
  /\ gl_shaders (gl s') = gl_shaders (gl s)
  /\ gl_programs (gl s') = gl_programs (gl s)
  /\ gl_viewport (gl s') = gl_viewport (gl s)
  /\ (exists calls, gl_log (gl s') = (gl_log (gl s) ++ calls)%list)
  /\ beside_gl s' = beside_gl s.
Proof.
  cbv zeta.
  destruct (draw_state w position rotation size s) as (calls & ->).
  unfold logged.
  cbn [gl with_gl new_buffer].
  rewrite fold_record_buffers, fold_record_next, fold_record_shaders,
    fold_record_programs, fold_record_viewport, fold_record_log.
  repeat split. now exists calls.
Qed.

(** X6. [line] doubles its colour before handing it to [draw], so the
    colour never reaches [uniform] with the length it was given: when the
    lookups succeed, a colour of any length but 1 and 2 (the usual four
    components among them) is uploaded by [uniformMatrix3fv], not by
    [uniform4fv], as the colour twice over, and the whole call issues no
    [uniform4fv]. *)
Theorem line_color_is_doubled (Math_cos Math_sin : float -> float)
    (x y rotation : float) (color : list float) (s : state) (l1 l2 l3 l4 l5 : N) :
  0 <= attrib_index driver (program s) "a_vertex" ->
  map (uniform_location driver (program s)) uniform_names
    = map Some [l1; l2; l3; l4; l5] ->
  length color <> 1%nat ->
  length color <> 2%nat ->
  exists s' before after,
    line driver Math_cos Math_sin x y rotation color s = (Ok tt, s')
    /\ gl_log (gl s')
       = (gl_log (gl s)
          ++ before
          ++ [GetUniformLocation (program s) "u_color";
              UniformMatrix3fv l1 false (new_Float32Array (color ++ color))]
          ++ after)%list
    /\ forallb (fun c => negb (is_Uniform4fv c)) (before ++ after) = true.
Proof.
  intros Ha Hu H1 H2.
  pose (w := line_wireframe Math_cos Math_sin rotation color s).
  pose (calls := draw_calls w [x; y] rotation 1 s
                   (attrib_index driver (program s) "a_vertex") [l1; l2; l3; l4; l5]).
  exists (logged calls (new_buffer s)), (firstn 6 calls), (skipn 8 calls).
  split; [|split].
  - rewrite line_is_draw.
    apply (draw_ok driver w [x; y] rotation 1 s l1 l2 l3 l4 l5 Ha Hu).
  - rewrite gl_log_logged. do 2 f_equal.
    subst calls w. unfold draw_calls, line_wireframe. simpl.
    do 7 f_equal.
    assert (L : length (color ++ color) = (length color + length color)%nat)
      by apply length_app.
    destruct (length (color ++ color)) as [|[|[|[|[|n]]]]] eqn:E;
      try reflexivity; lia.
  - reflexivity.
Qed.

End Footprint.

Lemma line_color_is_doubled_witness :
  0 <= attrib_index Stub.driver (program Stub.ready) "a_vertex"
  /\ map (uniform_location Stub.driver (program Stub.ready)) uniform_names
     = map Some [0; 1; 2; 3; 4]%N
  /\ length [1; 0; 0; 1]%float <> 1%nat
  /\ length [1; 0; 0; 1]%float <> 2%nat
  /\ exists s' before after,
       line Stub.driver Stub.Math_cos Stub.Math_sin 0 0.5 Math_PI [1; 0; 0; 1]%float
         Stub.ready = (Ok tt, s')
       /\ gl_log (gl s')
          = (gl_log (gl Stub.ready)
             ++ before
             ++ [GetUniformLocation (program Stub.ready) "u_color";
                 UniformMatrix3fv 0 false
                   (new_Float32Array ([1; 0; 0; 1] ++ [1; 0; 0; 1])%float)]
             ++ after)%list.
Proof.
  assert (Ha : 0 <= attrib_index Stub.driver (program Stub.ready) "a_vertex")
    by (vm_compute; discriminate).
  assert (Hu : map (uniform_location Stub.driver (program Stub.ready)) uniform_names
               = map Some [0; 1; 2; 3; 4]%N)
    by (vm_compute; reflexivity).
  assert (H1 : length [1; 0; 0; 1]%float <> 1%nat) by discriminate.
  assert (H2 : length [1; 0; 0; 1]%float <> 2%nat) by discriminate.
  split; [exact Ha|]. split; [exact Hu|]. split; [exact H1|]. split; [exact H2|].
  destruct (line_color_is_doubled Stub.driver Stub.Math_cos Stub.Math_sin 0 0.5 Math_PI
              [1; 0; 0; 1]%float Stub.ready 0 1 2 3 4 Ha Hu H1 H2)
    as (s' & before & after & E & Hl & _).
  exists s', before, after. split; [exact E | exact Hl].
Defined.

(** ** The wireframe of [polygon] *)

Section PolygonShape.

Variable driver : Driver.
Variables Math_cos Math_sin : float -> float.
Variables (radius sides : float) (color0 : list float).

(** Each iteration of the loop adds one vertex and one copy of the
    colour. *)
Lemma polygon_loop_counts (fuel : nat) : forall r w w',
  polygon_loop Math_cos Math_sin fuel radius sides color0 r w = Some w' ->
  exists n : nat,
    length (shape w') = (length (shape w) + 2 * n)%nat
    /\ color w' = (color w ++ concat (repeat color0 n))%list
    /\ bounds w' = bounds w
    /\ ((r <=? Math_PI * 2)%float = true -> (1 <= n)%nat).
Proof.
  induction fuel as [|fuel IH]; intros r w w' E; [discriminate|].
  cbn [polygon_loop] in E.
  destruct (r <=? Math_PI * 2)%float.
  - apply IH in E as (n & Hs & Hc & Hb & _).
    cbn [shape color bounds] in Hs, Hc, Hb.
    exists (S n). repeat split.
    + rewrite Hs, !length_app. cbn [length]. lia.
    + rewrite Hc. cbn [repeat concat]. now rewrite <- app_assoc.
    + exact Hb.
    + lia.
  - injection E as <-. exists 0%nat. repeat split.
    + lia.
    + cbn [repeat concat]. now rewrite app_nil_r.
    + discriminate.
Qed.

Lemma vertices_length (shape : list float) (n : nat) :
  length shape = (2 * n)%nat -> length (vertices shape) = n.
Proof.
  revert shape. induction n as [|n IH]; intros [|x [|y rest]] H;
    cbn [length] in H; try lia; [reflexivity|].
  cbn [vertices length]. rewrite IH; [reflexivity|lia].
Qed.

(** X7. Whenever the loop of [polygon] ends, the wireframe it hands to
    [draw] has at least one vertex, whatever [sides] is (the first test,
    [0 <= 2 pi], always holds), an even number of coordinates, and its
    colour array is the given colour once per vertex; [drawArrays] is
    asked for exactly that number of vertices. *)
Theorem polygon_wireframe (fuel : nat) (position : list float) (rotation : float)
    (w : Wireframe) (s : state) :
  polygon_loop Math_cos Math_sin fuel radius sides color0 0 empty_wireframe = Some w ->
  exists n : nat,
    (1 <= n)%nat
    /\ length (shape w) = (2 * n)%nat
    /\ length (vertices (shape w)) = n
    /\ color w = concat (repeat color0 n)
    /\ Z.of_nat (length (shape w)) / 2 = Z.of_nat n
    /\ polygon driver Math_cos Math_sin fuel radius sides position rotation color0 s
       = draw driver w position rotation 1 s.
Proof.
  intros E.
  destruct (polygon_loop_counts fuel 0 empty_wireframe w E) as (n & Hs & Hc & _ & Hn).
  cbn [empty_wireframe shape color length Nat.add app] in Hs, Hc.
  exists n. split; [apply Hn; reflexivity|]. split; [exact Hs|].
  split; [now apply vertices_length|]. split; [exact Hc|].
  split.
  - rewrite Hs, Nat2Z.inj_mul, Z.mul_comm. now apply Z.div_mul.
  - unfold polygon. fold empty_wireframe. now rewrite E.
Qed.

(** X8. [polygon] does not guard against a division by zero.  With
    [sides = 0] the step is [Infinity] and with [sides = NaN] it is [NaN]:
    in both cases the loop runs once, so that a single vertex, the one of
    angle 0, is drawn with one copy of the colour.  With [sides = -0] the
    step is [-Infinity], the loop variable stays there, and [polygon]
    returns for no amount of fuel. *)
Theorem polygon_without_sides (fuel : nat) (position : list float)
    (rotation : float) (s : state) :
  let point :=
    {| bounds := 0; color := color0;
       shape := [(Math_cos 0 * radius)%float; (Math_sin 0 * radius)%float] |} in
  (Math_PI * 2 / 0)%float = infinity
  /\ polygon driver Math_cos Math_sin (2 + fuel) radius 0 position rotation color0 s
     = draw driver point position rotation 1 s
  /\ polygon driver Math_cos Math_sin (2 + fuel) radius nan position rotation color0 s
     = draw driver point position rotation 1 s
  /\ (Math_PI * 2 / -0)%float = neg_infinity
  /\ polygon driver Math_cos Math_sin fuel radius (-0) position rotation color0 s
     = (OutOfFuel, s).
Proof.
  cbv zeta. split; [reflexivity|].
  unfold polygon. fold empty_wireframe.
  rewrite polygon_loop_negative_zero_sides.
  cbn [polygon_loop Nat.add].
  change (0 <=? Math_PI * 2)%float with true. cbv iota.
  change (0 + Math_PI * 2 / 0 <=? Math_PI * 2)%float with false.
  change (0 + Math_PI * 2 / nan <=? Math_PI * 2)%float with false.
  cbv iota. cbn [empty_wireframe color shape bounds app]. repeat split.
Qed.

End PolygonShape.

Lemma polygon_wireframe_witness :
  polygon_loop Stub.Math_cos Stub.Math_sin 6 1 4 [1; 1; 1; 1]%float 0 empty_wireframe
  = Some {| bounds := 0;
            color := ([1; 1; 1; 1] ++ [1; 1; 1; 1] ++ [1; 1; 1; 1] ++ [1; 1; 1; 1]
                        ++ [1; 1; 1; 1])%float%list;
            shape := flat_map (fun r => [Stub.Math_cos r; Stub.Math_sin r])
                       square_angles |}
  /\ exists n : nat,
       (1 <= n)%nat
       /\ length
            (vertices (flat_map (fun r => [Stub.Math_cos r; Stub.Math_sin r])
                         square_angles)) = n.
Proof.
  pose proof (polygon_square_loop Stub.Math_cos Stub.Math_sin [1; 1; 1; 1]%float) as E.
  split; [exact E|].
  destruct (polygon_wireframe Stub.driver Stub.Math_cos Stub.Math_sin 1 4
              [1; 1; 1; 1]%float 6 [0; 0]%float 0 _ Stub.ready E)
    as (n & Hn & _ & Hv & _).
  exists n. split; [exact Hn | exact Hv].
Defined.

(** ** [_text] *)

Definition is_Save (c : c2d_call) : bool :=
  match c with Save => true | _ => false end.

Definition is_Restore (c : c2d_call) : bool :=
  match c with Restore => true | _ => false end.

Section Text.

Variable browser : Browser.

(** What [_text] does between its [save] and its [restore]. *)
Definition text_calls (x y : float) (text : string) (color font : option string)
    (s : state) : list c2d_call :=
  let w := (number_of_int (fst (text_client browser s)) / 2)%float in
  let h := (number_of_int (snd (text_client browser s)) / 2)%float in
  let font := or_default font "normal 16px Helvetica" in
  [SetFont font; MeasureText text; SetFillStyle (or_default color "#0f0");
   Translate (w - measure_width browser font text / 2) h;
   FillText text (x * w / aspect_ratio s) (y * - h)].

Lemma with_canvas_2d_twice f g s :
  with_canvas_2d f (with_canvas_2d g s) = with_canvas_2d (fun l => f (g l)) s.
Proof. reflexivity. Qed.

Lemma with_canvas_2d_ext f g s :
  f (canvas_2d s) = g (canvas_2d s) -> with_canvas_2d f s = with_canvas_2d g s.
Proof. unfold with_canvas_2d. now intros ->. Qed.

Lemma aspect_ratio_with_canvas_2d f s :
  aspect_ratio (with_canvas_2d f s) = aspect_ratio s.
Proof. reflexivity. Qed.

Lemma text_state x y text color font s :
  _text browser x y text color font s
  = (Ok tt,
     with_canvas_2d
       (fun l => (l ++ [Save] ++ text_calls x y text color font s ++ [Restore])%list) s).
Proof.
  unfold _text. run.
  rewrite !aspect_ratio_with_canvas_2d, !with_canvas_2d_twice.
  f_equal. apply with_canvas_2d_ext.
  unfold text_calls. now rewrite <- !app_assoc.
Qed.

(** X9. [_text] never throws and changes nothing but the 2D context (the
    WebGL context, the document and the renderer's fields stay as they
    are); what it appends to the 2D context is one [save], five calls that
    are neither [save] nor [restore], and one [restore], so that the
    context's state stack is left as it was found.  An empty string as
    colour or font selects the default, like an omitted argument. *)
Theorem text_is_bracketed x y text color font s :
  (exists calls,
     _text browser x y text color font s
     = (Ok tt, with_canvas_2d (fun l => (l ++ [Save] ++ calls ++ [Restore])%list) s)
     /\ length calls = 5%nat
     /\ forallb (fun c => negb (is_Save c || is_Restore c)) calls = true)
  /\ _text browser x y text (Some EmptyString) (Some EmptyString) s
     = _text browser x y text None None s.
Proof.
  split; [|reflexivity].
  exists (text_calls x y text color font s).
  split; [apply text_state|]. split; reflexivity.
Qed.

End Text.

(** ** [resize] in a window without height *)

Section Binary64Division.

(** Dividing by zero never gives a finite number. *)
Lemma div_zero (x : float) :
  (x / 0)%float = nan \/ (x / 0)%float = infinity \/ (x / 0)%float = neg_infinity.
Proof.
  assert (E : Prim2SF (x / 0) = SF64div (Prim2SF x) (S754_zero false))
    by apply div_spec.
  destruct (Prim2SF x) as [[|]|[|]| |[|] m e]; cbn in E.
  all: first
    [ left; apply Prim2SF_inj; rewrite E; reflexivity
    | right; left; apply Prim2SF_inj; rewrite E; reflexivity
    | right; right; apply Prim2SF_inj; rewrite E; reflexivity ].
Qed.

End Binary64Division.

Section ResizeEdge.

Variable browser : Browser.

(** X10. [resize] does not guard against a canvas without height: when
    the client height of the game canvas is 0 it still returns, having set
    a viewport of height 0, and the aspect ratio it stores is not a finite
    number: it is [NaN], [Infinity] or [-Infinity]. *)
Theorem resize_without_height (s : state) :
  let body := body_client s in
  let client := canvas_client browser "game" body (fst body, snd body) in
  snd client = 0 ->
  exists s',
    resize browser s = (Ok tt, s')
    /\ gl_viewport (gl s') = (0, 0, fst client, 0)
    /\ (aspect_ratio s' = nan \/ aspect_ratio s' = infinity
        \/ aspect_ratio s' = neg_infinity).
Proof.
  intros body client H. exists (resized browser s).
  split; [apply resize_resized|].
  unfold resized. fold body. fold client. cbn [aspect_ratio with_aspect_ratio].
  rewrite H. split; [reflexivity|].
  change (number_of_int 0) with 0%float. apply div_zero.
Qed.

End ResizeEdge.

Lemma resize_without_height_witness :
  snd (canvas_client Stub.browser "game" (800, 0) (800, 0)) = 0
  /\ exists s',
       resize Stub.browser (page (800, 0)) = (Ok tt, s')
       /\ gl_viewport (gl s') = (0, 0, 800, 0)
       /\ (aspect_ratio s' = nan \/ aspect_ratio s' = infinity
           \/ aspect_ratio s' = neg_infinity).
Proof.
  split; [reflexivity|].
  exact (resize_without_height Stub.browser (page (800, 0)) eq_refl).
Defined.

(** ** [_grid] *)

(** The values a loop variable takes when its test does not read the
    state: [r0], [next r0], ... while [test] holds. *)
Fixpoint number_range (fuel : nat) (test : float -> bool) (next : float -> float)
    (r : float) : option (list float) :=
  match fuel with
  | O => None
  | S fuel' =>
      if test r then cons r <$> number_range fuel' test next (next r)
      else Some []
  end.

(** The loop variable of the first loop of [_grid]: -1 and the sums of
    one to twenty steps of 0.1. *)
Definition grid_rows : list float :=
  map (fun k => Nat.iter k (fun y => y + 0.1)%float (-1)%float) (seq 0 21).

Lemma number_range_more_fuel test next fuel : forall k r rows,
  number_range fuel test next r = Some rows ->
  number_range (fuel + k) test next r = Some rows.
Proof.
  induction fuel as [|fuel IH]; intros k r rows E; [discriminate|].
  cbn [number_range Nat.add] in *.
  destruct (test r); [|exact E].
  destruct (number_range fuel test next (next r)) as [rows'|] eqn:E';
    [|discriminate].
  now rewrite (IH k _ _ E').
Qed.

Lemma for_number_range {S} test next (body : float -> M S unit) fuel :
  forall r rows s,
  number_range fuel test next r = Some rows ->
  for_number fuel (fun y _ => test y) next body r s = forEach body rows s.
Proof.
  induction fuel as [|fuel IH]; intros r rows s E; [discriminate|].
  cbn [number_range for_number] in *.
  rewrite (bind_Ok _ _ s s (test r)) by reflexivity.
  destruct (test r).
  - destruct (number_range fuel test next (next r)) as [rows'|] eqn:E';
      [|discriminate].
    injection E as <-. cbn [forEach]. unfold bind.
    destruct (body r s) as [[a|e|] s1]; [|reflexivity|reflexivity].
    now apply IH.
  - injection E as <-. reflexivity.
Qed.

Lemma grid_rows_range :
  number_range 22 (fun y => y <? 1)%float (fun y => y + 0.1)%float (-1)%float
  = Some grid_rows.
Proof. vm_compute. reflexivity. Qed.

Lemma keeps_forEach {V A} (view : state -> V) (f : A -> M state unit) (xs : list A) :
  (forall x, keeps view (f x)) -> keeps view (forEach f xs).
Proof.
  intros Hf. induction xs as [|x xs IH]; cbn [forEach].
  - apply keeps_ret.
  - apply keeps_bind; [apply Hf | intros _; exact IH].
Qed.

(** [m ;; k] is [m] when [k] does nothing in the states [m] can reach. *)
Lemma bind_nothing {V} (view : state -> V) (m : M state unit)
    (k : unit -> M state unit) (s : state) :
  keeps view m ->
  (forall a s', view s' = view s -> k a s' = (Ok tt, s')) ->
  bind m k s = m s.
Proof.
  intros Hm Hk. unfold bind. specialize (Hm s).
  destruct (m s) as [[[]|e|] s1]; cbn [snd] in Hm; [|reflexivity|reflexivity].
  now apply Hk.
Qed.

Lemma fst_bind_OutOfFuel {S A B} (m : M S A) (k : A -> M S B) (s : S) :
  fst (m s) = OutOfFuel -> fst (bind m k s) = OutOfFuel.
Proof.
  unfold bind. destruct (m s) as [[a|e|] s1]; cbn [fst]; try discriminate.
  reflexivity.
Qed.

(** A loop whose body always returns either returns or runs out of fuel. *)
Lemma for_number_returns (I : state -> Prop) test next
    (body : float -> M state unit) :
  (forall r s, I s -> exists s', body r s = (Ok tt, s') /\ I s') ->
  forall fuel r s, I s ->
  fst (for_number fuel test next body r s) = OutOfFuel
  \/ exists s', for_number fuel test next body r s = (Ok tt, s') /\ I s'.
Proof.
  intros Hb. induction fuel as [|fuel IH]; intros r s Hs; [now left|].
  cbn [for_number].
  rewrite (bind_Ok _ _ s s (test r s)) by reflexivity.
  destruct (test r s).
  - destruct (Hb r s Hs) as (s1 & E & H1).
    rewrite (bind_Ok _ _ _ _ _ E). now apply IH.
  - right. now exists s.
Qed.

#[local] Instance aspect_ratio_untouched : Untouched aspect_ratio.
Proof. split; reflexivity. Qed.

#[local] Instance program_untouched : Untouched program.
Proof. split; reflexivity. Qed.

#[local] Instance debug_untouched : Untouched debug.
Proof. split; reflexivity. Qed.

Section Grid.

Variable driver : Driver.
Variable browser : Browser.
Variables Math_cos Math_sin : float -> float.

(** X11. The first loop of [_grid] draws 21 horizontal lines, not 20:
    the loop variable accumulates the rounding of 0.1, so that after twenty
    steps from -1 it is 0.99999999999999978, still below 1, and the line
    meant for the axis is drawn at -1.39e-16 instead of 0.  With fuel for
    these iterations, [_grid] is these 21 calls of [line] followed by the
    second loop. *)
Theorem grid_draws_21_rows (fuel : nat) (s : state) :
  (22 <= fuel)%nat ->
  _grid driver Math_cos Math_sin fuel s
  = (forEach (fun y => line driver Math_cos Math_sin 0 y Math_PI
                         [0.25; 0.25; 0.25; 1]%float) grid_rows;;
     ar <- gets aspect_ratio;;
     for_number fuel (fun x s => x <? aspect_ratio s)%float (fun x => x + 0.1)%float
       (fun x => line driver Math_cos Math_sin x 0 (Math_PI / 2)%float
                   [0.25; 0.25; 0.25; 1]%float)
       (- ar)%float) s
  /\ length grid_rows = 21%nat
  /\ nth 10 grid_rows 0%float = (-0x1.4p-53)%float
  /\ nth 20 grid_rows 0%float = 0x1.ffffffffffffep-1%float
  /\ (nth 20 grid_rows 0 <? 1)%float = true.
Proof.
  intros Hfuel. split; [|repeat split].
  unfold _grid. unfold bind at 1 3.
  rewrite (for_number_range (fun y => y <? 1)%float _ _ fuel _ grid_rows);
    [reflexivity|].
  replace fuel with (22 + (fuel - 22))%nat by lia.
  apply number_range_more_fuel, grid_rows_range.
Qed.

(** X12. When [-aspect_ratio < aspect_ratio] does not hold (the aspect
    ratio is 0, negative or [NaN], as for a canvas without width), the
    second loop of [_grid] draws nothing: [_grid] is the 21 horizontal
    lines alone. *)
Theorem grid_without_columns (fuel : nat) (s : state) :
  (22 <= fuel)%nat ->
  (- aspect_ratio s <? aspect_ratio s)%float = false ->
  _grid driver Math_cos Math_sin fuel s
  = forEach (fun y => line driver Math_cos Math_sin 0 y Math_PI
                        [0.25; 0.25; 0.25; 1]%float) grid_rows s.
Proof.
  intros Hfuel Har. unfold _grid.
  assert (R : forall s0 : state,
            for_number fuel (fun y (_ : state) => (y <? 1)%float)
              (fun y => (y + 0.1)%float)
              (fun y => line driver Math_cos Math_sin 0 y Math_PI
                          [0.25; 0.25; 0.25; 1]%float) (-1)%float s0
            = forEach (fun y => line driver Math_cos Math_sin 0 y Math_PI
                                  [0.25; 0.25; 0.25; 1]%float) grid_rows s0).
  { intros s0. apply (for_number_range (fun y => y <? 1)%float).
    replace fuel with (22 + (fuel - 22))%nat by lia.
    apply number_range_more_fuel, grid_rows_range. }
  unfold bind at 1. rewrite R.
  change (match forEach ?f grid_rows s with
          | (Ok a, s') => ?k a s'
          | (Throw e, s') => (Throw e, s')
          | (OutOfFuel, s') => (OutOfFuel, s')
          end) with (bind (forEach f grid_rows) k s).
  apply (bind_nothing aspect_ratio).
  - apply keeps_forEach. intros y. apply keeps_line. typeclasses eauto.
  - intros _ s' E.
    rewrite (bind_Ok _ _ s' s' (aspect_ratio s')) by reflexivity.
    destruct fuel as [|fuel']; [lia|]. cbn [for_number].
    rewrite (bind_Ok _ _ s' s' (- aspect_ratio s' <? aspect_ratio s')%float)
      by reflexivity.
    rewrite E, Har. reflexivity.
Qed.

Lemma line_ok x y rotation color s l1 l2 l3 l4 l5 :
  0 <= attrib_index driver (program s) "a_vertex" ->
  map (uniform_location driver (program s)) uniform_names
    = map Some [l1; l2; l3; l4; l5] ->
  exists calls,
    line driver Math_cos Math_sin x y rotation color s
    = (Ok tt, logged calls (new_buffer s)).
Proof.
  intros Ha Hu. rewrite line_is_draw. eexists.
  apply (draw_ok driver _ [x; y] rotation 1 s l1 l2 l3 l4 l5 Ha Hu).
Qed.

(** The renderer can draw and its aspect ratio is [Infinity]. *)
Definition draws_at_infinity (l : list N) (s : state) : Prop :=
  0 <= attrib_index driver (program s) "a_vertex"
  /\ map (uniform_location driver (program s)) uniform_names = map Some l
  /\ aspect_ratio s = infinity.

Lemma line_at_infinity l1 l2 l3 l4 l5 x y rotation color s :
  draws_at_infinity [l1; l2; l3; l4; l5] s ->
  exists s',
    line driver Math_cos Math_sin x y rotation color s = (Ok tt, s')
    /\ draws_at_infinity [l1; l2; l3; l4; l5] s'.
Proof.
  intros (Ha & Hu & Har).
  destruct (line_ok x y rotation color s l1 l2 l3 l4 l5 Ha Hu) as (calls & E).
  eexists. split; [exact E|]. exact (conj Ha (conj Hu Har)).
Qed.

Lemma columns_never_end l1 l2 l3 l4 l5 (fuel : nat) : forall s,
  draws_at_infinity [l1; l2; l3; l4; l5] s ->
  fst (for_number fuel (fun x s => x <? aspect_ratio s)%float
         (fun x => x + 0.1)%float
         (fun x => line driver Math_cos Math_sin x 0 (Math_PI / 2)%float
                     [0.25; 0.25; 0.25; 1]%float)
         neg_infinity s) = OutOfFuel.
Proof.
  induction fuel as [|fuel IH]; intros s Hs; [reflexivity|].
  cbn [for_number].
  rewrite (bind_Ok _ _ s s (neg_infinity <? aspect_ratio s)%float) by reflexivity.
  destruct Hs as (Ha & Hu & Har). rewrite Har.
  change (neg_infinity <? infinity)%float with true. cbv iota.
  destruct (line_at_infinity l1 l2 l3 l4 l5 neg_infinity 0 (Math_PI / 2)%float
              [0.25; 0.25; 0.25; 1]%float s (conj Ha (conj Hu Har)))
    as (s1 & E & H1).
  rewrite (bind_Ok _ _ _ _ _ E).
  change (neg_infinity + 0.1)%float with neg_infinity.
  now apply IH.
Qed.

Lemma grid_at_infinity l1 l2 l3 l4 l5 (fuel : nat) (s : state) :
  draws_at_infinity [l1; l2; l3; l4; l5] s ->
  fst (_grid driver Math_cos Math_sin fuel s) = OutOfFuel.
Proof.
  intros Hs. unfold _grid.
  destruct (for_number_returns (draws_at_infinity [l1; l2; l3; l4; l5])
              (fun y (_ : state) => (y <? 1)%float) (fun y => (y + 0.1)%float)
              (fun y => line driver Math_cos Math_sin 0 y Math_PI
                          [0.25; 0.25; 0.25; 1]%float)
              (fun r s0 => line_at_infinity l1 l2 l3 l4 l5 0 r Math_PI _ s0)
              fuel (-1)%float s Hs)
    as [Out|(s1 & E & H1)].
  - now apply fst_bind_OutOfFuel.
  - rewrite (bind_Ok _ _ _ _ _ E).
    rewrite (bind_Ok _ _ s1 s1 (aspect_ratio s1)) by reflexivity.
    pose proof H1 as (_ & _ & ->).
    change (- infinity)%float with neg_infinity.
    now apply (columns_never_end l1 l2 l3 l4 l5).
Qed.

(** X13. When the aspect ratio is [Infinity] (what [resize] stores for a
    canvas with width but no height) and the lookups of [draw] succeed,
    the second loop of [_grid] never ends: its variable starts at
    [-Infinity] and adding 0.1 leaves it there, below the bound.  [_grid]
    returns for no amount of fuel, and neither does a [clear] in debug
    mode. *)
Theorem grid_never_returns (s : state) (l1 l2 l3 l4 l5 : N) :
  0 <= attrib_index driver (program s) "a_vertex" ->
  map (uniform_location driver (program s)) uniform_names
    = map Some [l1; l2; l3; l4; l5] ->
  aspect_ratio s = infinity ->
  (forall fuel, fst (_grid driver Math_cos Math_sin fuel s) = OutOfFuel)
  /\ (debug s = true ->
      forall fuel now,
        fst (clear driver browser Math_cos Math_sin fuel now s) = OutOfFuel).
Proof.
  intros Ha Hu Har. split.
  - intros fuel. apply (grid_at_infinity l1 l2 l3 l4 l5). now repeat split.
  - intros Hd fuel now. unfold clear.
    rewrite (bind_Ok _ _ s s (fps_last s)) by reflexivity.
    match goal with
    | |- fst (bind (if ?c then ?a else ?b) _ _) = _ =>
        assert (F : exists s1, (if c then a else b) s = (Ok tt, s1)
                               /\ debug s1 = true
                               /\ draws_at_infinity [l1; l2; l3; l4; l5] s1)
    end.
    { destruct (_ <? _).
      - eexists. split; [reflexivity|]. split; [exact Hd|]. now repeat split.
      - eexists. split; [reflexivity|]. split; [exact Hd|]. now repeat split. }
    destruct F as (s1 & E & Hd1 & H1).
    rewrite (bind_Ok _ _ _ _ _ E).
    rewrite (bind_Ok _ _ _ _ _ (gl_issue_logged _ _)).
    erewrite bind_Ok by reflexivity.
    erewrite bind_Ok by reflexivity.
    erewrite bind_Ok by reflexivity.
    erewrite bind_Ok by reflexivity.
    match goal with
    | |- context [debug ?t] => change (debug t) with (debug s1)
    end.
    rewrite Hd1.
    apply fst_bind_OutOfFuel.
    apply (grid_at_infinity l1 l2 l3 l4 l5).
    exact H1.
Qed.

End Grid.

(** Pages whose body has no height, or no width, after construction. *)
Module Degenerate.

Definition flat : state :=
  snd (constructor Stub.driver Stub.browser "void main(){}" "void main(){}" 0
         (page (800, 0))).

Definition narrow : state :=
  snd (constructor Stub.driver Stub.browser "void main(){}" "void main(){}" 0
         (page (0, 600))).

End Degenerate.

Lemma grid_draws_21_rows_witness :
  (22 <= 22)%nat
  /\ _grid Stub.driver Stub.Math_cos Stub.Math_sin 22 Stub.ready
     = (forEach (fun y => line Stub.driver Stub.Math_cos Stub.Math_sin 0 y Math_PI
                            [0.25; 0.25; 0.25; 1]%float) grid_rows;;
        ar <- gets aspect_ratio;;
        for_number 22 (fun x s => x <? aspect_ratio s)%float (fun x => x + 0.1)%float
          (fun x => line Stub.driver Stub.Math_cos Stub.Math_sin x 0 (Math_PI / 2)%float
                      [0.25; 0.25; 0.25; 1]%float)
          (- ar)%float) Stub.ready
  /\ length grid_rows = 21%nat.
Proof.
  split; [lia|].
  destruct (grid_draws_21_rows Stub.driver Stub.Math_cos Stub.Math_sin 22 Stub.ready
              (le_n 22)) as (E & Hl & _).
  split; [exact E | exact Hl].
Defined.

Lemma grid_without_columns_witness :
  (22 <= 22)%nat
  /\ (- aspect_ratio Degenerate.narrow <? aspect_ratio Degenerate.narrow)%float = false
  /\ _grid Stub.driver Stub.Math_cos Stub.Math_sin 22 Degenerate.narrow
     = forEach (fun y => line Stub.driver Stub.Math_cos Stub.Math_sin 0 y Math_PI
                           [0.25; 0.25; 0.25; 1]%float) grid_rows Degenerate.narrow.
Proof.
  assert (H : (- aspect_ratio Degenerate.narrow <? aspect_ratio Degenerate.narrow)%float
              = false) by (vm_compute; reflexivity).
  split; [lia|]. split; [exact H|].
  exact (grid_without_columns Stub.driver Stub.Math_cos Stub.Math_sin 22
           Degenerate.narrow (le_n 22) H).
Defined.

Lemma grid_never_returns_witness :
  0 <= attrib_index Stub.driver (program Degenerate.flat) "a_vertex"
  /\ map (uniform_location Stub.driver (program Degenerate.flat)) uniform_names
     = map Some [0; 1; 2; 3; 4]%N
  /\ aspect_ratio Degenerate.flat = infinity
  /\ fst (_grid Stub.driver Stub.Math_cos Stub.Math_sin 100 Degenerate.flat)
     = OutOfFuel.
Proof.
  assert (Ha : 0 <= attrib_index Stub.driver (program Degenerate.flat) "a_vertex")
    by (vm_compute; discriminate).
  assert (Hu : map (uniform_location Stub.driver (program Degenerate.flat))
                 uniform_names = map Some [0; 1; 2; 3; 4]%N)
    by (vm_compute; reflexivity).
  assert (Har : aspect_ratio Degenerate.flat = infinity) by (vm_compute; reflexivity).
  split; [exact Ha|]. split; [exact Hu|]. split; [exact Har|].
  exact (proj1 (grid_never_returns Stub.driver Stub.browser Stub.Math_cos Stub.Math_sin
                  Degenerate.flat 0 1 2 3 4 Ha Hu Har) 100%nat).
Defined.

(** ** [drawBody] *)

(** The text of a [fillText] call. *)
Definition filled_text (c : c2d_call) : option string :=
  match c with FillText text _ _ => Some text | _ => None end.

Section DrawBody.

Variable driver : Driver.
Variable browser : Browser.
Variables Math_cos Math_sin : float -> float.

(** X14. With [debug] off, [drawBody] is [draw] on the body's wireframe,
    position, rotation and size, whatever the outcome: no text and no
    bounding polygon is drawn, and no fuel is used. *)
Theorem drawBody_without_debug (fuel : nat) (body : Body) (s : state) :
  debug s = false ->
  drawBody driver browser Math_cos Math_sin fuel body s
  = draw driver (wireframe body) (position body) (rotation body) (size body) s.
Proof.
  intros Hd. unfold drawBody.
  apply (bind_nothing debug).
  - apply keeps_draw. typeclasses eauto.
  - intros _ s' E.
    rewrite (bind_Ok _ _ s' s' (debug s')) by reflexivity.
    now rewrite E, Hd.
Qed.

(** The wireframe of [polygon(radius, 8, ...)]: nine vertices, the first
    at angle 0 and the last at eight steps of [Math.PI * 2 / 8]. *)
Definition octagon (radius : float) (color0 : list float) : Wireframe :=
  {| bounds := 0;
     color := concat (repeat color0 9);
     shape := flat_map (fun r => [(Math_cos r * radius)%float;
                                  (Math_sin r * radius)%float])
                (firstn 9 octagon_angles) |}.

Lemma polygon_octagon_loop (radius : float) (color0 : list float) :
  polygon_loop Math_cos Math_sin 10 radius 8 color0 0 empty_wireframe
  = Some (octagon radius color0).
Proof.
  cbn [polygon_loop].
  repeat match goal with
  | |- context [(?a <=? ?b)%float] =>
      let v := eval vm_compute in (a <=? b)%float in
      change (a <=? b)%float with v; cbv iota
  end.
  unfold octagon. cbn [empty_wireframe color shape bounds app repeat concat].
  rewrite <- !app_assoc, app_nil_r. reflexivity.
Qed.

End DrawBody.

Section DrawBodyDebug.

Variable driver : Driver.
Variable browser : Browser.
Variables Math_cos Math_sin : float -> float.

(** The four texts of [drawBody] in debug mode. *)
Definition debug_texts (body : Body) : M state unit :=
  let px := index (position body) 0 in
  let py := index (position body) 1 in
  let vx := index (velocity body) 0 in
  let vy := index (velocity body) 1 in
  _text browser (to_number px + 0.1) (to_number py - 0.1)
    ("b " +:+ Number_toString browser (bounds (wireframe body))) None None;;
  px3 <- toFixed browser px 3;;
  py3 <- toFixed browser py 3;;
  _text browser (to_number px + 0.1) (to_number py - 0.2)
    ("p { x: " +:+ px3 +:+ ", y: " +:+ py3 +:+ " }") None None;;
  vx3 <- toFixed browser vx 3;;
  vy3 <- toFixed browser vy 3;;
  _text browser (to_number px + 0.1) (to_number py - 0.3)
    ("v { x: " +:+ vx3 +:+ ", y: " +:+ vy3 +:+ " }") None None;;
  _text browser (to_number px + 0.1) (to_number py - 0.4)
    ("r " +:+ Number_toFixed browser (rotation body) 3) None None.

(** In debug mode, when the lookups succeed, [drawBody] is the texts run
    after the two draws. *)
Lemma drawBody_debug_draws (fuel : nat) (body : Body) (s : state)
    (l1 l2 l3 l4 l5 : N) :
  debug s = true ->
  0 <= attrib_index driver (program s) "a_vertex" ->
  map (uniform_location driver (program s)) uniform_names
    = map Some [l1; l2; l3; l4; l5] ->
  (10 <= fuel)%nat ->
  exists calls s2,
    drawBody driver browser Math_cos Math_sin fuel body s = debug_texts body s2
    /\ gl (s2) = gl (logged calls (new_buffer (new_buffer s)))
    /\ beside_gl s2 = beside_gl s
    /\ List.filter is_DrawArrays calls
       = [DrawArrays GL.LINE_STRIP 0 (Z.of_nat (length (shape (wireframe body))) / 2);
          DrawArrays GL.LINE_STRIP 0 9]
    /\ In (UniformMatrix3fv l1 false
             (new_Float32Array (concat (repeat [0; 1; 0; 1]%float 9)))) calls.
Proof.
  intros Hd Ha Hu Hfuel. unfold drawBody.
  rewrite (bind_Ok _ _ _ _ _
             (draw_ok driver (wireframe body) (position body) (rotation body)
                (size body) s l1 l2 l3 l4 l5 Ha Hu)).
  match goal with |- context [bind (gets debug) _ ?t] => set (s1 := t) end.
  rewrite (bind_Ok _ _ s1 s1 (debug s)) by reflexivity.
  rewrite Hd. unfold polygon. fold empty_wireframe.
  pose proof (polygon_octagon_loop Math_cos Math_sin (bounds (wireframe body))
                [0; 1; 0; 1]%float) as E.
  apply (polygon_loop_more_fuel _ _ _ _ _ _ (fuel - 10)) in E.
  replace (10 + (fuel - 10))%nat with fuel in E by lia.
  rewrite E.
  rewrite (bind_Ok _ _ _ _ _
             (draw_ok driver
                (octagon Math_cos Math_sin (bounds (wireframe body)) [0; 1; 0; 1]%float)
                (position body) (rotation body) 1 s1 l1 l2 l3 l4 l5 Ha Hu)).
  match goal with
  | |- context [logged ?c (new_buffer s1)] => set (calls2 := c)
  end.
  pose (calls1 := draw_calls (wireframe body) (position body) (rotation body)
                    (size body) s
                    (attrib_index driver (program s) "a_vertex")
                    [l1; l2; l3; l4; l5]).
  exists (calls1 ++ calls2)%list. eexists.
  split; [reflexivity|].
  split; [|split; [|split]].
  - apply gl_state_ext.
    + rewrite !gl_logged, !fold_record_next, !gl_new_buffer, !gl_next_with_buffers,
        !gl_next_fresh.
      subst s1. now rewrite gl_logged, fold_record_next, gl_new_buffer,
        gl_next_with_buffers, gl_next_fresh.
    + rewrite !gl_logged, !fold_record_shaders, !gl_new_buffer,
        !gl_shaders_with_buffers, !gl_shaders_fresh.
      subst s1. now rewrite gl_logged, fold_record_shaders, gl_new_buffer,
        gl_shaders_with_buffers, gl_shaders_fresh.
    + rewrite !gl_logged, !fold_record_programs, !gl_new_buffer,
        !gl_programs_with_buffers, !gl_programs_fresh.
      subst s1. now rewrite gl_logged, fold_record_programs, gl_new_buffer,
        gl_programs_with_buffers, gl_programs_fresh.
    + rewrite !gl_logged, !fold_record_buffers, !gl_new_buffer,
        !gl_buffers_with_buffers, !gl_buffers_fresh, !gl_next_with_buffers,
        !gl_next_fresh.
      subst s1. now rewrite gl_logged, fold_record_buffers, fold_record_next,
        gl_new_buffer, gl_buffers_with_buffers, gl_buffers_fresh,
        gl_next_with_buffers, gl_next_fresh.
    + rewrite !gl_logged, !fold_record_viewport, !gl_new_buffer,
        !gl_viewport_with_buffers, !gl_viewport_fresh.
      subst s1. now rewrite gl_logged, fold_record_viewport, gl_new_buffer,
        gl_viewport_with_buffers, gl_viewport_fresh.
    + rewrite !gl_log_logged, !gl_new_buffer, !gl_log_with_buffers, !gl_log_fresh.
      subst s1. rewrite gl_log_logged, gl_new_buffer, gl_log_with_buffers,
        gl_log_fresh. now rewrite app_assoc.
  - reflexivity.
  - subst calls1 calls2. unfold draw_calls.
    cbn [app List.filter is_DrawArrays].
    rewrite !uniform_call_not_draw. reflexivity.
  - apply in_or_app. right. subst calls2. unfold draw_calls.
    do 7 right. left. reflexivity.
Qed.

Lemma gl_log_two_buffers calls s :
  gl_log (gl (logged calls (new_buffer (new_buffer s))))
  = (gl_log (gl s) ++ calls)%list.
Proof.
  now rewrite gl_log_logged, !gl_new_buffer, !gl_log_with_buffers, !gl_log_fresh.
Qed.

Lemma gl_next_two_buffers calls s :
  gl_next (gl (logged calls (new_buffer (new_buffer s))))
  = N.succ (N.succ (gl_next (gl s))).
Proof.
  now rewrite gl_logged, fold_record_next, !gl_new_buffer, !gl_next_with_buffers,
    !gl_next_fresh.
Qed.

(** Run the texts one call at a time. *)
Ltac text_step :=
  first
    [ rewrite (bind_Ok _ _ _ _ _ (text_state _ _ _ _ _ _ _))
    | rewrite text_state
    | erewrite bind_Ok by reflexivity
    | erewrite bind_Throw by reflexivity ].

Lemma debug_texts_ok (body : Body) (t : state) (px py vx vy : float) :
  index (position body) 0 = Some px ->
  index (position body) 1 = Some py ->
  index (velocity body) 0 = Some vx ->
  index (velocity body) 1 = Some vy ->
  let fixed x := Number_toFixed browser x 3 in
  exists texts,
    debug_texts body t = (Ok tt, with_canvas_2d (fun l => (l ++ texts)%list) t)
    /\ omap filled_text texts
       = ["b " +:+ Number_toString browser (bounds (wireframe body));
          "p { x: " +:+ fixed px +:+ ", y: " +:+ fixed py +:+ " }";
          "v { x: " +:+ fixed vx +:+ ", y: " +:+ fixed vy +:+ " }";
          "r " +:+ fixed (rotation body)].
Proof.
  intros Hpx Hpy Hvx Hvy fixed. unfold debug_texts.
  rewrite Hpx, Hpy, Hvx, Hvy. cbn [toFixed to_number].
  repeat text_step.
  rewrite !with_canvas_2d_twice.
  eexists. split.
  - f_equal. apply with_canvas_2d_ext. cbv beta.
    rewrite <- !app_assoc. reflexivity.
  - reflexivity.
Qed.

Lemma debug_texts_throw (body : Body) (t : state) :
  (length (position body) < 2)%nat \/ (length (velocity body) < 2)%nat ->
  let fixed x := Number_toFixed browser x 3 in
  exists texts,
    debug_texts body t
    = (Throw (TypeError_undefined browser "toFixed"),
       with_canvas_2d (fun l => (l ++ texts)%list) t)
    /\ omap filled_text texts
       = ("b " +:+ Number_toString browser (bounds (wireframe body)))
         :: match position body with
            | px :: py :: _ =>
                ["p { x: " +:+ fixed px +:+ ", y: " +:+ fixed py +:+ " }"]
            | _ => []
            end.
Proof.
  intros H fixed. unfold debug_texts.
  destruct (position body) as [|px [|py prest]];
    destruct (velocity body) as [|vx [|vy vrest]];
    cbn [length] in H; try lia;
    cbn [index nth_error toFixed to_number];
    repeat text_step;
    rewrite ?with_canvas_2d_twice;
    (eexists; split;
     [ f_equal; apply with_canvas_2d_ext; cbv beta;
       rewrite <- ?app_assoc; reflexivity
     | reflexivity ]).
Qed.

(** X15. In debug mode, when the lookups of [draw] succeed and the body's
    position and velocity have their two entries, [drawBody] returns
    after two draws and four texts: the body's wireframe, then the bounding
    polygon, which for its eight sides has nine vertices (the first one
    repeated at the end closes the outline) and whose colour array holds 36
    numbers; then the texts for bounds, position, velocity and rotation,
    in that order.  Two buffers are allocated. *)
Theorem drawBody_with_debug (fuel : nat) (body : Body) (s : state)
    (l1 l2 l3 l4 l5 : N) (px py vx vy : float) :
  debug s = true ->
  0 <= attrib_index driver (program s) "a_vertex" ->
  map (uniform_location driver (program s)) uniform_names
    = map Some [l1; l2; l3; l4; l5] ->
  (10 <= fuel)%nat ->
  index (position body) 0 = Some px ->
  index (position body) 1 = Some py ->
  index (velocity body) 0 = Some vx ->
  index (velocity body) 1 = Some vy ->
  let fixed x := Number_toFixed browser x 3 in
  exists s' calls texts,
    drawBody driver browser Math_cos Math_sin fuel body s = (Ok tt, s')
    /\ gl_log (gl s') = (gl_log (gl s) ++ calls)%list
    /\ List.filter is_DrawArrays calls
       = [DrawArrays GL.LINE_STRIP 0 (Z.of_nat (length (shape (wireframe body))) / 2);
          DrawArrays GL.LINE_STRIP 0 9]
    /\ In (UniformMatrix3fv l1 false
             (new_Float32Array (concat (repeat [0; 1; 0; 1]%float 9)))) calls
    /\ canvas_2d s' = (canvas_2d s ++ texts)%list
    /\ omap filled_text texts
       = ["b " +:+ Number_toString browser (bounds (wireframe body));
          "p { x: " +:+ fixed px +:+ ", y: " +:+ fixed py +:+ " }";
          "v { x: " +:+ fixed vx +:+ ", y: " +:+ fixed vy +:+ " }";
          "r " +:+ fixed (rotation body)]
    /\ gl_next (gl s') = N.succ (N.succ (gl_next (gl s))).
Proof.
  intros Hd Ha Hu Hfuel Hpx Hpy Hvx Hvy fixed.
  destruct (drawBody_debug_draws fuel body s l1 l2 l3 l4 l5 Hd Ha Hu Hfuel)
    as (calls & s2 & E & Hgl & Hrest & Hdraws & Hcolor).
  destruct (debug_texts_ok body s2 px py vx vy Hpx Hpy Hvx Hvy)
    as (texts & Et & Htexts).
  eexists. exists calls, texts.
  split; [rewrite E; exact Et|].
  rewrite gl_with_canvas_2d, canvas_2d_with_canvas_2d, Hgl.
  rewrite gl_log_two_buffers, gl_next_two_buffers.
  repeat split; try assumption.
  f_equal. unfold beside_gl in Hrest. now injection Hrest.
Qed.

(** X16. In debug mode, when the lookups of [draw] succeed but the body's
    position or velocity has fewer than two entries, [drawBody] throws
    the [TypeError] of reading [toFixed] of [undefined], after both draws
    and after the texts that precede the missing entry: the bounds text
    alone (at [NaN] coordinates where the position entry is missing) when
    the position is short, the bounds and position texts when only the
    velocity is. *)
Theorem drawBody_missing_entry (fuel : nat) (body : Body) (s : state)
    (l1 l2 l3 l4 l5 : N) :
  debug s = true ->
  0 <= attrib_index driver (program s) "a_vertex" ->
  map (uniform_location driver (program s)) uniform_names
    = map Some [l1; l2; l3; l4; l5] ->
  (10 <= fuel)%nat ->
  (length (position body) < 2)%nat \/ (length (velocity body) < 2)%nat ->
  let fixed x := Number_toFixed browser x 3 in
  exists s' calls texts,
    drawBody driver browser Math_cos Math_sin fuel body s
    = (Throw (TypeError_undefined browser "toFixed"), s')
    /\ gl_log (gl s') = (gl_log (gl s) ++ calls)%list
    /\ List.filter is_DrawArrays calls
       = [DrawArrays GL.LINE_STRIP 0 (Z.of_nat (length (shape (wireframe body))) / 2);
          DrawArrays GL.LINE_STRIP 0 9]
    /\ canvas_2d s' = (canvas_2d s ++ texts)%list
    /\ omap filled_text texts
       = ("b " +:+ Number_toString browser (bounds (wireframe body)))
         :: match position body with
            | px :: py :: _ =>
                ["p { x: " +:+ fixed px +:+ ", y: " +:+ fixed py +:+ " }"]
            | _ => []
            end.
Proof.
  intros Hd Ha Hu Hfuel Hshort fixed.
  destruct (drawBody_debug_draws fuel body s l1 l2 l3 l4 l5 Hd Ha Hu Hfuel)
    as (calls & s2 & E & Hgl & Hrest & Hdraws & _).
  destruct (debug_texts_throw body s2 Hshort) as (texts & Et & Htexts).
  eexists. exists calls, texts.
  split; [rewrite E; exact Et|].
  rewrite gl_with_canvas_2d, canvas_2d_with_canvas_2d, Hgl.
  rewrite gl_log_two_buffers.
  repeat split; try assumption.
  f_equal. unfold beside_gl in Hrest. now injection Hrest.
Qed.

End DrawBodyDebug.

Lemma drawBody_without_debug_witness :
  debug Stub.ready = false
  /\ drawBody Stub.driver Stub.browser Stub.Math_cos Stub.Math_sin 0
       {| wireframe := Example.ship; position := [0; 0]%float; rotation := 0;
          size := 1; velocity := [0; 0]%float |} Stub.ready
     = draw Stub.driver Example.ship [0; 0]%float 0 1 Stub.ready.
Proof.
  split; [reflexivity|].
  exact (drawBody_without_debug Stub.driver Stub.browser Stub.Math_cos Stub.Math_sin 0
           {| wireframe := Example.ship; position := [0; 0]%float; rotation := 0;
              size := 1; velocity := [0; 0]%float |} Stub.ready eq_refl).
Defined.

Lemma drawBody_with_debug_witness :
  debug (with_debug true Stub.ready) = true
  /\ 0 <= attrib_index Stub.driver (program (with_debug true Stub.ready)) "a_vertex"
  /\ map (uniform_location Stub.driver (program (with_debug true Stub.ready)))
       uniform_names = map Some [0; 1; 2; 3; 4]%N
  /\ (10 <= 10)%nat
  /\ index [0.5; 0.25]%float 0 = Some 0.5%float
  /\ index [0.5; 0.25]%float 1 = Some 0.25%float
  /\ index [0; 0]%float 0 = Some 0%float
  /\ index [0; 0]%float 1 = Some 0%float
  /\ exists s' calls,
       drawBody Stub.driver Stub.browser Stub.Math_cos Stub.Math_sin 10
         {| wireframe := Example.ship; position := [0.5; 0.25]%float; rotation := 0;
            size := 1; velocity := [0; 0]%float |} (with_debug true Stub.ready)
       = (Ok tt, s')
       /\ gl_log (gl s') = (gl_log (gl (with_debug true Stub.ready)) ++ calls)%list
       /\ List.filter is_DrawArrays calls
          = [DrawArrays GL.LINE_STRIP 0 (Z.of_nat (length (shape Example.ship)) / 2);
             DrawArrays GL.LINE_STRIP 0 9].
Proof.
  assert (Ha : 0 <= attrib_index Stub.driver (program (with_debug true Stub.ready))
                      "a_vertex")
    by (vm_compute; discriminate).
  assert (Hu : map (uniform_location Stub.driver (program (with_debug true Stub.ready)))
                 uniform_names = map Some [0; 1; 2; 3; 4]%N)
    by (vm_compute; reflexivity).
  split; [reflexivity|]. split; [exact Ha|]. split; [exact Hu|]. split; [lia|].
  do 4 (split; [reflexivity|]).
  destruct (drawBody_with_debug Stub.driver Stub.browser Stub.Math_cos Stub.Math_sin 10
              {| wireframe := Example.ship; position := [0.5; 0.25]%float;
                 rotation := 0; size := 1; velocity := [0; 0]%float |}
              (with_debug true Stub.ready) 0 1 2 3 4 0.5 0.25 0 0
              eq_refl Ha Hu (le_n 10) eq_refl eq_refl eq_refl eq_refl)
    as (s' & calls & texts & E & Hl & Hd & _).
  exists s', calls. split; [exact E|]. split; [exact Hl | exact Hd].
Defined.

Lemma drawBody_missing_entry_witness :
  debug (with_debug true Stub.ready) = true
  /\ 0 <= attrib_index Stub.driver (program (with_debug true Stub.ready)) "a_vertex"
  /\ map (uniform_location Stub.driver (program (with_debug true Stub.ready)))
       uniform_names = map Some [0; 1; 2; 3; 4]%N
  /\ (10 <= 10)%nat
  /\ ((length [0.5; 0.25]%float < 2)%nat \/ (length (@nil float) < 2)%nat)
  /\ exists s' texts,
       drawBody Stub.driver Stub.browser Stub.Math_cos Stub.Math_sin 10
         {| wireframe := Example.ship; position := [0.5; 0.25]%float; rotation := 0;
            size := 1; velocity := [] |} (with_debug true Stub.ready)
       = (Throw "Cannot read properties of undefined (reading 'toFixed')", s')
       /\ canvas_2d s' = (canvas_2d (with_debug true Stub.ready) ++ texts)%list
       /\ omap filled_text texts = ["b 0"; "p { x: 0.000, y: 0.000 }"].
Proof.
  assert (Ha : 0 <= attrib_index Stub.driver (program (with_debug true Stub.ready))
                      "a_vertex")
    by (vm_compute; discriminate).
  assert (Hu : map (uniform_location Stub.driver (program (with_debug true Stub.ready)))
                 uniform_names = map Some [0; 1; 2; 3; 4]%N)
    by (vm_compute; reflexivity).
  assert (Hs : (length [0.5; 0.25]%float < 2)%nat \/ (length (@nil float) < 2)%nat)
    by (right; cbn; lia).
  split; [reflexivity|]. split; [exact Ha|]. split; [exact Hu|]. split; [lia|].
  split; [exact Hs|].
  destruct (drawBody_missing_entry Stub.driver Stub.browser Stub.Math_cos Stub.Math_sin
              10
              {| wireframe := Example.ship; position := [0.5; 0.25]%float;
                 rotation := 0; size := 1; velocity := [] |}
              (with_debug true Stub.ready) 0 1 2 3 4
              eq_refl Ha Hu (le_n 10) Hs)
    as (s' & calls & texts & E & _ & _ & Hc & Ht).
  exists s', texts. split; [exact E|]. split; [exact Hc | exact Ht].
Defined.
